(** * joserfc: JWS and JWE facades (jws.py, jwe.py)

    A shallow embedding of the two facade modules [joserfc/jws.py] and
    [joserfc/jwe.py].  The facades are short: they validate the header and
    the algorithm allow-list, resolve the key, and delegate to helper
    modules ([rfc7515], [rfc7516], [jwk], [util]).  The facade functions are
    embedded over an interface of those helpers (a type class), so that
    every statement about the facade alone holds for any implementation of
    the helpers.  The helpers themselves are modelled, where a statement
    needs them, from the design document (codec, key policy, compact
    signing pipeline, JWE pipeline).

    Conventions:
    - Python [bytes] and [str] are both [string] (a sequence of 8-bit
      characters; a [str] is represented by its UTF-8 encoding).
    - A Python exception is a value of [exn]; a call that may raise returns
      [result A = exn + A].
    - The facade runs in [M], an error monad that also records, in order,
      which helpers were called, so that "X fails before Y is attempted"
      is a statement about the recorded calls. *)

From Stdlib Require Import String Ascii List ZArith NArith Bool Lia.
From Stdlib Require Import DecimalString.
Import ListNotations.

Set Warnings "-register-all".

Local Open Scope list_scope.
Local Open Scope string_scope.

(* ------------------------------------------------------------------ *)
(** ** Bytes *)

Definition bytes := string.

(** Bytes from and to their values in [0, 255]. *)
Fixpoint bytes_of_list (l : list Z) : bytes :=
  match l with
  | [] => EmptyString
  | x :: r => String (ascii_of_N (Z.to_N x)) (bytes_of_list r)
  end.

Fixpoint list_of_bytes (s : bytes) : list Z :=
  match s with
  | EmptyString => []
  | String c r => Z.of_N (N_of_ascii c) :: list_of_bytes r
  end.

(** [bytes.split(sep)] for a one-byte separator: never returns the empty
    list; [b''.split(b'.')] is [[b'']]. *)
Fixpoint split_on (sep : ascii) (s : bytes) : list bytes :=
  match s with
  | EmptyString => [EmptyString]
  | String c r =>
      if Ascii.eqb c sep then EmptyString :: split_on sep r
      else match split_on sep r with
           | hd :: tl => String c hd :: tl
           | [] => [String c EmptyString]
           end
  end.

(** [sep in s]. *)
Fixpoint contains_byte (sep : ascii) (s : bytes) : bool :=
  match s with
  | EmptyString => false
  | String c r => Ascii.eqb c sep || contains_byte sep r
  end.

(* ------------------------------------------------------------------ *)
(** ** Codec primitives (util.py: urlsafe_b64encode / urlsafe_b64decode) *)

(** Modelled from the spec: [urlsafe_b64encode] and [urlsafe_b64decode] of
    [joserfc/util.py] are missing from the sources.  Design document 4.1:
    base64url without padding; decoding rejects bytes outside the alphabet
    and invalid lengths.  The alphabet is that of RFC 4648 section 5. *)
Definition b64_char (n : N) : ascii :=
  ascii_of_N (if n <? 26 then n + 65
              else if n <? 52 then n + 71
              else if n <? 62 then n - 4
              else if n =? 62 then 45
              else 95)%N.

(** Modelled from the spec: the place of a byte in the base64url alphabet;
    [None] for a byte outside of it. *)
Definition b64_index (c : ascii) : option N :=
  let n := N_of_ascii c in
  (if (65 <=? n) && (n <=? 90) then Some (n - 65)
   else if (97 <=? n) && (n <=? 122) then Some (n - 71)
   else if (48 <=? n) && (n <=? 57) then Some (n + 4)
   else if n =? 45 then Some 62
   else if n =? 95 then Some 63
   else None)%N.

(** A byte, or every byte of a string, is in the base64url alphabet. *)
Definition is_b64_char (c : ascii) : bool :=
  match b64_index c with Some _ => true | None => false end.

Fixpoint is_b64 (s : bytes) : bool :=
  match s with
  | EmptyString => true
  | String c r => is_b64_char c && is_b64 r
  end.

(** Modelled from the spec: base64url encoding, three bytes to four
    characters, with a final group of one byte (two characters) or two
    bytes (three characters) and no padding character. *)
Fixpoint urlsafe_b64encode (s : bytes) : bytes :=
  match s with
  | EmptyString => EmptyString
  | String a EmptyString =>
      let x := N_of_ascii a in
      String (b64_char (x / 4)) (String (b64_char ((x mod 4) * 16)) EmptyString)
  | String a (String b EmptyString) =>
      let x := N_of_ascii a in
      let y := N_of_ascii b in
      String (b64_char (x / 4))
        (String (b64_char ((x mod 4) * 16 + y / 16))
           (String (b64_char ((y mod 16) * 4)) EmptyString))
  | String a (String b (String c r)) =>
      let x := N_of_ascii a in
      let y := N_of_ascii b in
      let z := N_of_ascii c in
      String (b64_char (x / 4))
        (String (b64_char ((x mod 4) * 16 + y / 16))
           (String (b64_char ((y mod 16) * 4 + z / 64))
              (String (b64_char (z mod 64)) (urlsafe_b64encode r))))
  end%N.

(** Modelled from the spec: base64url decoding without padding.  A
    character outside the alphabet, or a length of 1 modulo 4, is a decode
    error ([None]).  The unused low bits of a final short group are not
    inspected (the design document does not ask for it). *)
Fixpoint urlsafe_b64decode (s : bytes) : option bytes :=
  match s with
  | EmptyString => Some EmptyString
  | String _ EmptyString => None
  | String p (String q EmptyString) =>
      match b64_index p, b64_index q with
      | Some s1, Some s2 =>
          Some (String (ascii_of_N (s1 * 4 + s2 / 16)) EmptyString)
      | _, _ => None
      end
  | String p (String q (String r EmptyString)) =>
      match b64_index p, b64_index q, b64_index r with
      | Some s1, Some s2, Some s3 =>
          Some (String (ascii_of_N (s1 * 4 + s2 / 16))
                  (String (ascii_of_N ((s2 mod 16) * 16 + s3 / 4)) EmptyString))
      | _, _, _ => None
      end
  | String p (String q (String r (String t rest))) =>
      match b64_index p, b64_index q, b64_index r, b64_index t,
            urlsafe_b64decode rest with
      | Some s1, Some s2, Some s3, Some s4, Some tl =>
          Some (String (ascii_of_N (s1 * 4 + s2 / 16))
                  (String (ascii_of_N ((s2 mod 16) * 16 + s3 / 4))
                     (String (ascii_of_N ((s3 mod 4) * 64 + s4)) tl)))
      | _, _, _, _, _ => None
      end
  end%N.

(* ------------------------------------------------------------------ *)
(** ** SHA-256 and HMAC (the platform's hashlib and hmac) *)

(** 32-bit words are [Z] in [0, 2^32); additions wrap. *)
Definition w32 (x : Z) : Z := Z.land x 4294967295.
(** Addition modulo 2^32, rotation to the right of a 32-bit word,
    complement, and the six functions of FIPS 180-4, section 4.1.2. *)
Definition add32 (x y : Z) : Z := w32 (x + y).
Definition rotr (n x : Z) : Z :=
  w32 (Z.lor (Z.shiftr x n) (Z.shiftl x (32 - n))).
Definition not32 (x : Z) : Z := Z.lxor x 4294967295.

Definition Ch (x y z : Z) : Z := Z.lxor (Z.land x y) (Z.land (not32 x) z).
Definition Maj (x y z : Z) : Z :=
  Z.lxor (Z.lxor (Z.land x y) (Z.land x z)) (Z.land y z).
Definition Sigma0 (x : Z) : Z := Z.lxor (Z.lxor (rotr 2 x) (rotr 13 x)) (rotr 22 x).
Definition Sigma1 (x : Z) : Z := Z.lxor (Z.lxor (rotr 6 x) (rotr 11 x)) (rotr 25 x).
Definition sigma0 (x : Z) : Z := Z.lxor (Z.lxor (rotr 7 x) (rotr 18 x)) (Z.shiftr x 3).
Definition sigma1 (x : Z) : Z := Z.lxor (Z.lxor (rotr 17 x) (rotr 19 x)) (Z.shiftr x 10).

(** The constants of FIPS 180-4 are not tabulated but computed: the round
    constants are the first 32 bits of the fractional parts of the cube
    roots of the first 64 primes, the initial hash value those of the
    square roots of the first 8 primes. *)
Definition is_prime (n : nat) : bool :=
  forallb (fun d => negb (Nat.eqb (Nat.modulo n d) 0)) (seq 2 (n - 2)).

(** The first [count] primes (at most the 64 below 312). *)
Definition first_primes (count : nat) : list Z :=
  map Z.of_nat (firstn count (filter is_prime (seq 2 310))).

(** The integer cube root, by bisection between [lo] and [hi]. *)
Fixpoint cube_root_between (fuel : nat) (lo hi n : Z) : Z :=
  match fuel with
  | O => lo
  | S f =>
      let mid := (lo + hi + 1) / 2 in
      if mid * mid * mid <=? n
      then cube_root_between f mid hi n
      else cube_root_between f lo (mid - 1) n
  end%Z.

(** The integer cube root of a number below 2^108. *)
Definition cube_root (n : Z) : Z := cube_root_between 40 0 (2 ^ 36) n.

(** The 64 round constants. *)
Definition sha256_K : list Z :=
  Eval vm_compute in
    map (fun p => w32 (cube_root (p * 2 ^ 96))) (first_primes 64).

(** The initial hash value. *)
Definition sha256_H0 : list Z :=
  Eval vm_compute in
    map (fun p => w32 (Z.sqrt (p * 2 ^ 64))) (first_primes 8).

(** Message padding: a 0x80 byte, zero bytes up to 56 modulo 64, then the
    bit length as a 64-bit big-endian integer. *)
Definition be_bytes (width : nat) (x : Z) : list Z :=
  map (fun i => Z.land (Z.shiftr x (8 * Z.of_nat i)) 255) (rev (seq 0 width)).

(** The padded message (FIPS 180-4, section 5.1.1). *)
Definition sha256_pad (msg : list Z) : list Z :=
  let len := Z.of_nat (length msg) in
  let zeros := Z.to_nat ((55 - len) mod 64) in
  msg ++ [128%Z] ++ repeat 0%Z zeros ++ be_bytes 8 (8 * len).

(** Bytes to big-endian 32-bit words. *)
Fixpoint be_words (fuel : nat) (l : list Z) : list Z :=
  match fuel, l with
  | S f, a :: b :: c :: d :: r =>
      (Z.shiftl a 24 + Z.shiftl b 16 + Z.shiftl c 8 + d)%Z :: be_words f r
  | _, _ => []
  end.

(** The message schedule, most recent word first: [sched] holds
    W(t-1), W(t-2), ..., W(0). *)
Definition next_W (sched : list Z) : Z :=
  add32 (add32 (sigma1 (nth 1 sched 0%Z)) (nth 6 sched 0%Z))
        (add32 (sigma0 (nth 14 sched 0%Z)) (nth 15 sched 0%Z)).

(** [n] more words of the schedule. *)
Fixpoint extend_W (n : nat) (sched : list Z) : list Z :=
  match n with
  | O => sched
  | S n' => extend_W n' (next_W sched :: sched)
  end.

(** The 64 words of the schedule of a block of 16 words. *)
Definition schedule (block : list Z) : list Z :=
  rev (extend_W 48 (rev block)).

(** One round on the eight working variables, with a round constant and
    a schedule word. *)
Definition sha256_round (st : list Z) (kw : Z * Z) : list Z :=
  match st with
  | [a; b; c; d; e; f; g; h] =>
      let t1 := add32 (add32 (add32 h (Sigma1 e)) (Ch e f g))
                      (add32 (fst kw) (snd kw)) in
      let t2 := add32 (Sigma0 a) (Maj a b c) in
      [add32 t1 t2; a; b; c; add32 d t1; e; f; g]
  | _ => st
  end.

(** The compression of one block into the hash value. *)
Definition sha256_compress (st : list Z) (block : list Z) : list Z :=
  let st' := fold_left sha256_round (combine sha256_K (schedule block)) st in
  map (fun p => add32 (fst p) (snd p)) (combine st st').

(** The hash value after every block of 16 words. *)
Fixpoint sha256_blocks (fuel : nat) (st : list Z) (ws : list Z) : list Z :=
  match fuel with
  | O => st
  | S f =>
      match ws with
      | [] => st
      | _ => sha256_blocks f (sha256_compress st (firstn 16 ws)) (skipn 16 ws)
      end
  end.

(** SHA-256 of a list of bytes, as a list of 32 bytes. *)
Definition sha256_list (msg : list Z) : list Z :=
  let padded := sha256_pad msg in
  let ws := be_words (length padded) padded in
  flat_map (be_bytes 4) (sha256_blocks (length ws) sha256_H0 ws).

(** [hashlib.sha256(msg).digest()]. *)
Definition sha256 (msg : bytes) : bytes :=
  bytes_of_list (sha256_list (list_of_bytes msg)).

(** HMAC (RFC 2104) with SHA-256: block size 64. *)
Definition hmac_block_key (key : list Z) : list Z :=
  let k := if Nat.ltb 64 (length key) then sha256_list key else key in
  k ++ repeat 0%Z (64 - length k).

(** [hmac.new(key, msg, hashlib.sha256).digest()]. *)
Definition hmac_sha256 (key msg : bytes) : bytes :=
  let k := hmac_block_key (list_of_bytes key) in
  let ipad := map (fun x => Z.lxor x 0x36) k in
  let opad := map (fun x => Z.lxor x 0x5c) k in
  bytes_of_list (sha256_list (opad ++ sha256_list (ipad ++ list_of_bytes msg))).

(* ------------------------------------------------------------------ *)
(** ** AES (FIPS 197) and the Galois/Counter Mode (SP 800-38D)

    The content encryption A128GCM, A192GCM and A256GCM is the
    platform's; it is written out here from the two standards so that a
    run of the pipeline can be computed.  Bytes are integers from 0 to
    255, a block is a list of sixteen of them. *)

Section AES_GCM.
Local Open Scope Z_scope.

(** Multiplication by x in GF(2^8), modulo x^8 + x^4 + x^3 + x + 1. *)
Definition xtime (a : Z) : Z :=
  let b := Z.land (Z.shiftl a 1) 255 in
  if Z.testbit a 7 then Z.lxor b 27 else b.

(** Multiplication in GF(2^8), bit by bit over the second factor. *)
Fixpoint gf_mul_bits (n : nat) (a b : Z) : Z :=
  match n with
  | O => 0
  | S n' =>
      Z.lxor (if Z.odd b then a else 0) (gf_mul_bits n' (xtime a) (Z.shiftr b 1))
  end.

Definition gf_mul (a b : Z) : Z := gf_mul_bits 8 a b.

(** The multiplicative inverse in GF(2^8), with 0 for 0: the power 254. *)
Definition gf_inv (a : Z) : Z :=
  let a2 := gf_mul a a in
  let a4 := gf_mul a2 a2 in
  let a8 := gf_mul a4 a4 in
  let a16 := gf_mul a8 a8 in
  let a32 := gf_mul a16 a16 in
  let a64 := gf_mul a32 a32 in
  let a128 := gf_mul a64 a64 in
  gf_mul a128 (gf_mul a64 (gf_mul a32 (gf_mul a16 (gf_mul a8 (gf_mul a4 a2))))).

(** A byte rotated to the left. *)
Definition rotl8 (b : Z) (n : Z) : Z :=
  Z.land (Z.lor (Z.shiftl b n) (Z.shiftr b (8 - n))) 255.

(** SubBytes on one byte (FIPS 197, 5.1.1): the inverse, then the affine
    transformation. *)
Definition sub_byte_of (a : Z) : Z :=
  let b := gf_inv a in
  Z.lxor (Z.lxor (Z.lxor (Z.lxor (Z.lxor b (rotl8 b 1)) (rotl8 b 2)) (rotl8 b 3))
            (rotl8 b 4)) 99.

(** The S-box, computed once. *)
Definition aes_sbox : list Z :=
  Eval vm_compute in map (fun i => sub_byte_of (Z.of_nat i)) (seq 0 256).

Definition sub_byte (a : Z) : Z := nth (Z.to_nat a) aes_sbox 0.

(** The exclusive or of two lists of bytes, as long as the shorter. *)
Fixpoint xor_list (a b : list Z) : list Z :=
  match a, b with
  | x :: a', y :: b' => Z.lxor x y :: xor_list a' b'
  | _, _ => []
  end.

(** ShiftRows (5.1.2): the byte of row r and column c of the state is at
    index r + 4c; row r is rotated by r columns. *)
Definition shift_rows (st : list Z) : list Z :=
  map (fun i => nth ((i mod 4) + 4 * ((i / 4 + i mod 4) mod 4)) st 0) (seq 0 16).

(** MixColumns (5.1.3), column by column. *)
Definition mix_column (a0 a1 a2 a3 : Z) : list Z :=
  [ Z.lxor (Z.lxor (gf_mul 2 a0) (gf_mul 3 a1)) (Z.lxor a2 a3);
    Z.lxor (Z.lxor a0 (gf_mul 2 a1)) (Z.lxor (gf_mul 3 a2) a3);
    Z.lxor (Z.lxor a0 a1) (Z.lxor (gf_mul 2 a2) (gf_mul 3 a3));
    Z.lxor (Z.lxor (gf_mul 3 a0) a1) (Z.lxor a2 (gf_mul 2 a3)) ].

Fixpoint mix_columns (st : list Z) : list Z :=
  match st with
  | a0 :: a1 :: a2 :: a3 :: rest => mix_column a0 a1 a2 a3 ++ mix_columns rest
  | _ => []
  end.

(** The key expansion (5.2) on words of four bytes; [Nk] is the number of
    words of the key, [ws] the words so far, the last one first. *)
Definition sub_rot_word (w : list Z) (rc : Z) : list Z :=
  match w with
  | [b0; b1; b2; b3] =>
      [Z.lxor (sub_byte b1) rc; sub_byte b2; sub_byte b3; sub_byte b0]
  | _ => w
  end.

Fixpoint expand_words (n : nat) (Nk i : nat) (rc : Z) (ws : list (list Z))
  : list (list Z) :=
  match n with
  | O => ws
  | S n' =>
      let prev := nth 0 ws [] in
      let back := nth (Nk - 1) ws [] in
      if (i mod Nk =? 0)%nat
      then expand_words n' Nk (S i) (xtime rc)
                        (xor_list back (sub_rot_word prev rc) :: ws)
      else if ((6 <? Nk) && (i mod Nk =? 4))%nat
      then expand_words n' Nk (S i) rc (xor_list back (map sub_byte prev) :: ws)
      else expand_words n' Nk (S i) rc (xor_list back prev :: ws)
  end.

Fixpoint words_of (l : list Z) : list (list Z) :=
  match l with
  | a :: b :: c :: d :: rest => [a; b; c; d] :: words_of rest
  | _ => []
  end.

(** The round keys, in order, as one list of bytes: 4 (Nr + 1) words with
    Nr = Nk + 6 rounds. *)
Definition key_schedule (key : list Z) : list Z :=
  let Nk := (length key / 4)%nat in
  concat (rev (expand_words (4 * (Nk + 7) - Nk) Nk Nk 1 (rev (words_of key)))).

(** The rounds of the cipher (5.1): [rks] are the round keys that remain. *)
Fixpoint aes_rounds (n : nat) (rks : list Z) (st : list Z) : list Z :=
  match n with
  | O => st
  | S O => xor_list (shift_rows (map sub_byte st)) (firstn 16 rks)
  | S n' =>
      aes_rounds n' (skipn 16 rks)
        (xor_list (mix_columns (shift_rows (map sub_byte st))) (firstn 16 rks))
  end.

(** The cipher on one block, for a key of 16, 24 or 32 bytes. *)
Definition aes_encrypt_block (key block : list Z) : list Z :=
  let rks := key_schedule key in
  aes_rounds (length key / 4 + 6) (skipn 16 rks) (xor_list block (firstn 16 rks)).

(** A list of bytes as a number, most significant byte first, and back. *)
Definition be_to_Z (l : list Z) : Z := fold_left (fun acc b => acc * 256 + b) l 0.

Definition Z_to_be (n : nat) (x : Z) : list Z :=
  map (fun i => Z.land (Z.shiftr x (8 * Z.of_nat (n - 1 - i))) 255) (seq 0 n).

(** Multiplication of two blocks in GF(2^128) (SP 800-38D, algorithm 1):
    bit 0 of a block is its leftmost bit. *)
Fixpoint gcm_mul_bits (n : nat) (i : Z) (x v z : Z) : Z :=
  match n with
  | O => z
  | S n' =>
      let z' := if Z.testbit x (127 - i) then Z.lxor z v else z in
      let v' := if Z.odd v
                then Z.lxor (Z.shiftr v 1) (Z.shiftl 225 120)
                else Z.shiftr v 1 in
      gcm_mul_bits n' (i + 1) x v' z'
  end.

Definition gcm_mul (x y : Z) : Z := gcm_mul_bits 128 0 x y 0.

(** GHASH (algorithm 2) over a list of bytes, block by block; a last
    short block is filled with zeros. *)
Fixpoint ghash_blocks (n : nat) (h y : Z) (l : list Z) : Z :=
  match n, l with
  | S n', _ :: _ =>
      let block := firstn 16 (l ++ repeat 0 15) in
      ghash_blocks n' h (gcm_mul (Z.lxor y (be_to_Z block)) h) (skipn 16 l)
  | _, _ => y
  end.

Definition ghash (h : Z) (l : list Z) : Z := ghash_blocks (length l) h 0 l.

(** Zeros up to a multiple of sixteen bytes. *)
Definition pad16 (l : list Z) : list Z :=
  (l ++ repeat 0 ((16 - length l mod 16) mod 16))%list.

(** The counter block incremented in its last four bytes (inc32). *)
Definition inc32 (cb : list Z) : list Z :=
  (firstn 12 cb ++ Z_to_be 4 ((be_to_Z (skipn 12 cb) + 1) mod 4294967296))%list.

(** The key stream of GCTR (algorithm 3): the cipher on the successive
    counter blocks. *)
Fixpoint counter_stream (n : nat) (key cb : list Z) : list Z :=
  match n with
  | O => []
  | S n' => (aes_encrypt_block key cb ++ counter_stream n' key (inc32 cb))%list
  end.

(** The exclusive or of two bytes and of a byte string with a key stream;
    bytes beyond the key stream are left as they are. *)
Definition ascii_xor (a b : ascii) : ascii :=
  match a, b with
  | Ascii a0 a1 a2 a3 a4 a5 a6 a7, Ascii b0 b1 b2 b3 b4 b5 b6 b7 =>
      Ascii (xorb a0 b0) (xorb a1 b1) (xorb a2 b2) (xorb a3 b3)
            (xorb a4 b4) (xorb a5 b5) (xorb a6 b6) (xorb a7 b7)
  end.

Fixpoint xor_bytes (data stream : bytes) : bytes :=
  match data, stream with
  | String a r, String b s => String (ascii_xor a b) (xor_bytes r s)
  | _, _ => data
  end.

Definition gctr (key cb : list Z) (data : bytes) : bytes :=
  xor_bytes data
    (bytes_of_list (counter_stream (String.length data / 16 + 1) key cb)).

(** The hash subkey and the pre-counter block J0 (algorithm 4, steps 1
    and 2): the IV and the counter 1 for an IV of twelve bytes, the GHASH
    of the IV and its length otherwise. *)
Definition gcm_subkey (key : list Z) : Z :=
  be_to_Z (aes_encrypt_block key (repeat 0 16)).

Definition gcm_j0 (key iv : list Z) : list Z :=
  if (length iv =? 12)%nat then (iv ++ [0; 0; 0; 1])%list
  else Z_to_be 16 (ghash (gcm_subkey key)
                     (pad16 iv ++ repeat 0 8
                      ++ Z_to_be 8 (8 * Z.of_nat (length iv)))%list).

(** The tag (algorithm 4, steps 5 and 6), in full: sixteen bytes. *)
Definition gcm_tag (key iv : list Z) (aad ct : bytes) : bytes :=
  let a := list_of_bytes aad in
  let c := list_of_bytes ct in
  let s := ghash (gcm_subkey key)
             (pad16 a ++ pad16 c
              ++ Z_to_be 8 (8 * Z.of_nat (length a))
              ++ Z_to_be 8 (8 * Z.of_nat (length c)))%list in
  bytes_of_list (xor_list (Z_to_be 16 s) (aes_encrypt_block key (gcm_j0 key iv))).

(** Authenticated encryption and decryption (algorithms 4 and 5). *)
Definition gcm_encrypt (key iv aad data : bytes) : bytes * bytes :=
  let k := list_of_bytes key in
  let i := list_of_bytes iv in
  let ct := gctr k (inc32 (gcm_j0 k i)) data in
  (ct, gcm_tag k i aad ct).

Definition gcm_decrypt (key iv aad ct tag : bytes) : option bytes :=
  let k := list_of_bytes key in
  let i := list_of_bytes iv in
  if String.eqb tag (gcm_tag k i aad ct)
  then Some (gctr k (inc32 (gcm_j0 k i)) ct)
  else None.

End AES_GCM.

(* ------------------------------------------------------------------ *)
(** ** DEFLATE (RFC 1951)

    The compression DEF is the platform's; decompression is written out
    here from the standard.  A stream is read bit by bit, the least
    significant bit of each byte first. *)

Section DEFLATE.
Local Open Scope Z_scope.

Definition byte_bits (b : Z) : list bool :=
  map (fun i => Z.testbit b (Z.of_nat i)) (seq 0 8).

Definition bits_of_bytes (s : bytes) : list bool :=
  flat_map byte_bits (list_of_bytes s).

(** [n] bits as a number, the first bit the least significant. *)
Fixpoint read_bits (n : nat) (bs : list bool) : option (Z * list bool) :=
  match n with
  | O => Some (0, bs)
  | S n' =>
      match bs with
      | [] => None
      | b :: r =>
          match read_bits n' r with
          | Some (v, r') => Some (Z.b2z b + 2 * v, r')
          | None => None
          end
      end
  end.

(** The symbols of a canonical Huffman code that have a code of [len]
    bits, in order; [lens] gives the length of the code of each symbol, 0
    for a symbol that is not used (RFC 1951, 3.2.2). *)
Definition symbols_of_length (lens : list nat) (len : nat) : list nat :=
  filter (fun s => (nth s lens 0 =? len)%nat) (seq 0 (length lens)).

(** One symbol: the code is read bit by bit, most significant bit first,
    until it is one of the codes of its length. *)
Fixpoint huffman_symbol (fuel : nat) (lens : list nat) (len : nat)
    (code first : Z) (bs : list bool) : option (nat * list bool) :=
  match fuel, bs with
  | S fuel', b :: r =>
      let code := code + Z.b2z b in
      let syms := symbols_of_length lens len in
      let count := Z.of_nat (length syms) in
      if code - count <? first
      then Some (nth (Z.to_nat (code - first)) syms O, r)
      else huffman_symbol fuel' lens (S len) (2 * code) (2 * (first + count)) r
  | _, _ => None
  end.

Definition next_symbol (lens : list nat) (bs : list bool) : option (nat * list bool) :=
  huffman_symbol 15 lens 1 0 0 bs.

(** The code space a set of lengths leaves unused, negative when it is
    over-subscribed. *)
Fixpoint code_space_left (n : nat) (lens : list nat) (len : nat) (left : Z) : Z :=
  match n with
  | O => left
  | S n' =>
      code_space_left n' lens (S len)
        (2 * left - Z.of_nat (length (symbols_of_length lens len)))
  end.

(** A set of lengths is acceptable when it is complete, or has one code
    only, of one bit. *)
Definition acceptable_code (lens : list nat) : bool :=
  let left := code_space_left 15 lens 1 1 in
  (left =? 0)
  || ((0 <? left)
      && (length (filter (fun l => negb (l =? 0)%nat) lens) =? 1)%nat
      && (length (symbols_of_length lens 1) =? 1)%nat).

(** The lengths and distances of a match (RFC 1951, 3.2.5): the base and
    the number of extra bits of a length code and of a distance code. *)
Definition length_extra (sym : nat) : nat :=
  if (sym <? 265)%nat || (sym =? 285)%nat then O else ((sym - 261) / 4)%nat.

Definition length_base (sym : nat) : Z :=
  if (sym <? 265)%nat then Z.of_nat sym - 254
  else if (sym =? 285)%nat then 258
  else 3 + Z.shiftl (4 + Z.of_nat ((sym - 261) mod 4))
                    (Z.of_nat ((sym - 261) / 4)).

Definition distance_extra (sym : nat) : nat :=
  if (sym <? 4)%nat then O else (sym / 2 - 1)%nat.

Definition distance_base (sym : nat) : Z :=
  if (sym <? 4)%nat then Z.of_nat sym + 1
  else 1 + Z.shiftl (2 + Z.of_nat (sym mod 2)) (Z.of_nat (sym / 2 - 1)).

(** The output is kept with its last byte first.  A match copies [len]
    bytes from [dist] bytes back, one by one. *)
Fixpoint copy_match (len : nat) (dist : nat) (out : list Z) : list Z :=
  match len with
  | O => out
  | S len' => copy_match len' dist (nth (dist - 1) out 0 :: out)
  end.

(** The compressed data of a block (3.2.3), up to the end-of-block
    symbol. *)
Fixpoint inflate_codes (fuel : nat) (ll dl : list nat) (bs : list bool)
    (out : list Z) : option (list bool * list Z) :=
  match fuel with
  | O => None
  | S fuel' =>
      match next_symbol ll bs with
      | None => None
      | Some (sym, bs) =>
          if (sym <? 256)%nat then inflate_codes fuel' ll dl bs (Z.of_nat sym :: out)
          else if (sym =? 256)%nat then Some (bs, out)
          else if (285 <? sym)%nat then None
          else
            match read_bits (length_extra sym) bs with
            | None => None
            | Some (e, bs) =>
                match next_symbol dl bs with
                | None => None
                | Some (ds, bs) =>
                    if (29 <? ds)%nat then None
                    else
                      match read_bits (distance_extra ds) bs with
                      | None => None
                      | Some (e', bs) =>
                          let dist := Z.to_nat (distance_base ds + e') in
                          if (length out <? dist)%nat then None
                          else inflate_codes fuel' ll dl bs
                                 (copy_match (Z.to_nat (length_base sym + e)) dist out)
                      end
                end
            end
      end
  end.

(** The fixed codes (3.2.6). *)
Definition fixed_literal_lengths : list nat :=
  (repeat 8 144 ++ repeat 9 112 ++ repeat 7 24 ++ repeat 8 8)%list%nat.

Definition fixed_distance_lengths : list nat := repeat 5%nat 30.

(** The code lengths of a dynamic block (3.2.7): the order in which the
    lengths of the code-length code are sent, and the lengths of the two
    codes, with their repeat codes 16, 17 and 18. *)
Definition code_length_order : list nat :=
  [16; 17; 18; 0; 8; 7; 9; 6; 10; 5; 11; 4; 12; 3; 13; 2; 14; 1; 15]%nat.

Fixpoint read_code_length_lengths (order : list nat) (n : nat) (bs : list bool)
    (lens : list nat) : option (list nat * list bool) :=
  match n, order with
  | S n', s :: order' =>
      match read_bits 3 bs with
      | Some (v, bs) =>
          read_code_length_lengths order' n' bs
            (firstn s lens ++ Z.to_nat v :: skipn (S s) lens)%list
      | None => None
      end
  | _, _ => Some (lens, bs)
  end.

Fixpoint read_lengths (fuel : nat) (cl : list nat) (total : nat) (bs : list bool)
    (lens : list nat) : option (list nat * list bool) :=
  match fuel with
  | O => None
  | S fuel' =>
      if (total <=? length lens)%nat
      then if (length lens =? total)%nat then Some (lens, bs) else None
      else
        match next_symbol cl bs with
        | None => None
        | Some (sym, bs) =>
            if (sym <? 16)%nat then read_lengths fuel' cl total bs (lens ++ [sym])%list
            else if (sym =? 16)%nat then
              match lens, read_bits 2 bs with
              | _ :: _, Some (v, bs) =>
                  read_lengths fuel' cl total bs
                    (lens ++ repeat (last lens O) (3 + Z.to_nat v))%list
              | _, _ => None
              end
            else if (sym =? 17)%nat then
              match read_bits 3 bs with
              | Some (v, bs) =>
                  read_lengths fuel' cl total bs (lens ++ repeat O (3 + Z.to_nat v))%list
              | None => None
              end
            else
              match read_bits 7 bs with
              | Some (v, bs) =>
                  read_lengths fuel' cl total bs (lens ++ repeat O (11 + Z.to_nat v))%list
              | None => None
              end
        end
  end.

Definition dynamic_codes (bs : list bool)
  : option (list nat * list nat * list bool) :=
  match read_bits 5 bs with
  | None => None
  | Some (hlit, bs) =>
      match read_bits 5 bs with
      | None => None
      | Some (hdist, bs) =>
          match read_bits 4 bs with
          | None => None
          | Some (hclen, bs) =>
              let nlen := (Z.to_nat hlit + 257)%nat in
              let ndist := (Z.to_nat hdist + 1)%nat in
              if (286 <? nlen)%nat || (30 <? ndist)%nat then None
              else
                match read_code_length_lengths code_length_order
                        (Z.to_nat hclen + 4) bs (repeat O 19) with
                | None => None
                | Some (cl, bs) =>
                    if negb (code_space_left 15 cl 1 1 =? 0) then None
                    else
                      match read_lengths (S (nlen + ndist)) cl (nlen + ndist) bs [] with
                      | None => None
                      | Some (lens, bs) =>
                          let ll := firstn nlen lens in
                          let dl := skipn nlen lens in
                          if (nth 256 ll O =? 0)%nat then None
                          else if acceptable_code ll && acceptable_code dl
                          then Some (ll, dl, bs)
                          else None
                      end
                end
          end
      end
  end.

(** A stored block (3.2.4): the rest of the byte is skipped, then the
    length, its complement and the bytes. *)
Fixpoint read_bytes (n : nat) (bs : list bool) (out : list Z)
  : option (list bool * list Z) :=
  match n with
  | O => Some (bs, out)
  | S n' =>
      match read_bits 8 bs with
      | Some (b, bs) => read_bytes n' bs (b :: out)
      | None => None
      end
  end.

Definition stored_block (bs : list bool) (out : list Z)
  : option (list bool * list Z) :=
  let bs := skipn (length bs mod 8) bs in
  match read_bits 16 bs with
  | None => None
  | Some (len, bs) =>
      match read_bits 16 bs with
      | None => None
      | Some (nlen, bs) =>
          if nlen =? Z.lxor len 65535 then read_bytes (Z.to_nat len) bs out
          else None
      end
  end.

(** The blocks of a stream (3.2.3), up to the final one. *)
Fixpoint inflate_blocks (fuel : nat) (bs : list bool) (out : list Z)
  : option (list Z) :=
  match fuel with
  | O => None
  | S fuel' =>
      match read_bits 1 bs with
      | None => None
      | Some (final, bs) =>
          match read_bits 2 bs with
          | None => None
          | Some (btype, bs) =>
              let block :=
                if btype =? 0 then stored_block bs out
                else if btype =? 1
                then inflate_codes (S (length bs)) fixed_literal_lengths
                                   fixed_distance_lengths bs out
                else if btype =? 2
                then match dynamic_codes bs with
                     | Some (ll, dl, bs) => inflate_codes (S (length bs)) ll dl bs out
                     | None => None
                     end
                else None in
              match block with
              | None => None
              | Some (bs, out) =>
                  if final =? 1 then Some out else inflate_blocks fuel' bs out
              end
          end
      end
  end.

(** Decompression of a raw DEFLATE stream. *)
Definition inflate (data : bytes) : option bytes :=
  let bs := bits_of_bytes data in
  match inflate_blocks (S (length bs)) bs [] with
  | Some out => Some (bytes_of_list (rev out))
  | None => None
  end.

(** Compression with the fixed codes, literal by literal: one final block
    (3.2.6).  The bits of a Huffman code go most significant bit first. *)
Definition code_bits (n : nat) (code : Z) : list bool :=
  map (fun i => Z.testbit code (Z.of_nat (n - 1 - i))) (seq 0 n).

Definition literal_bits (b : Z) : list bool :=
  if b <? 144 then code_bits 8 (48 + b) else code_bits 9 (400 + (b - 144)).

Fixpoint bytes_of_bits (fuel : nat) (bs : list bool) : list Z :=
  match fuel, bs with
  | S fuel', _ :: _ =>
      fold_right (fun b acc => Z.b2z b + 2 * acc) 0 (firstn 8 bs)
      :: bytes_of_bits fuel' (skipn 8 bs)
  | _, _ => []
  end.

Definition deflate_literals (data : bytes) : bytes :=
  let bs := ([true; true; false]
             ++ flat_map literal_bits (list_of_bytes data)
             ++ repeat false 7)%list in
  bytes_of_list (bytes_of_bits (length bs) bs).

End DEFLATE.

(* ------------------------------------------------------------------ *)
(** ** JSON values and headers *)

Inductive json : Type :=
| JNull
| JBool (b : bool)
| JNum (n : Z)
| JStr (s : string)
| JArr (l : list json)
| JObj (m : list (string * json)).

(** A header is a Python [dict] with [str] keys: an ordered mapping.  It is
    an association list in insertion order; a well-formed header has no
    repeated key. *)
Definition Header := list (string * json).

(** [d.get(k)]: the value under [k], if any. *)
Fixpoint dict_get {V : Type} (k : string) (d : list (string * V)) : option V :=
  match d with
  | [] => None
  | (k', v) :: r => if String.eqb k k' then Some v else dict_get k r
  end.

(** [d[k] = v]: replaces the value in place when [k] is present, appends
    otherwise. *)
Fixpoint dict_set {V : Type} (k : string) (v : V) (d : list (string * V))
  : list (string * V) :=
  match d with
  | [] => [(k, v)]
  | (k', v') :: r =>
      if String.eqb k k' then (k, v) :: r else (k', v') :: dict_set k v r
  end.

(** [k in d]. *)
Definition dict_has {V : Type} (k : string) (d : list (string * V)) : bool :=
  match dict_get k d with Some _ => true | None => false end.

(** The quotation mark and the backslash. *)
Definition dquote : ascii := ascii_of_nat 34.
Definition backslash : ascii := ascii_of_nat 92.

(** Modelled from the spec: a hexadecimal digit of an escape, written
    (lower case) and read (either case). *)
Definition hex_digit (n : N) : ascii :=
  ascii_of_N (if n <? 10 then n + 48 else n + 87)%N.

Definition hex_value (c : ascii) : option N :=
  let n := N_of_ascii c in
  (if (48 <=? n) && (n <=? 57) then Some (n - 48)
   else if (97 <=? n) && (n <=? 102) then Some (n - 87)
   else if (65 <=? n) && (n <=? 70) then Some (n - 55)
   else None)%N.

(** Modelled from the spec: [compact_json] (design document 4.1):
    deterministic UTF-8 JSON without insignificant whitespace, keys in the
    order of the input.  Numbers are integers (floating point is outside
    the model).  Strings escape the quote, the backslash and the control
    characters; every other byte is written as it is. *)
Fixpoint json_escape (s : string) : string :=
  match s with
  | EmptyString => EmptyString
  | String c r =>
      let n := N_of_ascii c in
      let tl := json_escape r in
      (if n =? 34 then String backslash (String dquote tl)
       else if n =? 92 then String backslash (String backslash tl)
       else if n =? 10 then String backslash (String "n" tl)
       else if n =? 13 then String backslash (String "r" tl)
       else if n =? 9 then String backslash (String "t" tl)
       else if n =? 8 then String backslash (String "b" tl)
       else if n =? 12 then String backslash (String "f" tl)
       else if n <? 32 then
         String backslash
           (String "u" (String "0" (String "0"
              (String (hex_digit (n / 16)) (String (hex_digit (n mod 16)) tl)))))
       else String c tl)%N
  end.

(** Modelled from the spec: a JSON string literal. *)
Definition json_quote (s : string) : string :=
  String dquote (json_escape s ++ String dquote EmptyString).

(** Modelled from the spec: [compact_json] on any value: no whitespace,
    members and items in their order, separated by commas. *)
Fixpoint compact_json_value (j : json) : string :=
  match j with
  | JNull => "null"
  | JBool true => "true"
  | JBool false => "false"
  | JNum n => NilZero.string_of_int (Z.to_int n)
  | JStr s => json_quote s
  | JArr l =>
      "[" ++ (fix items (l : list json) : string :=
                match l with
                | [] => ""
                | x :: r =>
                    compact_json_value x ++
                    match r with [] => "" | _ :: _ => "," ++ items r end
                end) l ++ "]"
  | JObj m =>
      "{" ++ (fix members (m : list (string * json)) : string :=
                match m with
                | [] => ""
                | (k, v) :: r =>
                    json_quote k ++ ":" ++ compact_json_value v ++
                    match r with [] => "" | _ :: _ => "," ++ members r end
                end) m ++ "}"
  end.

(** Modelled from the spec: [compact_json] of a header (design document
    4.1). *)
Definition compact_json (h : Header) : bytes := compact_json_value (JObj h).

(** Modelled from the spec: the JSON reader used by the extract functions
    (the platform's [json.loads]).  It accepts whitespace between tokens,
    the escapes of RFC 8259 (a [\u] escape in the basic plane is written
    back as UTF-8; surrogates are refused) and integer numbers.  An object
    is read into a dict: a repeated key keeps its first position and its
    last value. *)
Fixpoint skip_ws (s : string) : string :=
  match s with
  | String c r =>
      let n := N_of_ascii c in
      if ((n =? 32) || (n =? 9) || (n =? 10) || (n =? 13))%N
      then skip_ws r else s
  | EmptyString => s
  end.

(** Modelled from the spec: the UTF-8 bytes of a code point of the basic
    plane; a surrogate has none. *)
Definition utf8_of_code (cp : N) : option string :=
  (if cp <? 128 then Some (String (ascii_of_N cp) EmptyString)
   else if cp <? 2048 then
     Some (String (ascii_of_N (192 + cp / 64))
             (String (ascii_of_N (128 + cp mod 64)) EmptyString))
   else if (55296 <=? cp) && (cp <=? 57343) then None
   else
     Some (String (ascii_of_N (224 + cp / 4096))
             (String (ascii_of_N (128 + (cp / 64) mod 64))
                (String (ascii_of_N (128 + cp mod 64)) EmptyString))))%N.

(** Modelled from the spec: the one-character escapes of a JSON string. *)
Definition simple_escape (e : ascii) : option ascii :=
  let n := N_of_ascii e in
  (if n =? 34 then Some dquote
   else if n =? 92 then Some backslash
   else if n =? 47 then Some "/"%char
   else if n =? 110 then Some (ascii_of_N 10)
   else if n =? 114 then Some (ascii_of_N 13)
   else if n =? 116 then Some (ascii_of_N 9)
   else if n =? 98 then Some (ascii_of_N 8)
   else if n =? 102 then Some (ascii_of_N 12)
   else None)%N.

(** Reads a string body, the opening quote already consumed. *)
Fixpoint parse_string (s : string) : option (string * string) :=
  match s with
  | EmptyString => None
  | String c r =>
      if Ascii.eqb c dquote then Some (EmptyString, r)
      else if Ascii.eqb c backslash then
        match r with
        | String e r' =>
            if Ascii.eqb e "u" then
              match r' with
              | String h1 (String h2 (String h3 (String h4 r''))) =>
                  match hex_value h1, hex_value h2, hex_value h3, hex_value h4,
                        parse_string r'' with
                  | Some a, Some b, Some c', Some d, Some (body, rest) =>
                      match utf8_of_code (a * 4096 + b * 256 + c' * 16 + d)%N with
                      | Some u => Some (u ++ body, rest)
                      | None => None
                      end
                  | _, _, _, _, _ => None
                  end
              | _ => None
              end
            else
              match simple_escape e, parse_string r' with
              | Some x, Some (body, rest) => Some (String x body, rest)
              | _, _ => None
              end
        | EmptyString => None
        end
      else if (N_of_ascii c <? 32)%N then None
      else
        match parse_string r with
        | Some (body, rest) => Some (String c body, rest)
        | None => None
        end
  end.

(** Modelled from the spec: decimal digits of a JSON number. *)
Definition digit_value (c : ascii) : option Z :=
  let n := N_of_ascii c in
  if ((48 <=? n) && (n <=? 57))%N then Some (Z.of_N n - 48)%Z else None.

Fixpoint parse_digits (acc : Z) (s : string) : Z * string :=
  match s with
  | String c r =>
      match digit_value c with
      | Some d => parse_digits (10 * acc + d)%Z r
      | None => (acc, s)
      end
  | EmptyString => (acc, s)
  end.

(** An integer literal: no leading zero, no fraction, no exponent. *)
Definition parse_nat_literal (s : string) : option (Z * string) :=
  match s with
  | String c r =>
      match digit_value c with
      | Some d =>
          let '(n, rest) := parse_digits d r in
          let leading_zero :=
            (d =? 0)%Z && match r with
                          | String c2 _ =>
                              match digit_value c2 with Some _ => true | None => false end
                          | EmptyString => false
                          end in
          let fractional :=
            match rest with
            | String x _ => Ascii.eqb x "." || Ascii.eqb x "e" || Ascii.eqb x "E"
            | EmptyString => false
            end in
          if leading_zero || fractional then None else Some (n, rest)
      | None => None
      end
  | EmptyString => None
  end.

(** Modelled from the spec: the rest of [s] after the literal [lit], if [s]
    starts with it. *)
Definition expect (lit : string) (s : string) : option string :=
  if String.prefix lit s
  then Some (String.substring (String.length lit)
                              (String.length s - String.length lit) s)
  else None.

(** Modelled from the spec: the items of an array, after the opening
    bracket, read with the value reader [value]; [n] bounds their number. *)
Fixpoint parse_items (value : string -> option (json * string)) (n : nat)
    (s : string) : option (list json * string) :=
  match n with
  | O => None
  | S n' =>
      match value s with
      | Some (v, rest) =>
          match skip_ws rest with
          | String d rest' =>
              if Ascii.eqb d "]" then Some ([v], rest')
              else if Ascii.eqb d "," then
                match parse_items value n' rest' with
                | Some (vs, rest'') => Some (v :: vs, rest'')
                | None => None
                end
              else None
          | EmptyString => None
          end
      | None => None
      end
  end.

(** Modelled from the spec: the members of an object, after the opening
    brace, added to the dict [acc] as they are read. *)
Fixpoint parse_members (value : string -> option (json * string)) (n : nat)
    (acc : list (string * json)) (s : string)
  : option (list (string * json) * string) :=
  match n with
  | O => None
  | S n' =>
      match skip_ws s with
      | String q s1 =>
          if Ascii.eqb q dquote then
            match parse_string s1 with
            | Some (k, s2) =>
                match skip_ws s2 with
                | String colon s3 =>
                    if Ascii.eqb colon ":" then
                      match value s3 with
                      | Some (v, rest) =>
                          let acc' := dict_set k v acc in
                          match skip_ws rest with
                          | String d rest' =>
                              if Ascii.eqb d "}" then Some (acc', rest')
                              else if Ascii.eqb d "," then
                                parse_members value n' acc' rest'
                              else None
                          | EmptyString => None
                          end
                      | None => None
                      end
                    else None
                | EmptyString => None
                end
            | None => None
            end
          else None
      | EmptyString => None
      end
  end.

(** Modelled from the spec: one JSON value at the head of [s] and what
    follows it.  [fuel] bounds the nesting and the number of items of an
    array or object; the length of the text plus one is enough. *)
Fixpoint parse_value (fuel : nat) (s : string) : option (json * string) :=
  match fuel with
  | O => None
  | S f =>
      match skip_ws s with
      | EmptyString => None
      | String c r =>
          if Ascii.eqb c dquote then
            match parse_string r with
            | Some (str, rest) => Some (JStr str, rest)
            | None => None
            end
          else if Ascii.eqb c "n" then option_map (pair JNull) (expect "ull" r)
          else if Ascii.eqb c "t" then option_map (pair (JBool true)) (expect "rue" r)
          else if Ascii.eqb c "f" then option_map (pair (JBool false)) (expect "alse" r)
          else if Ascii.eqb c "-" then
            match parse_nat_literal r with
            | Some (n, rest) => Some (JNum (- n), rest)
            | None => None
            end
          else if Ascii.eqb c "[" then
            match skip_ws r with
            | String c2 r2 =>
                if Ascii.eqb c2 "]" then Some (JArr [], r2)
                else
                  match parse_items (parse_value f) f r with
                  | Some (vs, rest) => Some (JArr vs, rest)
                  | None => None
                  end
            | EmptyString => None
            end
          else if Ascii.eqb c "{" then
            match skip_ws r with
            | String c2 r2 =>
                if Ascii.eqb c2 "}" then Some (JObj [], r2)
                else
                  match parse_members (parse_value f) f [] r with
                  | Some (m, rest) => Some (JObj m, rest)
                  | None => None
                  end
            | EmptyString => None
            end
          else
            match parse_nat_literal (String c r) with
            | Some (n, rest) => Some (JNum n, rest)
            | None => None
            end
      end
  end.

(** Modelled from the spec: [json.loads]: one value and nothing after it
    but whitespace. *)
Definition json_loads (s : bytes) : option json :=
  match parse_value (S (String.length s)) s with
  | Some (v, rest) =>
      match skip_ws rest with
      | EmptyString => Some v
      | String _ _ => None
      end
  | None => None
  end.


(** [json.loads] of a header segment must give an object. *)
Definition json_loads_object (s : bytes) : option Header :=
  match json_loads s with
  | Some (JObj h) => Some h
  | _ => None
  end.

(* ------------------------------------------------------------------ *)
(** ** Exceptions and results *)

Inductive value_error : Type :=
| AlgorithmNotAllowed (alg : json) (allowed : list string)
    (** [f'Algorithm "{alg}" is not allowed in {allowed_algorithms}'] *)
| OtherValueError (msg : string).

(** The exceptions of the facades and of their helpers (design document,
    section 7, and the built-in ones the code raises). *)
Inductive exn : Type :=
| ValueError (why : value_error)
| KeyError (key : json)
| TypeError (msg : string)
| AttributeError (msg : string)
| MissingHeaderError (name : string)
| InvalidHeaderValueError (name : string)
| CriticalHeaderError (name : string)
| UnknownAlgorithmError (name : json)
| AlgorithmNotAllowedError (name : string)
| DecodeError
| InvalidKeyError
| UnsupportedKeyUseError
| UnsupportedKeyAlgorithmError
| UnsupportedKeyOperationError
| BadSignatureError.

(** The result of a call that may raise, and sequencing of such calls. *)
Definition result (A : Type) : Type := (exn + A)%type.

Definition rbind {A B : Type} (r : result A) (f : A -> result B) : result B :=
  match r with
  | inl e => inl e
  | inr a => f a
  end.

(** The call returned. *)
Definition is_ok {A : Type} (r : result A) : bool :=
  match r with inr _ => true | inl _ => false end.

(* ------------------------------------------------------------------ *)
(** ** Keys (design document, section 3) *)

Inductive key_type : Type := Oct | RSA | EC | OKP.

(** A key: its kind, its declared policy, whether it holds the private
    part, and its material. *)
Record Key : Type := {
  kty : key_type;
  kid : option string;
  use : option string;
  key_alg : option string;
  key_ops : option (list string);
  is_private : bool;
  crv : option string;
  material : bytes
}.

(** [KeyFlexible]: a raw secret ([str] or [bytes]), a key, a key set, or a
    callback that receives the headers of the message and the operation. *)
Inductive KeyFlexible : Type :=
| RawKey (secret : bytes)
| KeyObject (k : Key)
| KeySet (keys : list Key)
| KeyCallable (f : Header -> option string -> result Key).

(** [AnyStr]: a [str] or [bytes]. *)
Inductive AnyStr : Type :=
| Text (s : string)
| Raw (b : bytes).

(* ------------------------------------------------------------------ *)
(** ** JWS data model *)

Record JWSAlgorithm : Type := {
  alg_name : string;
  alg_sign : bytes -> Key -> result bytes;
  alg_verify : bytes -> bytes -> Key -> result bool
}.

(** [CompactData]: header, payload and, once signed or extracted, the
    signature; an extracted object keeps the signing input as received. *)
Record CompactData : Type := {
  header : Header;
  payload : bytes;
  signature : option bytes;
  signing_input : option bytes
}.

(** The constructor call [CompactData(header, payload)]. *)
Definition new_CompactData (h : Header) (p : bytes) : CompactData :=
  {| header := h; payload := p; signature := None; signing_input := None |}.

(* ------------------------------------------------------------------ *)
(** ** JWE data model (design document, section 3) *)

(** A recipient belongs to a message: [message_headers] are the protected
    and shared headers of that message, [recipient_header] its own. *)
Record Recipient : Type := {
  message_headers : Header;
  recipient_header : Header;
  recipient_key : option Key;
  encrypted_key : option bytes
}.

(** [recipient.recipient_key = k]. *)
Definition set_recipient_key (r : Recipient) (k : Key) : Recipient :=
  {| message_headers := message_headers r;
     recipient_header := recipient_header r;
     recipient_key := Some k;
     encrypted_key := encrypted_key r |}.

(** [CompactEncryption]: the protected header, the plaintext when known,
    the single recipient, and the segments; an extracted message keeps the
    encoded protected header as received. *)
Record CompactEncryption : Type := {
  protected : Header;
  plaintext : option bytes;
  recipient : option Recipient;
  protected_segment : option bytes;
  iv : bytes;
  ciphertext : bytes;
  tag : bytes
}.

(** The constructor call [CompactEncryption(protected, plaintext)]. *)
Definition new_CompactEncryption (h : Header) (p : bytes) : CompactEncryption :=
  {| protected := h; plaintext := Some p; recipient := None;
     protected_segment := None;
     iv := EmptyString; ciphertext := EmptyString; tag := EmptyString |}.

(** The constructor call [Recipient(obj)]. *)
Definition new_Recipient (obj : CompactEncryption) : Recipient :=
  {| message_headers := protected obj; recipient_header := [];
     recipient_key := None; encrypted_key := None |}.

(** [obj.recipient = r]. *)
Definition set_recipient (obj : CompactEncryption) (r : Recipient)
  : CompactEncryption :=
  {| protected := protected obj; plaintext := plaintext obj;
     recipient := Some r; protected_segment := protected_segment obj;
     iv := iv obj; ciphertext := ciphertext obj; tag := tag obj |}.

(** [JSONEncryption]: the parts of the JSON form and the recipients. *)
Record JSONEncryption : Type := {
  json_protected : Header;
  json_unprotected : Header;
  json_aad : option bytes;
  json_plaintext : option bytes;
  recipients : list Recipient;
  json_iv : bytes;
  json_ciphertext : bytes;
  json_tag : bytes
}.

(** [obj.recipients] after its members were updated. *)
Definition set_recipients (obj : JSONEncryption) (rs : list Recipient)
  : JSONEncryption :=
  {| json_protected := json_protected obj;
     json_unprotected := json_unprotected obj;
     json_aad := json_aad obj; json_plaintext := json_plaintext obj;
     recipients := rs;
     json_iv := json_iv obj; json_ciphertext := json_ciphertext obj;
     json_tag := json_tag obj |}.

(** [JSONSerialization]: the JSON form of a JWE, a dict. *)
Definition JSONSerialization := json.

(** Algorithm descriptors (design document 4.3). *)
Record JWEEncModel : Type := {
  enc_name : string;
  cek_size : nat;
  iv_size : nat;
  tag_size : nat;
  enc_encrypt : bytes -> bytes -> bytes -> bytes -> result (bytes * bytes);
  enc_decrypt : bytes -> bytes -> bytes -> bytes -> bytes -> result bytes
}.

(** A compression descriptor. *)
Record JWEZipModel : Type := {
  zip_name : string;
  zip_compress : bytes -> bytes;
  zip_decompress : bytes -> result bytes
}.

(** What [wrap] gives back: the content-encryption key in use (the one it
    was handed, or in direct mode the one it supplies), the encrypted key
    and the header parameters to add. *)
Record Wrapped : Type := {
  wrapped_cek : bytes;
  wrapped_key : bytes;
  wrapped_header : Header
}.

(** A key-management descriptor. *)
Record JWEAlgModel : Type := {
  jwe_alg_name : string;
  direct_mode : bool;
  alg_wrap : JWEEncModel -> bytes -> Recipient -> Key -> option Key -> result Wrapped;
  alg_unwrap : JWEEncModel -> bytes -> Recipient -> Key -> option Key -> result bytes
}.

(** Any descriptor that [JWERegistry.register] takes. *)
Inductive JWEModel : Type :=
| AlgModel (m : JWEAlgModel)
| EncModel (m : JWEEncModel)
| ZipModel (m : JWEZipModel).

(** The class-level tables of [JWERegistry], filled by [register]. *)
Record Registered : Type := {
  alg_table : list (string * JWEAlgModel);
  enc_table : list (string * JWEEncModel);
  zip_table : list (string * JWEZipModel)
}.

(** The tables before the module is loaded. *)
Definition nothing_registered : Registered :=
  {| alg_table := []; enc_table := []; zip_table := [] |}.

(** The type of a header parameter, as a parameter schema declares it
    (design document 4.4): a string, an integer, a JWK object, an array of
    strings, a URI, a base64url string. *)
Inductive param_type : Type := PStr | PInt | PObject | PStrList | PUri | PB64.

(** A [JWERegistry] instance (design document 4.3): the enabled algorithm
    names ([None]: the recommended ones), the strict flag and the extra
    header parameters. *)
Record JWERegistry : Type := {
  enabled : option (list string);
  strict_check_header : bool;
  header_registry : list (string * param_type)
}.

(* ------------------------------------------------------------------ *)
(** ** The call-recording monad *)

Inductive guest : Type :=
| GuestCompactData (obj : CompactData)
| GuestRecipient (r : Recipient)
| GuestNone.

(** What the facade asks of its helpers, in the order it asks. *)
Inductive event : Type :=
| Call_check_header (required : list string)
| Call_guess_key (obj : guest) (operation : option string)
| Call_check_use (use : string)
| Lookup_algorithm (alg : json)
| Call_sign (alg : string)
| Call_verify (alg : string)
| Call_extract_compact
| Call_extract_json
| Call_perform_encrypt
| Call_perform_decrypt
| Call_represent_compact
| Call_represent_json.

(** A run: the helper calls recorded, in order, and the result. *)
Definition M (A : Type) : Type := (list event * result A)%type.

(** Returning, raising, calling a helper, and sequencing. *)
Definition ret {A : Type} (a : A) : M A := ([], inr a).
Definition raise {A : Type} (e : exn) : M A := ([], inl e).
Definition call {A : Type} (ev : event) (r : result A) : M A := ([ev], r).

Definition bind {A B : Type} (m : M A) (f : A -> M B) : M B :=
  match m with
  | (t, inl e) => (t, inl e)
  | (t, inr a) => let '(t', r) := f a in ((t ++ t')%list, r)
  end.

(** The calls and the result of a run. *)
Definition calls {A : Type} (m : M A) : list event := fst m.
Definition outcome {A : Type} (m : M A) : result A := snd m.

Declare Scope jose_scope.
Delimit Scope jose_scope with jose.
Notation "x <- m ;; k" := (bind m (fun x => k))
  (at level 61, m at next level, right associativity) : jose_scope.
Notation "m ;;; k" := (bind m (fun _ => k))
  (at level 61, right associativity) : jose_scope.
Local Open Scope jose_scope.

(** [d[k]]: a missing key raises [KeyError]. *)
Definition getitem (d : Header) (k : string) : M json :=
  match dict_get k d with
  | Some v => ret v
  | None => raise (KeyError (JStr k))
  end.

(** [x in l] for a list of [str]: only a [str] can be equal to a member. *)
Definition py_in (x : json) (l : list string) : bool :=
  match x with
  | JStr s => existsb (String.eqb s) l
  | _ => false
  end.

(* ------------------------------------------------------------------ *)
(** ** joserfc/jws.py *)

Module JWS.

(** The names [jws.py] imports from the helper modules.  The helpers read
    the object they are given and leave it as it is (design document,
    section 3: a message is changed by the pipelines only, and neither
    resolving a key nor verifying changes one). *)
Class Imports : Type := {
  check_header : Header -> list string -> result unit;
  guess_key : KeyFlexible -> CompactData -> string -> result Key;
  check_use : Key -> string -> result unit;
  JWS_ALGORITHMS : list JWSAlgorithm;
  ES256K : JWSAlgorithm;
  CompactData_sign : CompactData -> JWSAlgorithm -> Key -> result bytes;
  CompactData_verify : CompactData -> JWSAlgorithm -> Key -> result bool;
  extract_compact : bytes -> result CompactData;
  to_bytes : AnyStr -> bytes
}.

(** jws.py, lines 37-41. *)
Definition RECOMMENDED_ALGORITHMS : list string := ["HS256"; "RS256"; "ES256"].

Section Facade.
Context {I : Imports}.

(** jws.py, lines 31-32: a dict from algorithm name to algorithm, built
    from [JWS_ALGORITHMS], then [ES256K] added under its name. *)
Definition JWS_REGISTRY : list (string * JWSAlgorithm) :=
  dict_set (alg_name ES256K) ES256K
    (fold_left (fun d alg => dict_set (alg_name alg) alg d) JWS_ALGORITHMS []).

(** [JWS_REGISTRY[alg]]. *)
Definition registry_getitem (alg : json) : M JWSAlgorithm :=
  match alg with
  | JStr s =>
      match dict_get s JWS_REGISTRY with
      | Some a => call (Lookup_algorithm alg) (inr a)
      | None => call (Lookup_algorithm alg) (inl (KeyError alg))
      end
  | JArr _ | JObj _ => call (Lookup_algorithm alg) (inl (TypeError "unhashable type"))
  | _ => call (Lookup_algorithm alg) (inl (KeyError alg))
  end.

(** jws.py, lines 70-71 and 99-100: without a list from the caller, the
    recommended algorithms. *)
Definition default_allowed (allowed_algorithms : option (list string)) : list string :=
  match allowed_algorithms with
  | None => RECOMMENDED_ALGORITHMS
  | Some l => l
  end.

(** jws.py, lines 44-83. *)
Definition serialize_compact (header : Header) (payload : bytes)
    (key : KeyFlexible) (allowed_algorithms : option (list string)) : M bytes :=
  call (Call_check_header ["alg"]) (check_header header ["alg"]) ;;;
  let allowed_algorithms := default_allowed allowed_algorithms in
  alg <- getitem header "alg" ;;
  if negb (py_in alg allowed_algorithms)
  then raise (ValueError (AlgorithmNotAllowed alg allowed_algorithms))
  else
    let obj := new_CompactData header payload in
    key <- call (Call_guess_key (GuestCompactData obj) (Some "sign")) (guess_key key obj "sign") ;;
    call (Call_check_use "sig") (check_use key "sig") ;;;
    algorithm <- registry_getitem alg ;;
    call (Call_sign (alg_name algorithm)) (CompactData_sign obj algorithm key).

(** jws.py, lines 86-112. *)
Definition validate_compact (obj : CompactData) (key : KeyFlexible)
    (allowed_algorithms : option (list string)) : M unit :=
  let allowed_algorithms := default_allowed allowed_algorithms in
  alg <- getitem (header obj) "alg" ;;
  if negb (py_in alg allowed_algorithms)
  then raise (ValueError (AlgorithmNotAllowed alg allowed_algorithms))
  else
    key <- call (Call_guess_key (GuestCompactData obj) (Some "verify")) (guess_key key obj "verify") ;;
    call (Call_check_use "sig") (check_use key "sig") ;;;
    algorithm <- registry_getitem alg ;;
    ok <- call (Call_verify (alg_name algorithm)) (CompactData_verify obj algorithm key) ;;
    if negb ok then raise BadSignatureError else ret tt.

(** jws.py, lines 115-129. *)
Definition deserialize_compact (value : AnyStr) (key : KeyFlexible)
    (allowed_algorithms : option (list string)) : M CompactData :=
  obj <- call Call_extract_compact (extract_compact (to_bytes value)) ;;
  validate_compact obj key allowed_algorithms ;;;
  ret obj.

End Facade.
End JWS.

(* ------------------------------------------------------------------ *)
(** ** joserfc/jwe.py *)

Module JWE.

(** [perform_encrypt] and [perform_decrypt] take a compact or a JSON
    message.  [perform_encrypt] works in place: it gives back the message
    as it leaves it, whether or not it raises.  Both read the class-level
    tables of [JWERegistry], passed here as their first argument. *)
Class Pipeline (T : Type) : Type := {
  perform_encrypt : Registered -> T -> JWERegistry -> option Key -> T * result unit;
  perform_decrypt : Registered -> T -> JWERegistry -> option Key -> result T
}.

(** The names [jwe.py] imports from the helper modules.  [guess_key] is
    handed a recipient; [decrypt_compact] hands it [obj.recipient], which
    is [None] on a message without one: [guess_key_None] is [guess_key]
    on that argument. *)
Class Imports : Type := {
  guess_key : KeyFlexible -> Recipient -> result Key;
  guess_key_None : KeyFlexible -> result Key;
  default_registry : JWERegistry;
  JWERegistry_register : Registered -> JWEModel -> Registered;
  JWE_ALG_MODELS : list JWEAlgModel;
  JWE_ENC_MODELS : list JWEEncModel;
  JWE_ZIP_MODELS : list JWEZipModel;
  compact_pipeline :: Pipeline CompactEncryption;
  json_pipeline :: Pipeline JSONEncryption;
  represent_compact : CompactEncryption -> result bytes;
  extract_compact : bytes -> result CompactEncryption;
  represent_json : JSONEncryption -> result JSONSerialization;
  extract_json : JSONSerialization -> result JSONEncryption;
  to_bytes : AnyStr -> bytes
}.

Section Facade.
Context {I : Imports}.

(** jwe.py, lines 42-53: [__register()], run when the module is loaded,
    registers every algorithm, then every encryption, then every zip
    model. *)
Definition __register (tables : Registered) : Registered :=
  let tables := fold_left (fun t _alg => JWERegistry_register t (AlgModel _alg))
                          JWE_ALG_MODELS tables in
  let tables := fold_left (fun t _enc => JWERegistry_register t (EncModel _enc))
                          JWE_ENC_MODELS tables in
  fold_left (fun t _zip => JWERegistry_register t (ZipModel _zip))
            JWE_ZIP_MODELS tables.

(** The tables once the module is loaded. *)
Definition registered : Registered := __register nothing_registered.

(** [if registry is None: registry = default_registry]. *)
Definition or_default (registry : option JWERegistry) : JWERegistry :=
  match registry with
  | None => default_registry
  | Some r => r
  end.

(** The outcome of an in-place call, with the message as it left it. *)
Definition in_place {T : Type} (r : T * result unit) : result T :=
  match snd r with
  | inl e => inl e
  | inr _ => inr (fst r)
  end.

(** jwe.py, lines 56-72. *)
Definition encrypt_compact (protected : Header) (plaintext : bytes)
    (public_key : KeyFlexible) (registry : option JWERegistry)
    (sender_key : option Key) : M bytes :=
  let registry := or_default registry in
  let obj := new_CompactEncryption protected plaintext in
  let recipient := new_Recipient obj in
  key <- call (Call_guess_key (GuestRecipient recipient) None)
              (guess_key public_key recipient) ;;
  let recipient := set_recipient_key recipient key in
  let obj := set_recipient obj recipient in
  obj <- call Call_perform_encrypt
              (in_place (perform_encrypt registered obj registry sender_key)) ;;
  call Call_represent_compact (represent_compact obj).

(** jwe.py, lines 75-88.  On a message without a recipient,
    [obj.recipient] is [None]: line 86 hands it to [guess_key], and when
    that returns, the assignment of line 87 raises ([None] has no
    attribute [recipient_key]). *)
Definition decrypt_compact (value : AnyStr) (private_key : KeyFlexible)
    (registry : option JWERegistry) (sender_key : option Key)
  : M CompactEncryption :=
  let value := to_bytes value in
  obj <- call Call_extract_compact (extract_compact value) ;;
  let registry := or_default registry in
  match recipient obj with
  | None =>
      call (Call_guess_key GuestNone None) (guess_key_None private_key) ;;;
      raise (AttributeError "recipient_key")
  | Some r =>
      recipient_key <- call (Call_guess_key (GuestRecipient r) None)
                            (guess_key private_key r) ;;
      let obj := set_recipient obj (set_recipient_key r recipient_key) in
      call Call_perform_decrypt (perform_decrypt registered obj registry sender_key)
  end.

(** jwe.py, lines 99-101: the loop of [encrypt_json] over
    [obj.recipients].  The recipients are objects of the caller: the list
    returned is their state when the loop ends or stops at an exception. *)
Fixpoint encrypt_json_keys (public_key : KeyFlexible) (rs : list Recipient)
  : list Recipient * M unit :=
  match rs with
  | [] => ([], ret tt)
  | recipient :: rest =>
      match recipient_key recipient with
      | Some _ =>
          let '(rest', m) := encrypt_json_keys public_key rest in
          (recipient :: rest', m)
      | None =>
          match guess_key public_key recipient with
          | inl e =>
              (recipient :: rest,
               call (Call_guess_key (GuestRecipient recipient) None) (inl e))
          | inr k =>
              let '(rest', m) := encrypt_json_keys public_key rest in
              (set_recipient_key recipient k :: rest',
               call (Call_guess_key (GuestRecipient recipient) None) (inr k) ;;; m)
          end
      end
  end.

(** jwe.py, lines 116-117: the loop of [decrypt_json]. *)
Fixpoint decrypt_json_keys (private_key : KeyFlexible) (rs : list Recipient)
  : list Recipient * M unit :=
  match rs with
  | [] => ([], ret tt)
  | recipient :: rest =>
      match guess_key private_key recipient with
      | inl e =>
          (recipient :: rest,
           call (Call_guess_key (GuestRecipient recipient) None) (inl e))
      | inr k =>
          let '(rest', m) := decrypt_json_keys private_key rest in
          (set_recipient_key recipient k :: rest',
           call (Call_guess_key (GuestRecipient recipient) None) (inr k) ;;; m)
      end
  end.

(** jwe.py, lines 91-104.  The first component is the caller's [obj] after
    the call. *)
Definition encrypt_json (obj : JSONEncryption) (public_key : KeyFlexible)
    (registry : option JWERegistry) (sender_key : option Key)
  : JSONEncryption * M JSONSerialization :=
  let registry := or_default registry in
  let '(rs, keys) := encrypt_json_keys public_key (recipients obj) in
  let obj := set_recipients obj rs in
  match outcome keys with
  | inl e => (obj, (calls keys, inl e))
  | inr _ =>
      let done := perform_encrypt registered obj registry sender_key in
      (fst done,
       keys ;;;
       obj <- call Call_perform_encrypt (in_place done) ;;
       call Call_represent_json (represent_json obj))
  end.

(** jwe.py, lines 107-119. *)
Definition decrypt_json (data : JSONSerialization) (private_key : KeyFlexible)
    (registry : option JWERegistry) (sender_key : option Key)
  : M JSONEncryption :=
  obj <- call Call_extract_json (extract_json data) ;;
  let registry := or_default registry in
  let '(rs, keys) := decrypt_json_keys private_key (recipients obj) in
  keys ;;;
  call Call_perform_decrypt
       (perform_decrypt registered (set_recipients obj rs) registry sender_key).

End Facade.
End JWE.

(* ------------------------------------------------------------------ *)
(** ** Key policy and key resolution (jwk) *)

Module JwkModel.

(** Modelled from the spec: the key policy checks of [jwk] (design document
    4.2: [check_use], [check_alg], [check_ops], "each raising a specific
    error variant on mismatch"; section 3: a declared [use], [alg] or
    [key_ops] must match, and a public-only key rejects sign, unwrap and
    decrypt).  A key that declares nothing passes. *)
Definition check_use (k : Key) (designed : string) : result unit :=
  match use k with
  | Some u => if String.eqb u designed then inr tt else inl UnsupportedKeyUseError
  | None => inr tt
  end.

(** Modelled from the spec: [check_alg] (design document 4.2): a declared
    [alg] must be the algorithm in use. *)
Definition check_alg (k : Key) (alg : string) : result unit :=
  match key_alg k with
  | Some a => if String.eqb a alg then inr tt else inl UnsupportedKeyAlgorithmError
  | None => inr tt
  end.

(** Modelled from the spec: the operations a public-only key rejects
    (design document, section 3). *)
Definition private_operation (operation : string) : bool :=
  existsb (String.eqb operation) ["sign"; "decrypt"; "unwrapKey"].

(** Modelled from the spec: [check_ops] (design document 4.2): declared
    [key_ops] must include the operation, and a private operation needs
    the private part. *)
Definition check_key_op (k : Key) (operation : string) : result unit :=
  match key_ops k with
  | Some ops =>
      if existsb (String.eqb operation) ops
      then if private_operation operation && negb (is_private k)
           then inl UnsupportedKeyOperationError else inr tt
      else inl UnsupportedKeyOperationError
  | None =>
      if private_operation operation && negb (is_private k)
      then inl UnsupportedKeyOperationError else inr tt
  end.

(** Modelled from the spec: a [str] or [bytes] key is imported as an Oct
    key with those octets and no declared policy (design document 4.2:
    [import_key] accepts raw symmetric bytes). *)
Definition import_oct_key (secret : bytes) : Key :=
  {| kty := Oct; kid := None; use := None; key_alg := None; key_ops := None;
     is_private := true; crv := None; material := secret |}.

(** Modelled from the spec: which algorithm names a key kind accepts
    (design document 4.2, key-kind rules). *)
Definition kind_accepts (k : Key) (alg : string) : bool :=
  match kty k with
  | Oct =>
      String.prefix "HS" alg || String.eqb alg "dir" || String.prefix "A" alg
      || String.prefix "PBES2-" alg
  | RSA => String.prefix "RS" alg || String.prefix "PS" alg
  | EC =>
      match crv k with
      | Some c =>
          (String.eqb alg "ES256" && String.eqb c "P-256")
          || (String.eqb alg "ES384" && String.eqb c "P-384")
          || (String.eqb alg "ES512" && String.eqb c "P-521")
          || (String.eqb alg "ES256K" && String.eqb c "secp256k1")
          || String.prefix "ECDH-ES" alg
      | None => false
      end
  | OKP =>
      match crv k with
      | Some c =>
          (String.eqb alg "EdDSA" && (String.eqb c "Ed25519" || String.eqb c "Ed448"))
          || (String.prefix "ECDH-ES" alg && (String.eqb c "X25519" || String.eqb c "X448"))
      | None => false
      end
  end.

(** Modelled from the spec: the key has the [kid] the header asks for. *)
Definition has_kid (wanted : json) (k : Key) : bool :=
  match kid k, wanted with
  | Some a, JStr b => String.eqb a b
  | _, _ => false
  end.

(** Modelled from the spec: the key is compatible with the algorithm of
    the header and with the operation. *)
Definition compatible (hs : Header) (operation : option string) (k : Key) : bool :=
  match dict_get "alg" hs with
  | Some (JStr a) => kind_accepts k a && is_ok (check_alg k a)
  | _ => true
  end
  && match operation with
     | Some op => is_ok (check_key_op k op)
     | None => true
     end.

(** Modelled from the spec: one candidate exactly; none, or several, is an
    error. *)
Definition the_only {A : Type} (l : list A) : result A :=
  match l with
  | [x] => inr x
  | [] => inl (ValueError (OtherValueError "no key for this message"))
  | _ :: _ :: _ => inl (ValueError (OtherValueError "ambiguous key"))
  end.

(** Modelled from the spec: [jwk.guess_key] is missing from the sources.
    Design document 4.2: it resolves a key, a key set or a callback into
    one key; a set is matched on the [kid] of the header, else on
    compatibility with the algorithm, and ambiguity is an error. *)
Definition resolve_key (key : KeyFlexible) (hs : Header)
    (operation : option string) : result Key :=
  match key with
  | RawKey secret => inr (import_oct_key secret)
  | KeyObject k => inr k
  | KeySet keys =>
      match dict_get "kid" hs with
      | Some wanted => the_only (filter (has_kid wanted) keys)
      | None => the_only (filter (compatible hs operation) keys)
      end
  | KeyCallable f => f hs operation
  end.

(** Modelled from the spec: [guess_key] on the headers of the message
    (design document 4.2): it resolves the candidate into one key and does
    nothing else; the policy checks are those of the facade ([check_use])
    and of the signing (design document 4.5, step 3). *)
Definition guess_key_with (key : KeyFlexible) (hs : Header)
    (operation : option string) : result Key :=
  resolve_key key hs operation.

End JwkModel.

(* ------------------------------------------------------------------ *)
(** ** The header registry and validator (design document 4.4) *)

Module HeaderModel.

(** Modelled from the spec: the standard parameters of a JWS header and
    their types (design document 4.4). *)
Definition JWS_PARAMETERS : list (string * param_type) :=
  [ ("alg", PStr); ("jku", PUri); ("jwk", PObject); ("kid", PStr);
    ("x5u", PUri); ("x5c", PStrList); ("x5t", PB64); ("x5t#S256", PB64);
    ("typ", PStr); ("cty", PStr); ("crit", PStrList) ].

(** Modelled from the spec: the parameters a JWE header adds (design
    document 4.4). *)
Definition JWE_PARAMETERS : list (string * param_type) :=
  [ ("enc", PStr); ("zip", PStr); ("epk", PObject); ("apu", PB64);
    ("apv", PB64); ("iv", PB64); ("tag", PB64); ("p2s", PStr); ("p2c", PInt) ].

(** A letter, and a character of a URI scheme (RFC 3986, section 3.1). *)
Definition is_alpha (c : ascii) : bool :=
  let n := nat_of_ascii c in
  ((65 <=? n) && (n <=? 90) || (97 <=? n) && (n <=? 122))%nat.

Definition is_scheme_char (c : ascii) : bool :=
  let n := nat_of_ascii c in
  is_alpha c || ((48 <=? n) && (n <=? 57))%nat
  || Ascii.eqb c "+" || Ascii.eqb c "-" || Ascii.eqb c ".".

(** Modelled from the spec: a URI is a scheme, a colon and the rest. *)
Fixpoint scheme_then_colon (s : string) : bool :=
  match s with
  | EmptyString => false
  | String c r => Ascii.eqb c ":" || is_scheme_char c && scheme_then_colon r
  end.

Definition is_uri (s : string) : bool :=
  match s with
  | EmptyString => false
  | String c r => is_alpha c && scheme_then_colon r
  end.

(** Modelled from the spec: a value has the declared type of its
    parameter. *)
Definition is_str (v : json) : bool :=
  match v with JStr _ => true | _ => false end.

Definition has_type (t : param_type) (v : json) : bool :=
  match t, v with
  | PStr, JStr _ => true
  | PInt, JNum _ => true
  | PObject, JObj _ => true
  | PStrList, JArr l => forallb is_str l
  | PUri, JStr s => is_uri s
  | PB64, JStr s => is_b64 s
  | _, _ => false
  end.

(** Modelled from the spec: rule 1 of the header validation (design
    document 4.4): a parameter must be known, unless the registry is not
    strict; a known parameter must have its declared type. *)
Fixpoint check_parameters (known : list (string * param_type)) (strict : bool)
    (h : Header) : result unit :=
  match h with
  | [] => inr tt
  | (name, v) :: rest =>
      match dict_get name known with
      | Some t =>
          if has_type t v then check_parameters known strict rest
          else inl (InvalidHeaderValueError name)
      | None =>
          if strict then inl (InvalidHeaderValueError name)
          else check_parameters known strict rest
      end
  end.

(** Modelled from the spec: rule 2 of the header validation: the required
    parameters are present. *)
Fixpoint check_required (required : list string) (h : Header) : result unit :=
  match required with
  | [] => inr tt
  | name :: rest =>
      if dict_has name h then check_required rest h
      else inl (MissingHeaderError name)
  end.

(** Modelled from the spec: rule 3 of the header validation, as scenario 5
    of the design document (section 8) and tests/jws/test_errors.py,
    [test_crit_header], have it: [crit] with "kid" is refused without a
    [kid] and accepted with one.  A listed name has to be present; the
    clauses (b) and (c) of rule 3 would refuse the accepted header and are
    not modelled. *)
Fixpoint check_crit_names (h : Header) (names : list json) : result unit :=
  match names with
  | [] => inr tt
  | JStr name :: rest =>
      if dict_has name h then check_crit_names h rest
      else inl (CriticalHeaderError name)
  | _ :: _ => inl (InvalidHeaderValueError "crit")
  end.

Definition check_crit (h : Header) : result unit :=
  match dict_get "crit" h with
  | Some (JArr names) => check_crit_names h names
  | Some _ => inl (InvalidHeaderValueError "crit")
  | None => inr tt
  end.

(** Modelled from the spec: the header validation, rules 1 to 3 in that
    order. *)
Definition validate (known : list (string * param_type)) (strict : bool)
    (required : list string) (h : Header) : result unit :=
  rbind (check_parameters known strict h) (fun _ =>
  rbind (check_required required h) (fun _ =>
  check_crit h)).

End HeaderModel.

(* ------------------------------------------------------------------ *)
(** ** The helpers behind the JWS facade *)

Module JWSModel.

(** Modelled from the spec: [util.to_bytes] is missing from the sources.
    A [str] is encoded as UTF-8 (the identity on its representation here),
    [bytes] are returned as they are. *)
Definition to_bytes (value : AnyStr) : bytes :=
  match value with
  | Text s => s
  | Raw b => b
  end.

(** Modelled from the spec: [rfc7515.types.check_header] is missing from
    the sources.  The facade passes the header and the list of required
    names, no registry: the header is validated against the standard JWS
    parameters, strictly (design document 4.4, rules 1 to 3;
    tests/jws/test_errors.py: a [kid] that is not a string, an
    unregistered [extra] and a [crit] naming an absent parameter are
    refused). *)
Definition check_header (header : Header) (required : list string) : result unit :=
  HeaderModel.validate HeaderModel.JWS_PARAMETERS true required header.

(** Modelled from the spec: [jwk.guess_key] as the JWS facade calls it,
    with the object and the operation. *)
Definition guess_key (key : KeyFlexible) (obj : CompactData) (operation : string)
  : result Key :=
  JwkModel.guess_key_with key (header obj) (Some operation).

(** The separator of the compact form. *)
Definition dot : string := ".".

(** Modelled from the spec: [CompactData.sign] is missing from the sources.
    Design document 4.5, steps 4-6: the signing input is
    b64url(compact_json(header)), a dot, b64url(payload); the signature is
    the algorithm's over the signing input; the result is the signing
    input, a dot, b64url(signature). *)
Definition make_signing_input (h : Header) (p : bytes) : bytes :=
  urlsafe_b64encode (compact_json h) ++ dot ++ urlsafe_b64encode p.

(** Modelled from the spec: [CompactData.sign] (see above), and design
    document 4.5, step 3: the key's [use], [alg] and [key_ops] are checked
    against the algorithm, in that order; the [use] is checked by the
    facade before the call, the [alg] and the [key_ops] here, before the
    algorithm signs. *)
Definition CompactData_sign (obj : CompactData) (algorithm : JWSAlgorithm)
    (key : Key) : result bytes :=
  rbind (JwkModel.check_alg key (alg_name algorithm)) (fun _ =>
  rbind (JwkModel.check_key_op key "sign") (fun _ =>
  let input := make_signing_input (header obj) (payload obj) in
  rbind (alg_sign algorithm input key) (fun sig =>
  inr (input ++ dot ++ urlsafe_b64encode sig)))).

(** Modelled from the spec: [rfc7515.compact.extract_compact] is missing
    from the sources.  Design document 4.5: split on the dot into exactly
    three parts; decode the header JSON (an object), the payload and the
    signature; keep the encoded header and payload as received for the
    verification.  Every failure is a decode error (section 7). *)
Definition extract_compact (value : bytes) : result CompactData :=
  match split_on "." value with
  | [header_segment; payload_segment; signature_segment] =>
      match urlsafe_b64decode header_segment with
      | Some header_json =>
          match json_loads_object header_json,
                urlsafe_b64decode payload_segment,
                urlsafe_b64decode signature_segment with
          | Some h, Some p, Some sig =>
              inr {| header := h; payload := p; signature := Some sig;
                     signing_input := Some (header_segment ++ dot ++ payload_segment) |}
          | _, _, _ => inl DecodeError
          end
      | None => inl DecodeError
      end
  | _ => inl DecodeError
  end.

(** Modelled from the spec: [CompactData.verify] is missing from the
    sources.  Design document 4.5: the signing input is that of the
    original encoded header and payload, and the algorithm's [verify]
    decides.  An object built by the constructor (never signed nor
    extracted) has nothing to verify. *)
Definition CompactData_verify (obj : CompactData) (algorithm : JWSAlgorithm)
    (key : Key) : result bool :=
  match signing_input obj, signature obj with
  | Some input, Some sig => alg_verify algorithm input sig key
  | _, _ => inr false
  end.

(** Modelled from the spec: the HS256 entry of [rfc7518.jws_algs] is
    missing from the sources.  HMAC with SHA-256 over the signing input,
    keyed by the octets of an Oct key (design document 4.2 and 4.3:
    deterministic; verification recomputes and compares); another key kind
    is an invalid key. *)
Definition HS256 : JWSAlgorithm :=
  {| alg_name := "HS256";
     alg_sign := fun msg k =>
       match kty k with
       | Oct => inr (hmac_sha256 (material k) msg)
       | _ => inl InvalidKeyError
       end;
     alg_verify := fun msg sig k =>
       match kty k with
       | Oct => inr (String.eqb sig (hmac_sha256 (material k) msg))
       | _ => inl InvalidKeyError
       end |}.

(** Modelled from the spec: the [none] entry of [rfc7518.jws_algs] is
    missing from the sources.  It signs with the empty signature, and
    tests/jws/test_errors.py, [test_none_alg], fixes what verification
    does: the token that [serialize_compact] produced for [none] is
    refused with a bad-signature error even when [none] is allowed, so
    [verify] accepts nothing. *)
Definition none : JWSAlgorithm :=
  {| alg_name := "none";
     alg_sign := fun _ _ => inr EmptyString;
     alg_verify := fun _ _ _ => inr false |}.

(** An algorithm of the registry whose cryptography is the platform's and
    is not modelled: it is registered under its name and refuses to run. *)
Definition unmodelled (name : string) : JWSAlgorithm :=
  {| alg_name := name;
     alg_sign := fun _ _ => inl (ValueError (OtherValueError "unmodelled primitive"));
     alg_verify := fun _ _ _ => inl (ValueError (OtherValueError "unmodelled primitive")) |}.

(** The helpers as one implementation of the facade's imports, for any
    table of algorithms. *)
Definition imports (algorithms : list JWSAlgorithm) (es256k : JWSAlgorithm)
  : JWS.Imports :=
  {| JWS.check_header := check_header;
     JWS.guess_key := guess_key;
     JWS.check_use := JwkModel.check_use;
     JWS.JWS_ALGORITHMS := algorithms;
     JWS.ES256K := es256k;
     JWS.CompactData_sign := CompactData_sign;
     JWS.CompactData_verify := CompactData_verify;
     JWS.extract_compact := extract_compact;
     JWS.to_bytes := to_bytes |}.

(** The registry used by the literal scenarios: the two algorithms
    modelled here, the others by name only. *)
Definition scenario : JWS.Imports :=
  imports [none; HS256; unmodelled "RS256"; unmodelled "ES256"] (unmodelled "ES256K").

End JWSModel.


(* ------------------------------------------------------------------ *)
(** ** The helpers behind the JWE facade (compact form) *)

Module JWEModel.

(** Modelled from the spec: [JWERegistry.register] is missing from the
    sources.  Design document 4.3: a descriptor has a name and a category
    and is registered under its name in the table of its category. *)
Definition register (tables : Registered) (model : JWEModel) : Registered :=
  match model with
  | AlgModel m =>
      {| alg_table := dict_set (jwe_alg_name m) m (alg_table tables);
         enc_table := enc_table tables; zip_table := zip_table tables |}
  | EncModel m =>
      {| alg_table := alg_table tables;
         enc_table := dict_set (enc_name m) m (enc_table tables);
         zip_table := zip_table tables |}
  | ZipModel m =>
      {| alg_table := alg_table tables; enc_table := enc_table tables;
         zip_table := dict_set (zip_name m) m (zip_table tables) |}
  end.

(** Modelled from the spec: the header validation of a JWE (design
    document 4.4): the standard JWS and JWE parameters and those of the
    registry, its strict flag, [alg] and [enc] required. *)
Definition validate_header (registry : JWERegistry) (h : Header) : result unit :=
  HeaderModel.validate
    (HeaderModel.JWS_PARAMETERS ++ HeaderModel.JWE_PARAMETERS
     ++ header_registry registry)%list
    (strict_check_header registry) ["alg"; "enc"] h.

(** [recipient.headers()]: the headers of the message, then the
    recipient's own. *)
Definition headers (r : Recipient) : Header :=
  fold_left (fun h kv => dict_set (fst kv) (snd kv) h)
            (recipient_header r) (message_headers r).

(** Modelled from the spec: [jwk.guess_key] as the JWE facade calls it,
    with a recipient and no operation.  It reads the headers of the
    recipient first: handed [None], it raises there (see [imports]). *)
Definition guess_key (key : KeyFlexible) (r : Recipient) : result Key :=
  JwkModel.guess_key_with key (headers r) None.

Section Model.

(** The recommended names of the default registry (a table of the missing
    [rfc7516.registry]) and the platform's random source: [urandom i n] is
    the [i]-th draw, of [n] bytes, within one call. *)
Variable recommended : list string.
Variable urandom : nat -> nat -> bytes.

(** Modelled from the spec: a name is enabled in the registry: in its list
    or, without one, among the recommended names. *)
Definition allowed (registry : JWERegistry) (name : string) : bool :=
  match enabled registry with
  | Some names => existsb (String.eqb name) names
  | None => existsb (String.eqb name) recommended
  end.

(** Modelled from the spec: resolving a name of the header in a table of
    the registry (design document 4.6, step 1, and section 7: unknown, or
    not in the allow-list). *)
Definition resolve {A : Type} (table : list (string * A)) (registry : JWERegistry)
    (h : Header) (param : string) : result A :=
  match dict_get param h with
  | Some (JStr name) =>
      match dict_get name table with
      | Some m =>
          if allowed registry name then inr m
          else inl (AlgorithmNotAllowedError name)
      | None => inl (UnknownAlgorithmError (JStr name))
      end
  | Some v => inl (UnknownAlgorithmError v)
  | None => inl (MissingHeaderError param)
  end.

(** Modelled from the spec: the zip model, when the header has [zip]. *)
Definition resolve_zip (tables : Registered) (registry : JWERegistry) (h : Header)
  : result (option JWEZipModel) :=
  if dict_has "zip" h
  then rbind (resolve (zip_table tables) registry h "zip") (fun z => inr (Some z))
  else inr None.

(** Modelled from the spec: the recipient of a compact message with its
    key, both of which the pipeline needs. *)
Definition the_recipient (obj : CompactEncryption) : result (Recipient * Key) :=
  match recipient obj with
  | Some r =>
      match recipient_key r with
      | Some k => inr (r, k)
      | None => inl InvalidKeyError
      end
  | None => inl (TypeError "no recipient")
  end.

(** Modelled from the spec: the header with the additions of the
    algorithm recorded. *)
Definition add_headers (h : Header) (updates : Header) : Header :=
  fold_left (fun h kv => dict_set (fst kv) (snd kv) h) updates h.

(** Modelled from the spec: steps 3 of Encrypt and 6 of Decrypt. *)
Definition compress_with (zip : option JWEZipModel) (data : bytes) : bytes :=
  match zip with
  | Some z => zip_compress z data
  | None => data
  end.

Definition decompress_with (zip : option JWEZipModel) (data : bytes) : result bytes :=
  match zip with
  | Some z => zip_decompress z data
  | None => inr data
  end.

(** Modelled from the spec: [rfc7516.message.perform_encrypt] is missing
    from the sources.  Design document 4.6, Encrypt, for the compact form:
    (1) resolve [alg] and [enc] (and [zip]) and validate the header;
    (2) the algorithm wraps a fresh random key of [cek_size] bytes, or in
    direct mode supplies the key, and its header additions are recorded;
    (3) the plaintext is compressed when [zip] is present; (4) a random IV
    of [iv_size] bytes; (5) the AAD is b64url(compact_json(protected));
    (6) the content encryption gives the ciphertext and the tag. *)
Definition encrypt_steps (tables : Registered) (obj : CompactEncryption)
    (registry : JWERegistry) (sender_key : option Key) : result CompactEncryption :=
  let h := protected obj in
  rbind (validate_header registry h) (fun _ =>
  rbind (resolve (alg_table tables) registry h "alg") (fun alg =>
  rbind (resolve (enc_table tables) registry h "enc") (fun enc =>
  rbind (resolve_zip tables registry h) (fun zip =>
  rbind (the_recipient obj) (fun rk =>
  let '(r, key) := rk in
  match plaintext obj with
  | None => inl (TypeError "no plaintext")
  | Some data =>
      let cek := if direct_mode alg then EmptyString else urandom 0 (cek_size enc) in
      rbind (alg_wrap alg enc cek r key sender_key) (fun w =>
      let h' := add_headers h (wrapped_header w) in
      let data' := compress_with zip data in
      let iv' := urandom 1 (iv_size enc) in
      let aad := urlsafe_b64encode (compact_json h') in
      rbind (enc_encrypt enc data' (wrapped_cek w) iv' aad) (fun ct =>
      inr {| protected := h';
             plaintext := Some data;
             recipient :=
               Some {| message_headers := h';
                       recipient_header := recipient_header r;
                       recipient_key := Some key;
                       encrypted_key := Some (wrapped_key w) |};
             protected_segment := Some aad;
             iv := iv';
             ciphertext := fst ct;
             tag := snd ct |}))
  end))))).

(** Modelled from the spec: [perform_encrypt] in place: the message is
    updated when every step succeeded, left as it was otherwise. *)
Definition perform_encrypt (tables : Registered) (obj : CompactEncryption)
    (registry : JWERegistry) (sender_key : option Key)
  : CompactEncryption * result unit :=
  match encrypt_steps tables obj registry sender_key with
  | inl e => (obj, inl e)
  | inr obj' => (obj', inr tt)
  end.

(** Modelled from the spec: [rfc7516.compact.represent_compact] is missing
    from the sources.  Design document 6: five base64url segments,
    protected, encrypted key, IV, ciphertext, tag, separated by dots; an
    empty segment is allowed. *)
Definition the_encrypted_key (obj : CompactEncryption) : bytes :=
  match recipient obj with
  | Some r => match encrypted_key r with Some ek => ek | None => EmptyString end
  | None => EmptyString
  end.

(** Modelled from the spec: [represent_compact] (see above). *)
Definition represent_compact (obj : CompactEncryption) : result bytes :=
  inr (urlsafe_b64encode (compact_json (protected obj)) ++ "."
       ++ urlsafe_b64encode (the_encrypted_key obj) ++ "."
       ++ urlsafe_b64encode (iv obj) ++ "."
       ++ urlsafe_b64encode (ciphertext obj) ++ "."
       ++ urlsafe_b64encode (tag obj)).

(** Modelled from the spec: [rfc7516.compact.extract_compact] is missing
    from the sources.  Design document 4.6, Decrypt, step 1, and section
    6: exactly five segments; the protected header is a JSON object and is
    kept as received for the AAD. *)
Definition extract_compact (value : bytes) : result CompactEncryption :=
  match split_on "." value with
  | [s1; s2; s3; s4; s5] =>
      match urlsafe_b64decode s1 with
      | Some header_json =>
          match json_loads_object header_json, urlsafe_b64decode s2,
                urlsafe_b64decode s3, urlsafe_b64decode s4,
                urlsafe_b64decode s5 with
          | Some h, Some ek, Some iv', Some ct, Some tag' =>
              inr {| protected := h;
                     plaintext := None;
                     recipient :=
                       Some {| message_headers := h; recipient_header := [];
                               recipient_key := None;
                               encrypted_key := Some ek |};
                     protected_segment := Some s1;
                     iv := iv'; ciphertext := ct; tag := tag' |}
          | _, _, _, _, _ => inl DecodeError
          end
      | None => inl DecodeError
      end
  | _ => inl DecodeError
  end.

(** Modelled from the spec: [rfc7516.message.perform_decrypt] is missing
    from the sources.  Design document 4.6, Decrypt, steps 2 to 6:
    validate the header and resolve the algorithms; unwrap the key; the
    AAD is the protected header as received; decrypt; decompress when
    [zip] is set. *)
Definition perform_decrypt (tables : Registered) (obj : CompactEncryption)
    (registry : JWERegistry) (sender_key : option Key) : result CompactEncryption :=
  let h := protected obj in
  rbind (validate_header registry h) (fun _ =>
  rbind (resolve (alg_table tables) registry h "alg") (fun alg =>
  rbind (resolve (enc_table tables) registry h "enc") (fun enc =>
  rbind (resolve_zip tables registry h) (fun zip =>
  rbind (the_recipient obj) (fun rk =>
  let '(r, key) := rk in
  match protected_segment obj with
  | None => inl DecodeError
  | Some aad =>
      rbind (alg_unwrap alg enc (the_encrypted_key obj) r key sender_key) (fun cek =>
      rbind (enc_decrypt enc (ciphertext obj) cek (iv obj) aad (tag obj)) (fun data =>
      rbind (decompress_with zip data) (fun data' =>
      inr {| protected := h; plaintext := Some data';
             recipient := recipient obj;
             protected_segment := protected_segment obj;
             iv := iv obj; ciphertext := ciphertext obj; tag := tag obj |})))
  end))))).

(** The helpers of the JSON form are not modelled: an implementation of
    the imports takes them as they are given. *)
Record JSONHelpers : Type := {
  helper_pipeline : JWE.Pipeline JSONEncryption;
  helper_represent_json : JSONEncryption -> result JSONSerialization;
  helper_extract_json : JSONSerialization -> result JSONEncryption
}.

(** The helpers as one implementation of the imports of [jwe.py]. *)
Definition imports (algs : list JWEAlgModel) (encs : list JWEEncModel)
    (zips : list JWEZipModel) (json_helpers : JSONHelpers) : JWE.Imports :=
  {| JWE.guess_key := guess_key;
     JWE.guess_key_None := fun _ => inl (AttributeError "headers");
     JWE.default_registry :=
       {| enabled := None; strict_check_header := true; header_registry := [] |};
     JWE.JWERegistry_register := register;
     JWE.JWE_ALG_MODELS := algs;
     JWE.JWE_ENC_MODELS := encs;
     JWE.JWE_ZIP_MODELS := zips;
     JWE.compact_pipeline :=
       {| JWE.perform_encrypt := perform_encrypt;
          JWE.perform_decrypt := perform_decrypt |};
     JWE.json_pipeline := helper_pipeline json_helpers;
     JWE.represent_compact := represent_compact;
     JWE.extract_compact := extract_compact;
     JWE.represent_json := helper_represent_json json_helpers;
     JWE.extract_json := helper_extract_json json_helpers;
     JWE.to_bytes := JWSModel.to_bytes |}.

End Model.

(** *** A small concrete registry for the scenarios *)

(** Modelled from the spec: the [dir] algorithm (design document 4.6,
    step 2): the key is the octets of the symmetric key, the encrypted key
    is empty, nothing is added to the header.  The key must have the size
    the content encryption takes ([cek_size], design document 4.3). *)
Definition dir : JWEAlgModel :=
  {| jwe_alg_name := "dir";
     direct_mode := true;
     alg_wrap := fun enc _ _ key _ =>
       match kty key with
       | Oct =>
           if (String.length (material key) =? cek_size enc)%nat
           then inr {| wrapped_cek := material key; wrapped_key := EmptyString;
                       wrapped_header := [] |}
           else inl InvalidKeyError
       | _ => inl InvalidKeyError
       end;
     alg_unwrap := fun enc ek _ key _ =>
       match kty key, ek with
       | Oct, EmptyString =>
           if (String.length (material key) =? cek_size enc)%nat
           then inr (material key)
           else inl InvalidKeyError
       | Oct, String _ _ => inl DecodeError
       | _, _ => inl InvalidKeyError
       end |}.

(** Modelled from the spec: the content encryptions A128GCM, A192GCM and
    A256GCM (design document 4.3): AES in the Galois/Counter Mode with a
    key of 16, 24 or 32 bytes, an IV of 12 bytes and a tag of 16; a tag
    that does not match is a bad-signature error (design document 4.6,
    Decrypt, step 5). *)
Definition aes_gcm (name : string) (key_size : nat) : JWEEncModel :=
  {| enc_name := name;
     cek_size := key_size; iv_size := 12; tag_size := 16;
     enc_encrypt := fun data cek iv' aad =>
       if (String.length cek =? key_size)%nat
       then inr (gcm_encrypt cek iv' aad data)
       else inl InvalidKeyError;
     enc_decrypt := fun ct cek iv' aad tag' =>
       if (String.length cek =? key_size)%nat
       then match gcm_decrypt cek iv' aad ct tag' with
            | Some data => inr data
            | None => inl BadSignatureError
            end
       else inl InvalidKeyError |}.

Definition A128GCM : JWEEncModel := aes_gcm "A128GCM" 16.
Definition A192GCM : JWEEncModel := aes_gcm "A192GCM" 24.
Definition A256GCM : JWEEncModel := aes_gcm "A256GCM" 32.

(** Modelled from the spec: the zip model DEF (design document 4.3): raw
    DEFLATE.  Decompression reads any stream of RFC 1951; compression is
    the platform's choice among the encodings the format allows, taken
    here as one block of the fixed codes, literal by literal, which is
    what the platform's compressor gives for a short text that does not
    repeat itself. *)
Definition DEF : JWEZipModel :=
  {| zip_name := "DEF";
     zip_compress := deflate_literals;
     zip_decompress := fun data =>
       match inflate data with
       | Some d => inr d
       | None => inl DecodeError
       end |}.

(** JSON helpers that refuse to run. *)
Definition no_json_pipeline : JWE.Pipeline JSONEncryption :=
  {| JWE.perform_encrypt := fun _ obj _ _ => (obj, inl (TypeError "unmodelled"));
     JWE.perform_decrypt := fun _ _ _ _ => inl (TypeError "unmodelled") |}.

Definition no_json : JSONHelpers :=
  {| helper_pipeline := no_json_pipeline;
     helper_represent_json := fun _ => inl (TypeError "unmodelled");
     helper_extract_json := fun _ => inl (TypeError "unmodelled") |}.

(** A random source for concrete runs. *)
Definition fixed_random (i n : nat) : bytes :=
  bytes_of_list (repeat (Z.of_nat (7 + i)) n).

(** The standard registry of the compact form: the direct algorithm, the
    GCM content encryptions and DEF, all enabled, over a random source. *)
Definition standard (urandom : nat -> nat -> bytes) : JWE.Imports :=
  imports ["dir"; "A128GCM"; "A192GCM"; "A256GCM"; "DEF"] urandom
          [dir] [A128GCM; A192GCM; A256GCM] [DEF] no_json.

End JWEModel.

(* ------------------------------------------------------------------ *)
(** ** Notions used by the statements *)

(** [deserialize_compact] in three steps, as its documentation tells it:
    extract the object from the bytes of the value, validate it with the
    key and the allow-list, give the object back as extracted. *)
Definition extract_then_validate {I : JWS.Imports} (value : AnyStr)
    (key : KeyFlexible) (allowed_algorithms : option (list string))
  : M CompactData :=
  match JWS.extract_compact (JWS.to_bytes value) with
  | inl e => ([Call_extract_compact], inl e)
  | inr obj =>
      match JWS.validate_compact obj key allowed_algorithms with
      | (t, inl e) => (Call_extract_compact :: t, inl e)
      | (t, inr _) => (Call_extract_compact :: t, inr obj)
      end
  end.


(** [not recipient.recipient_key]. *)
Definition unset (r : Recipient) : bool :=
  match recipient_key r with
  | Some _ => false
  | None => true
  end.

(** The call [guess_key(key, recipient)] of the JWE facade. *)
Definition guess_for (r : Recipient) : event :=
  Call_guess_key (GuestRecipient r) None.


(** Concrete runs of the JSON functions of [jwe.py] need some JSON
    helpers: these hand back one given message and do no cryptography. *)
Definition handing_back (obj : JSONEncryption) : JWEModel.JSONHelpers :=
  {| JWEModel.helper_pipeline :=
       {| JWE.perform_encrypt := fun _ o _ _ => (o, inr tt);
          JWE.perform_decrypt := fun _ o _ _ => inr o |};
     JWEModel.helper_represent_json := fun _ => inr (JObj []);
     JWEModel.helper_extract_json := fun _ => inr obj |}.

(** A message with two recipients, the first with a key. *)
Definition example_key : Key :=
  {| kty := Oct; kid := Some "mine"; use := None; key_alg := None;
     key_ops := None; is_private := true; crv := None; material := "already set" |}.

Definition example_recipient (k : option Key) : Recipient :=
  {| message_headers := [("alg", JStr "dir"); ("enc", JStr "A128GCM")];
     recipient_header := []; recipient_key := k; encrypted_key := None |}.

Definition example_message : JSONEncryption :=
  {| json_protected := [("alg", JStr "dir"); ("enc", JStr "A128GCM")];
     json_unprotected := []; json_aad := None; json_plaintext := Some "hello";
     recipients := [example_recipient (Some example_key); example_recipient None];
     json_iv := EmptyString; json_ciphertext := EmptyString;
     json_tag := EmptyString |}.

Definition example_imports : JWE.Imports :=
  JWEModel.imports ["dir"; "A128GCM"] JWEModel.fixed_random
    [JWEModel.dir] [JWEModel.A128GCM] [] (handing_back example_message).

(** A header whose values are all strings, from its pairs. *)
Definition string_header (h : list (string * string)) : Header :=
  map (fun kv => (fst kv, JStr (snd kv))) h.

(** The compact JSON text of its members. *)
Fixpoint members_text (h : list (string * string)) : string :=
  match h with
  | [] => ""
  | (k, v) :: r =>
      json_quote k ++ ":" ++ json_quote v ++
      match r with [] => "" | _ :: _ => "," ++ members_text r end
  end.

(** The calls [serialize_compact] can make, in the order of its
    statements, for an algorithm value [alg] registered under [name]. *)
Definition serialize_compact_calls (h : Header) (p : bytes) (alg : json)
    (name : string) : list event :=
  [ Call_check_header ["alg"];
    Call_guess_key (GuestCompactData (new_CompactData h p)) (Some "sign");
    Call_check_use "sig";
    Lookup_algorithm alg;
    Call_sign name ].

(** The calls [validate_compact] can make, in the order of its statements. *)
Definition validate_compact_calls (obj : CompactData) (alg : json)
    (name : string) : list event :=
  [ Call_guess_key (GuestCompactData obj) (Some "verify");
    Call_check_use "sig";
    Lookup_algorithm alg;
    Call_verify name ].

(** The message [encrypt_compact] builds before it encrypts: the protected
    header and the plaintext it was given, and one recipient holding the
    key. *)
Definition compact_message (h : Header) (data : bytes) (k : Key)
  : CompactEncryption :=
  set_recipient (new_CompactEncryption h data)
    (set_recipient_key (new_Recipient (new_CompactEncryption h data)) k).

(** The calls [encrypt_compact] can make, in the order of its
    statements. *)
Definition encrypt_compact_calls (h : Header) (data : bytes) : list event :=
  [ guess_for (new_Recipient (new_CompactEncryption h data));
    Call_perform_encrypt;
    Call_represent_compact ].

(** The calls [decrypt_compact] can make on a message whose recipient is
    [r], in the order of its statements. *)
Definition decrypt_compact_calls (r : Recipient) : list event :=
  [ Call_extract_compact; guess_for r; Call_perform_decrypt ].

(** Every recipient has a key. *)
Definition all_set (rs : list Recipient) : bool :=
  forallb (fun r => negb (unset r)) rs.

(* ------------------------------------------------------------------ *)
(** * Properties *)

(** ** The codec *)

Ltac Zify.zify_post_hook ::= Z.to_euclidean_division_equations.

Ltac split_tests :=
  repeat match goal with
         | |- context [N.leb ?a ?b] => destruct (N.leb_spec a b)
         | |- context [N.ltb ?a ?b] => destruct (N.ltb_spec a b)
         | |- context [N.eqb ?a ?b] => destruct (N.eqb_spec a b)
         | H : context [N.leb ?a ?b] |- _ => destruct (N.leb_spec a b)
         | H : context [N.ltb ?a ?b] |- _ => destruct (N.ltb_spec a b)
         | H : context [N.eqb ?a ?b] |- _ => destruct (N.eqb_spec a b)
         end.

Lemma b64_index_char (n : N) : (n < 64)%N -> b64_index (b64_char n) = Some n.
Proof.
  intros Hn. unfold b64_index, b64_char.
  assert (E : forall m, (m < 256)%N -> N_of_ascii (ascii_of_N m) = m)
    by (intros; apply N_ascii_embedding; assumption).
  destruct (N.ltb_spec n 26); [rewrite E by lia|];
  [|destruct (N.ltb_spec n 52); [rewrite E by lia|];
    [|destruct (N.ltb_spec n 62); [rewrite E by lia|];
      [|destruct (N.eqb_spec n 62); rewrite E by lia]]];
  cbv zeta; split_tests; simpl; try lia; f_equal; lia.
Qed.

Lemma b64_char_is_b64 (n : N) : is_b64_char (b64_char n) = true.
Proof.
  unfold is_b64_char, b64_index, b64_char.
  assert (E : forall m, (m < 256)%N -> N_of_ascii (ascii_of_N m) = m)
    by (intros; apply N_ascii_embedding; assumption).
  destruct (N.ltb_spec n 26); [rewrite E by lia|];
  [|destruct (N.ltb_spec n 52); [rewrite E by lia|];
    [|destruct (N.ltb_spec n 62); [rewrite E by lia|];
      [|destruct (N.eqb_spec n 62); rewrite E by lia]]];
  cbv zeta; split_tests; simpl; try reflexivity; lia.
Qed.

(** Induction on a byte string three bytes at a time. *)
Lemma bytes_ind3 (P : bytes -> Prop) :
  P EmptyString ->
  (forall a, P (String a EmptyString)) ->
  (forall a b, P (String a (String b EmptyString))) ->
  (forall a b c r, P r -> P (String a (String b (String c r)))) ->
  forall s, P s.
Proof.
  intros H0 H1 H2 H3.
  assert (K : forall s, P s /\ (forall a, P (String a s))
                        /\ (forall a b, P (String a (String b s)))).
  { induction s as [|c r [IH0 [IH1 IH2]]].
    - repeat split; auto.
    - repeat split; auto. }
  intros s; apply K.
Qed.

Lemma byte_quad (x y z : N) :
  (x < 256 -> y < 256 -> z < 256 ->
   x / 4 < 64 /\ (x mod 4) * 16 + y / 16 < 64 /\
   (y mod 16) * 4 + z / 64 < 64 /\ z mod 64 < 64 /\
   (x mod 4) * 16 < 64 /\ (y mod 16) * 4 < 64)%N.
Proof. intros; repeat split; lia. Qed.

Lemma byte_back (x y z : N) :
  (x < 256 -> y < 256 -> z < 256 ->
   x / 4 * 4 + ((x mod 4) * 16 + y / 16) / 16 = x /\
   ((x mod 4) * 16 + y / 16) mod 16 * 16 + ((y mod 16) * 4 + z / 64) / 4 = y /\
   ((y mod 16) * 4 + z / 64) mod 4 * 64 + z mod 64 = z /\
   x / 4 * 4 + ((x mod 4) * 16) / 16 = x /\
   ((x mod 4) * 16 + y / 16) mod 16 * 16 + ((y mod 16) * 4) / 4 = y)%N.
Proof. intros; repeat split; lia. Qed.

(** Decoding what was encoded gives the bytes back. *)
Lemma urlsafe_b64decode_encode (s : bytes) :
  urlsafe_b64decode (urlsafe_b64encode s) = Some s.
Proof.
  induction s as [|a|a b|a b c r IH] using bytes_ind3.
  - reflexivity.
  - pose proof (N_ascii_bounded a) as Ha.
    destruct (byte_quad (N_of_ascii a) 0 0 Ha) as (Q1 & _ & _ & _ & Q5 & _);
      try reflexivity.
    destruct (byte_back (N_of_ascii a) 0 0 Ha) as (_ & _ & _ & B4 & _);
      try reflexivity.
    cbn [urlsafe_b64encode urlsafe_b64decode].
    rewrite !b64_index_char by assumption.
    rewrite B4, ascii_N_embedding. reflexivity.
  - pose proof (N_ascii_bounded a) as Ha. pose proof (N_ascii_bounded b) as Hb.
    destruct (byte_quad (N_of_ascii a) (N_of_ascii b) 0 Ha Hb)
      as (Q1 & Q2 & _ & _ & _ & Q6); try reflexivity.
    destruct (byte_back (N_of_ascii a) (N_of_ascii b) 0 Ha Hb)
      as (B1 & _ & _ & _ & B5); try reflexivity.
    cbn [urlsafe_b64encode urlsafe_b64decode].
    rewrite !b64_index_char by assumption.
    rewrite B1, B5, !ascii_N_embedding. reflexivity.
  - pose proof (N_ascii_bounded a) as Ha. pose proof (N_ascii_bounded b) as Hb.
    pose proof (N_ascii_bounded c) as Hc.
    destruct (byte_quad _ _ _ Ha Hb Hc) as (Q1 & Q2 & Q3 & Q4 & _ & _).
    destruct (byte_back _ _ _ Ha Hb Hc) as (B1 & B2 & B3 & _ & _).
    cbn [urlsafe_b64encode urlsafe_b64decode].
    rewrite !b64_index_char by assumption.
    rewrite IH, B1, B2, B3, !ascii_N_embedding. reflexivity.
Qed.

Lemma urlsafe_b64encode_is_b64 (s : bytes) : is_b64 (urlsafe_b64encode s) = true.
Proof.
  induction s as [|a|a b|a b c r IH] using bytes_ind3;
    cbn [urlsafe_b64encode is_b64]; rewrite ?b64_char_is_b64, ?IH; reflexivity.
Qed.

Lemma is_b64_no_dot (s : bytes) : is_b64 s = true -> contains_byte "." s = false.
Proof.
  induction s as [|c r IH]; [reflexivity|].
  cbn [is_b64 contains_byte]. intros H. apply andb_true_iff in H as [Hc Hr].
  rewrite (IH Hr), orb_false_r.
  destruct (Ascii.eqb_spec c "."); [subst; discriminate|reflexivity].
Qed.

Lemma urlsafe_b64encode_no_dot (s : bytes) :
  contains_byte "." (urlsafe_b64encode s) = false.
Proof. apply is_b64_no_dot, urlsafe_b64encode_is_b64. Qed.

(** ** Splitting a token *)

Lemma split_on_nonempty (sep : ascii) (s : bytes) : split_on sep s <> [].
Proof.
  destruct s as [|c r]; cbn [split_on]; [discriminate|].
  destruct (Ascii.eqb c sep); [discriminate|].
  destruct (split_on sep r); discriminate.
Qed.

Lemma split_on_whole (sep : ascii) (s : bytes) :
  contains_byte sep s = false -> split_on sep s = [s].
Proof.
  induction s as [|c r IH]; [reflexivity|].
  cbn [contains_byte split_on]. intros H. apply orb_false_iff in H as [Hc Hr].
  rewrite Hc, (IH Hr). reflexivity.
Qed.

Lemma split_on_app (sep : ascii) (a b : bytes) :
  contains_byte sep a = false ->
  split_on sep (a ++ String sep b) = a :: split_on sep b.
Proof.
  induction a as [|c r IH]; intros H.
  - cbn [append split_on]. rewrite Ascii.eqb_refl. reflexivity.
  - cbn [contains_byte] in H. apply orb_false_iff in H as [Hc Hr].
    cbn [append split_on]. rewrite Hc, (IH Hr). reflexivity.
Qed.

Lemma append_assoc (a b c : string) : (a ++ b) ++ c = a ++ (b ++ c).
Proof. induction a as [|x a IH]; cbn; [reflexivity|rewrite IH; reflexivity]. Qed.

(** ** JSON carries a header of strings faithfully *)

Lemma parse_string_escape (s rest : string) :
  parse_string (json_escape s ++ String dquote rest) = Some (s, rest).
Proof.
  revert rest. induction s as [|c s IH]; intros rest; [reflexivity|].
  destruct c as [[] [] [] [] [] [] [] []]; cbn; rewrite IH; reflexivity.
Qed.

Lemma json_quote_app (s rest : string) :
  json_quote s ++ rest = String dquote (json_escape s ++ String dquote rest).
Proof.
  unfold json_quote. cbn [append]. rewrite append_assoc. reflexivity.
Qed.

Lemma length_append (a b : string) :
  String.length (a ++ b) = String.length a + String.length b.
Proof. induction a as [|c a IH]; cbn; [reflexivity|rewrite IH; reflexivity]. Qed.

Lemma dict_set_fresh {V : Type} (k : string) (v : V) (d : list (string * V)) :
  ~ In k (map fst d) -> dict_set k v d = (d ++ [(k, v)])%list.
Proof.
  induction d as [|[k' v'] d IH]; cbn; intros H; [reflexivity|].
  destruct (String.eqb_spec k k') as [->|Hne]; [exfalso; apply H; left; reflexivity|].
  rewrite IH; [reflexivity|]. intros Hin. apply H. right. assumption.
Qed.

Lemma compact_json_string_header (h : list (string * string)) :
  compact_json (string_header h) = "{" ++ members_text h ++ "}".
Proof.
  unfold compact_json. cbn [compact_json_value]. f_equal. f_equal.
  induction h as [|[k v] h IH]; [reflexivity|].
  cbn [string_header map fst snd members_text]. fold (string_header h).
  cbn [compact_json_value]. rewrite IH.
  destruct h as [|kv h']; reflexivity.
Qed.

Lemma members_text_length (h : list (string * string)) :
  length h <= String.length (members_text h).
Proof.
  induction h as [|[k v] h IH]; [apply le_n|].
  cbn [members_text]. destruct h as [|kv h'].
  - rewrite length_append. unfold json_quote at 1. cbn [String.length length]. lia.
  - set (m := members_text (kv :: h')) in *.
    rewrite !length_append. cbn [String.length length] in *. lia.
Qed.

Lemma skip_ws_token (c : ascii) (x : string) :
  In c [dquote; ":"; ","; "}"; "{"]%char -> skip_ws (String c x) = String c x.
Proof. intros [<-|[<-|[<-|[<-|[<-|[]]]]]]; reflexivity. Qed.

Lemma parse_value_string (f : nat) (v rest : string) :
  parse_value (S f) (json_quote v ++ rest) = Some (JStr v, rest).
Proof.
  rewrite json_quote_app. cbn [parse_value].
  rewrite skip_ws_token by (cbn; auto 10).
  rewrite Ascii.eqb_refl, parse_string_escape. reflexivity.
Qed.

(** Reading the members of a header of strings, one after the other. *)
Lemma parse_members_string_header (f : nat) (h : list (string * string)) :
  forall n acc rest,
    h <> [] ->
    length h <= n ->
    NoDup (map fst acc ++ map fst h) ->
    parse_members (parse_value (S f)) n acc (members_text h ++ String "}" rest)
    = Some ((acc ++ string_header h)%list, rest).
Proof.
  induction h as [|[k v] h IH]; intros n acc rest Hne Hn Hnd; [contradiction|].
  destruct n as [|n]; [cbn in Hn; lia|].
  assert (Hk : ~ In k (map fst acc)).
  { cbn [map fst] in Hnd. apply NoDup_remove_2 in Hnd.
    intros Hin. apply Hnd. apply in_or_app. left. assumption. }
  cbn [parse_members members_text].
  rewrite !append_assoc, json_quote_app.
  rewrite skip_ws_token by (cbn; auto 10).
  rewrite Ascii.eqb_refl, parse_string_escape.
  cbn [append]. rewrite skip_ws_token by (cbn; auto 10).
  rewrite Ascii.eqb_refl, parse_value_string.
  rewrite (dict_set_fresh k (JStr v) acc Hk).
  destruct h as [|kv h'].
  - cbn [append]. rewrite skip_ws_token by (cbn; auto 10).
    rewrite Ascii.eqb_refl. reflexivity.
  - cbn [append]. rewrite skip_ws_token by (cbn; auto 10).
    change (Ascii.eqb "," "}") with false. rewrite Ascii.eqb_refl. cbv iota.
    rewrite IH.
    + rewrite <- app_assoc. reflexivity.
    + discriminate.
    + cbn [length] in Hn |- *. lia.
    + rewrite map_app, <- app_assoc. exact Hnd.
Qed.

Lemma parse_value_object (f : nat) (r : string) :
  parse_value (S f) (String "{" r)
  = match skip_ws r with
    | String c2 r2 =>
        if Ascii.eqb c2 "}" then Some (JObj [], r2)
        else match parse_members (parse_value f) f [] r with
             | Some (m, rest) => Some (JObj m, rest)
             | None => None
             end
    | EmptyString => None
    end.
Proof. reflexivity. Qed.

(** A header of strings with distinct names comes back from its compact
    JSON text as it was. *)
Lemma json_round_trip_string_header (h : list (string * string)) :
  NoDup (map fst h) ->
  json_loads_object (compact_json (string_header h)) = Some (string_header h).
Proof.
  intros Hnd. unfold json_loads_object, json_loads.
  rewrite compact_json_string_header.
  destruct h as [|kv h']; [reflexivity|].
  remember (kv :: h') as h eqn:Eh.
  assert (Hne : h <> []) by (rewrite Eh; discriminate).
  cbn [append String.length]. rewrite parse_value_object.
  assert (Hfirst : exists x, members_text h ++ "}" = String dquote x).
  { rewrite Eh. destruct kv as [k v]. cbn [members_text].
    rewrite !append_assoc, json_quote_app. eexists. reflexivity. }
  destruct Hfirst as [x Hx]. rewrite Hx at 1.
  rewrite skip_ws_token by (cbn; auto 10).
  change (Ascii.eqb dquote "}") with false. cbv iota.
  pose proof (members_text_length h) as Hlen.
  assert (HL : length h <= S (String.length (members_text h ++ "}")))
    by (rewrite length_append; lia).
  rewrite (parse_members_string_header _ h _ [] EmptyString Hne HL Hnd).
  reflexivity.
Qed.

(** ** Membership in an allow-list *)

Lemma existsb_eqb_In (s : string) (l : list string) :
  existsb (String.eqb s) l = true <-> In s l.
Proof.
  rewrite existsb_exists. split.
  - intros (x & Hx & E). apply String.eqb_eq in E. subst. assumption.
  - intros H. exists s. split; [assumption|apply String.eqb_refl].
Qed.

Lemma py_in_In (a : string) (l : list string) :
  py_in (JStr a) l = true <-> In a l.
Proof. apply existsb_eqb_In. Qed.

Lemma py_in_str (x : json) (l : list string) :
  py_in x l = true -> exists a, x = JStr a /\ In a l.
Proof.
  destruct x; try discriminate. intros H. eexists; split; [reflexivity|].
  apply py_in_In; assumption.
Qed.

(** ** The registry of jws.py, entry by entry *)

Lemma dict_get_set {V : Type} (s k : string) (v : V) (d : list (string * V)) :
  dict_get s (dict_set k v d) = if String.eqb s k then Some v else dict_get s d.
Proof.
  induction d as [|[k' v'] d IH]; cbn [dict_set dict_get].
  - destruct (String.eqb s k); reflexivity.
  - destruct (String.eqb_spec k k') as [->|Hkk']; cbn [dict_get].
    + destruct (String.eqb s k'); reflexivity.
    + rewrite IH. destruct (String.eqb_spec s k') as [->|Hsk'].
      * destruct (String.eqb_spec k' k) as [E|_]; [congruence|reflexivity].
      * reflexivity.
Qed.

(** Registering a list of algorithms by name keeps "found under its own
    name". *)
Lemma fold_register_names (l : list JWSAlgorithm) (d : list (string * JWSAlgorithm)) :
  (forall s a, dict_get s d = Some a -> alg_name a = s) ->
  forall s a,
    dict_get s (fold_left (fun d alg => dict_set (alg_name alg) alg d) l d) = Some a ->
    alg_name a = s.
Proof.
  revert d. induction l as [|x l IH]; intros d Hd s a; cbn [fold_left]; [apply Hd|].
  apply IH. intros s' a'. rewrite dict_get_set.
  destruct (String.eqb_spec s' (alg_name x)) as [->|_].
  - intros E; inversion E; reflexivity.
  - apply Hd.
Qed.

(** Registering algorithms of other names does not change what is found
    under a name. *)
Lemma fold_register_other (l : list JWSAlgorithm) (d : list (string * JWSAlgorithm))
    (s : string) :
  ~ In s (map alg_name l) ->
  dict_get s (fold_left (fun d alg => dict_set (alg_name alg) alg d) l d)
  = dict_get s d.
Proof.
  revert d. induction l as [|x l IH]; intros d Hs; cbn [fold_left]; [reflexivity|].
  rewrite IH by (intros H; apply Hs; right; exact H).
  rewrite dict_get_set.
  destruct (String.eqb_spec s (alg_name x)) as [->|_]; [|reflexivity].
  exfalso. apply Hs. left. reflexivity.
Qed.

(** The registry, entry by entry: an algorithm found under a name has
    that name. *)
Lemma registry_lookup {I : JWS.Imports} (s : string) (a : JWSAlgorithm) :
  dict_get s JWS.JWS_REGISTRY = Some a -> alg_name a = s.
Proof.
  unfold JWS.JWS_REGISTRY. rewrite dict_get_set.
  destruct (String.eqb_spec s (alg_name JWS.ES256K)) as [->|_].
  - intros E; inversion E; reflexivity.
  - apply fold_register_names. intros s' a' E. discriminate E.
Qed.

(** ** The JWS facade, step by step *)

Section JWSFacts.
Context {I : JWS.Imports}.

(** What a successful [validate_compact] went through. *)
Lemma validate_compact_inv obj key allowed t :
  JWS.validate_compact obj key allowed = (t, inr tt) ->
  exists a k algorithm,
    dict_get "alg" (header obj) = Some (JStr a)
    /\ In a (JWS.default_allowed allowed)
    /\ JWS.guess_key key obj "verify" = inr k
    /\ JWS.check_use k "sig" = inr tt
    /\ dict_get a JWS.JWS_REGISTRY = Some algorithm
    /\ JWS.CompactData_verify obj algorithm k = inr true
    /\ t = [Call_guess_key (GuestCompactData obj) (Some "verify");
            Call_check_use "sig"; Lookup_algorithm (JStr a);
            Call_verify (alg_name algorithm)].
Proof.
  unfold JWS.validate_compact, getitem, bind, call, raise, ret.
  destruct (dict_get "alg" (header obj)) as [x|] eqn:Ealg; [|discriminate].
  destruct (py_in x (JWS.default_allowed allowed)) eqn:Ein; [|discriminate].
  apply py_in_str in Ein as (a & -> & Hin). cbn [negb].
  destruct (JWS.guess_key key obj "verify") as [e|k] eqn:Ek; [discriminate|].
  destruct (JWS.check_use k "sig") as [e|[]] eqn:Eu; [discriminate|].
  unfold JWS.registry_getitem, call.
  destruct (dict_get a JWS.JWS_REGISTRY) as [algorithm|] eqn:Er; [|discriminate].
  destruct (JWS.CompactData_verify obj algorithm k) as [e|[|]] eqn:Ev;
    cbn; try discriminate.
  intros H; inversion H; subst.
  exists a, k, algorithm. repeat split; assumption || reflexivity.
Qed.

(** The run of [validate_compact] once the allow-list, the key and the
    registry are settled. *)
Lemma validate_compact_run obj key allowed a k algorithm :
  dict_get "alg" (header obj) = Some (JStr a) ->
  In a (JWS.default_allowed allowed) ->
  JWS.guess_key key obj "verify" = inr k ->
  JWS.check_use k "sig" = inr tt ->
  dict_get a JWS.JWS_REGISTRY = Some algorithm ->
  JWS.validate_compact obj key allowed =
    ([Call_guess_key (GuestCompactData obj) (Some "verify");
      Call_check_use "sig"; Lookup_algorithm (JStr a);
      Call_verify (alg_name algorithm)],
     match JWS.CompactData_verify obj algorithm k with
     | inl e => inl e
     | inr true => inr tt
     | inr false => inl BadSignatureError
     end).
Proof.
  intros Ealg Hin Ek Eu Er.
  unfold JWS.validate_compact, getitem, bind, call, raise, ret.
  rewrite Ealg. apply py_in_In in Hin. rewrite Hin. cbn [negb].
  rewrite Ek, Eu. unfold JWS.registry_getitem, call. rewrite Er.
  destruct (JWS.CompactData_verify obj algorithm k) as [e|[|]]; reflexivity.
Qed.

Lemma serialize_compact_inv h p key allowed t out :
  JWS.serialize_compact h p key allowed = (t, inr out) ->
  exists a k algorithm,
    JWS.check_header h ["alg"] = inr tt
    /\ dict_get "alg" h = Some (JStr a)
    /\ In a (JWS.default_allowed allowed)
    /\ JWS.guess_key key (new_CompactData h p) "sign" = inr k
    /\ JWS.check_use k "sig" = inr tt
    /\ dict_get a JWS.JWS_REGISTRY = Some algorithm
    /\ JWS.CompactData_sign (new_CompactData h p) algorithm k = inr out
    /\ t = [Call_check_header ["alg"];
            Call_guess_key (GuestCompactData (new_CompactData h p)) (Some "sign");
            Call_check_use "sig"; Lookup_algorithm (JStr a);
            Call_sign (alg_name algorithm)].
Proof.
  unfold JWS.serialize_compact, getitem, bind, call, raise, ret.
  destruct (JWS.check_header h ["alg"]) as [e|[]] eqn:Ec; [discriminate|].
  destruct (dict_get "alg" h) as [x|] eqn:Ealg; [|discriminate].
  destruct (py_in x (JWS.default_allowed allowed)) eqn:Ein; [|discriminate].
  apply py_in_str in Ein as (a & -> & Hin). cbn [negb].
  destruct (JWS.guess_key key (new_CompactData h p) "sign") as [e|k] eqn:Ek;
    [discriminate|].
  destruct (JWS.check_use k "sig") as [e|[]] eqn:Eu; [discriminate|].
  unfold JWS.registry_getitem, call.
  destruct (dict_get a JWS.JWS_REGISTRY) as [algorithm|] eqn:Er; [|discriminate].
  cbn. intros H; inversion H; subst.
  exists a, k, algorithm. repeat split; assumption || reflexivity.
Qed.

Lemma serialize_compact_run h p key allowed a k algorithm :
  JWS.check_header h ["alg"] = inr tt ->
  dict_get "alg" h = Some (JStr a) ->
  In a (JWS.default_allowed allowed) ->
  JWS.guess_key key (new_CompactData h p) "sign" = inr k ->
  JWS.check_use k "sig" = inr tt ->
  dict_get a JWS.JWS_REGISTRY = Some algorithm ->
  JWS.serialize_compact h p key allowed =
    ([Call_check_header ["alg"];
      Call_guess_key (GuestCompactData (new_CompactData h p)) (Some "sign");
      Call_check_use "sig"; Lookup_algorithm (JStr a);
      Call_sign (alg_name algorithm)],
     JWS.CompactData_sign (new_CompactData h p) algorithm k).
Proof.
  intros Ec Ealg Hin Ek Eu Er.
  unfold JWS.serialize_compact, getitem, bind, call, raise, ret.
  rewrite Ec, Ealg. apply py_in_In in Hin. rewrite Hin. cbn [negb].
  rewrite Ek, Eu. unfold JWS.registry_getitem, call. rewrite Er. reflexivity.
Qed.

(** A header whose [alg] is outside the allow-list stops both functions at
    the allow-list. *)
Lemma serialize_compact_not_allowed h p key allowed x :
  JWS.check_header h ["alg"] = inr tt ->
  dict_get "alg" h = Some x ->
  py_in x (JWS.default_allowed allowed) = false ->
  JWS.serialize_compact h p key allowed =
    ([Call_check_header ["alg"]],
     inl (ValueError (AlgorithmNotAllowed x (JWS.default_allowed allowed)))).
Proof.
  intros Ec Ealg Hin.
  unfold JWS.serialize_compact, getitem, bind, call, raise, ret.
  rewrite Ec, Ealg, Hin. reflexivity.
Qed.

Lemma validate_compact_not_allowed obj key allowed x :
  dict_get "alg" (header obj) = Some x ->
  py_in x (JWS.default_allowed allowed) = false ->
  JWS.validate_compact obj key allowed =
    ([], inl (ValueError (AlgorithmNotAllowed x (JWS.default_allowed allowed)))).
Proof.
  intros Ealg Hin.
  unfold JWS.validate_compact, getitem, bind, call, raise, ret.
  rewrite Ealg, Hin. reflexivity.
Qed.

Lemma deserialize_compact_unfold value key allowed :
  JWS.deserialize_compact value key allowed =
    match JWS.extract_compact (JWS.to_bytes value) with
    | inl e => ([Call_extract_compact], inl e)
    | inr obj =>
        (Call_extract_compact :: calls (JWS.validate_compact obj key allowed),
         match outcome (JWS.validate_compact obj key allowed) with
         | inl e => inl e
         | inr _ => inr obj
         end)
    end.
Proof.
  unfold JWS.deserialize_compact, bind, call, ret, calls, outcome.
  destruct (JWS.extract_compact (JWS.to_bytes value)) as [e|obj]; [reflexivity|].
  destruct (JWS.validate_compact obj key allowed) as [t [e|[]]]; cbn;
    rewrite ?app_nil_r; reflexivity.
Qed.

End JWSFacts.

(* ------------------------------------------------------------------ *)
(** ** Statements about jws.py alone *)

(** C10.  [deserialize_compact] is [extract_compact] on the bytes of the
    value, then [validate_compact] on the extracted object with the same
    key and allow-list, then that object, unchanged; whatever the helpers
    are.  In particular an object it returns is the extracted one and its
    signature was verified: the algorithm of its [alg], with the resolved
    key, accepted it. *)
Theorem deserialize_compact_is_extract_then_validate
    {I : JWS.Imports} (value : AnyStr) (key : KeyFlexible)
    (allowed : option (list string)) :
  JWS.deserialize_compact value key allowed
  = extract_then_validate value key allowed
  /\ forall t obj,
       JWS.deserialize_compact value key allowed = (t, inr obj) ->
       JWS.extract_compact (JWS.to_bytes value) = inr obj
       /\ outcome (JWS.validate_compact obj key allowed) = inr tt
       /\ exists a k algorithm,
            dict_get "alg" (header obj) = Some (JStr a)
            /\ In a (JWS.default_allowed allowed)
            /\ JWS.guess_key key obj "verify" = inr k
            /\ dict_get a JWS.JWS_REGISTRY = Some algorithm
            /\ JWS.CompactData_verify obj algorithm k = inr true.
Proof.
  split.
  - rewrite deserialize_compact_unfold. unfold extract_then_validate, calls, outcome.
    destruct (JWS.extract_compact (JWS.to_bytes value)) as [e|obj]; [reflexivity|].
    destruct (JWS.validate_compact obj key allowed) as [t [e|u]]; reflexivity.
  - intros t obj. rewrite deserialize_compact_unfold.
    destruct (JWS.extract_compact (JWS.to_bytes value)) as [e|obj'];
      [discriminate|].
    destruct (JWS.validate_compact obj' key allowed) as [t' [e|[]]] eqn:Ev;
      cbn; [discriminate|].
    intros H; inversion H; subst. split; [reflexivity|].
    rewrite Ev. split; [reflexivity|].
    apply validate_compact_inv in Ev
      as (a & k & algorithm & H1 & H2 & H3 & _ & H5 & H6 & _).
    exists a, k, algorithm. repeat split; assumption.
Qed.


(** C10, at a concrete token: the HS256 token of the literal scenario is
    returned as extracted, verified. *)
Lemma deserialize_compact_is_extract_then_validate_witness :
  exists obj,
    JWS.extract_compact (Imports := JWSModel.scenario)
      (JWS.to_bytes (Imports := JWSModel.scenario) (Text "eyJhbGciOiJIUzI1NiJ9.aQ.ykJjBUzgjyTygc7gjHM8emwLYvpqGRNIQvpTMHfZzI4"))
    = inr obj
    /\ outcome (JWS.validate_compact (I := JWSModel.scenario) obj (RawKey "secret") None)
       = inr tt.
Proof.
  destruct (deserialize_compact_is_extract_then_validate (I := JWSModel.scenario)
              (Text "eyJhbGciOiJIUzI1NiJ9.aQ.ykJjBUzgjyTygc7gjHM8emwLYvpqGRNIQvpTMHfZzI4")
              (RawKey "secret") None) as [_ H].
  eexists.
  assert (K := fun t obj E => proj1 (H t obj E)).
  assert (K' := fun t obj E => proj1 (proj2 (H t obj E))).
  split; [eapply K | eapply K']; vm_compute; reflexivity.
Defined.



(* ------------------------------------------------------------------ *)
(** ** Statements about the JWS facade over the modelled helpers *)






Section OverTheModel.
Variables (algs : list JWSAlgorithm) (es256k : JWSAlgorithm).
Local Abbreviation model := (JWSModel.imports algs es256k).

Lemma deserialize_compact_not_allowed value key allowed obj x :
  JWSModel.extract_compact (JWSModel.to_bytes value) = inr obj ->
  dict_get "alg" (header obj) = Some x ->
  py_in x (JWS.default_allowed allowed) = false ->
  JWS.deserialize_compact (I := model) value key allowed
  = ([Call_extract_compact],
     inl (ValueError (AlgorithmNotAllowed x (JWS.default_allowed allowed)))).
Proof.
  intros He Hx Hn. rewrite deserialize_compact_unfold.
  cbn [JWS.extract_compact JWS.to_bytes JWSModel.imports]. rewrite He.
  rewrite (validate_compact_not_allowed (I := model) obj key allowed x Hx Hn).
  reflexivity.
Qed.

Lemma py_in_not_In (a : string) (l : list string) :
  ~ In a l -> py_in (JStr a) l = false.
Proof.
  intros H. destruct (py_in (JStr a) l) eqn:E; [|reflexivity].
  apply py_in_In in E. contradiction.
Qed.

(** Nothing verifies under [none]. *)
Lemma validate_compact_none obj key allowed :
  dict_get "none" (JWS.JWS_REGISTRY (I := model)) = Some JWSModel.none ->
  dict_get "alg" (header obj) = Some (JStr "none") ->
  exists e, outcome (JWS.validate_compact (I := model) obj key allowed) = inl e.
Proof.
  intros Hr Ha.
  destruct (JWS.validate_compact (I := model) obj key allowed) as [t [e|[]]] eqn:E;
    [exists e; reflexivity|].
  apply validate_compact_inv in E
    as (a & k & algorithm & H1 & _ & _ & _ & H5 & H6 & _).
  rewrite Ha in H1. inversion H1; subst a. rewrite Hr in H5. inversion H5; subst.
  cbn [JWS.CompactData_verify JWSModel.imports] in H6.
  unfold JWSModel.CompactData_verify in H6.
  destruct (signing_input obj), (signature obj); cbn in H6; discriminate.
Qed.

(** [serialize_compact] stops at the header check or at the allow-list
    when the [alg] is not allowed. *)
Lemma serialize_compact_refused h p key allowed x :
  dict_get "alg" h = Some x ->
  py_in x (JWS.default_allowed allowed) = false ->
  exists e,
    JWS.serialize_compact (I := model) h p key allowed
    = ([Call_check_header ["alg"]], inl e)
    /\ (JWSModel.check_header h ["alg"] = inr tt ->
        e = ValueError (AlgorithmNotAllowed x (JWS.default_allowed allowed))).
Proof.
  intros Hx Hn.
  destruct (JWSModel.check_header h ["alg"]) as [e|[]] eqn:Ec.
  - exists e. split; [|discriminate].
    unfold JWS.serialize_compact, bind, call.
    cbn [JWS.check_header JWSModel.imports]. rewrite Ec. reflexivity.
  - eexists. split; [|reflexivity].
    apply serialize_compact_not_allowed; assumption.
Qed.

(** C4.  With the [none] algorithm registered under its name: a header
    with [alg] "none" is refused by [serialize_compact], and a token with
    that header by [deserialize_compact], with the not-allowed error when
    "none" is not in the allow-list (for [serialize_compact], when the
    header check has accepted the header: it comes first and its error
    would be the one raised); [deserialize_compact] refuses the
    token whenever it is not the case that "none" is allowed and the
    signature is empty; and with the default allow-list both refuse. *)
Theorem none_is_rejected
    (h : Header) (payload : bytes) (key : KeyFlexible)
    (allowed : option (list string)) (value : AnyStr) (obj : CompactData) :
  dict_get "none" (JWS.JWS_REGISTRY (I := model)) = Some JWSModel.none ->
  dict_get "alg" h = Some (JStr "none") ->
  JWSModel.extract_compact (JWSModel.to_bytes value) = inr obj ->
  dict_get "alg" (header obj) = Some (JStr "none") ->
  (~ In "none" (JWS.default_allowed allowed) ->
     (exists e,
        JWS.serialize_compact (I := model) h payload key allowed
        = ([Call_check_header ["alg"]], inl e)
        /\ (JWSModel.check_header h ["alg"] = inr tt ->
            e = ValueError (AlgorithmNotAllowed (JStr "none")
                              (JWS.default_allowed allowed))))
     /\ JWS.deserialize_compact (I := model) value key allowed
        = ([Call_extract_compact],
           inl (ValueError (AlgorithmNotAllowed (JStr "none")
                              (JWS.default_allowed allowed)))))
  /\ (~ (In "none" (JWS.default_allowed allowed) /\ signature obj = Some EmptyString) ->
      exists e, outcome (JWS.deserialize_compact (I := model) value key allowed) = inl e)
  /\ (exists e, outcome (JWS.serialize_compact (I := model) h payload key None) = inl e)
  /\ (exists e, outcome (JWS.deserialize_compact (I := model) value key None) = inl e).
Proof.
  intros Hr Hh He Ho.
  assert (Hdef : ~ In "none" (JWS.default_allowed None)).
  { cbn. intros [H|[H|[H|[]]]]; discriminate. }
  assert (Hser : forall al, ~ In "none" (JWS.default_allowed al) ->
     exists e,
       JWS.serialize_compact (I := model) h payload key al
       = ([Call_check_header ["alg"]], inl e)
       /\ (JWSModel.check_header h ["alg"] = inr tt ->
           e = ValueError (AlgorithmNotAllowed (JStr "none") (JWS.default_allowed al)))).
  { intros al Hn. apply serialize_compact_refused; [assumption|].
    apply py_in_not_In; assumption. }
  assert (Hdes : forall al,
     exists e, outcome (JWS.deserialize_compact (I := model) value key al) = inl e).
  { intros al. rewrite deserialize_compact_unfold.
    cbn [JWS.extract_compact JWS.to_bytes JWSModel.imports]. rewrite He.
    destruct (validate_compact_none obj key al Hr Ho) as [e E].
    exists e. cbn [outcome snd] in *. rewrite E. reflexivity. }
  repeat split.
  - apply Hser; assumption.
  - apply deserialize_compact_not_allowed with (obj := obj); try assumption.
    apply py_in_not_In; assumption.
  - intros _. apply Hdes.
  - destruct (Hser None Hdef) as (e & E & _). exists e. rewrite E. reflexivity.
  - apply Hdes.
Qed.



(** The run of [serialize_compact] up to the signing, which decides. *)
Lemma serialize_compact_signing h p key k allowed a algorithm :
  JWSModel.check_header h ["alg"] = inr tt ->
  dict_get "alg" h = Some (JStr a) ->
  In a (JWS.default_allowed allowed) ->
  JwkModel.guess_key_with key h (Some "sign") = inr k ->
  JwkModel.check_use k "sig" = inr tt ->
  dict_get a (JWS.JWS_REGISTRY (I := model)) = Some algorithm ->
  JWS.serialize_compact (I := model) h p key allowed
  = (serialize_compact_calls h p (JStr a) a,
     JWSModel.CompactData_sign (new_CompactData h p) algorithm k).
Proof.
  intros Hc Ha Hin Hg Hu Hr.
  rewrite (serialize_compact_run (I := model) h p key allowed a k algorithm);
    try assumption.
  unfold serialize_compact_calls. rewrite (registry_lookup _ _ Hr). reflexivity.
Qed.


(** C7.  Whenever [serialize_compact] returns, what it returns is
    b64url(compact_json(header)), a dot, b64url(payload), a dot and
    b64url(signature), where the signature is the one the algorithm
    registered under the header's [alg] computes, with the resolved key,
    over b64url(compact_json(header)), a dot, b64url(payload). *)
Theorem serialize_compact_format
    (h : Header) (p : bytes) (key : KeyFlexible)
    (allowed : option (list string)) (t : list event) (out : bytes) :
  JWS.serialize_compact (I := model) h p key allowed = (t, inr out) ->
  exists a algorithm k sig,
    dict_get "alg" h = Some (JStr a)
    /\ dict_get a (JWS.JWS_REGISTRY (I := model)) = Some algorithm
    /\ JwkModel.guess_key_with key h (Some "sign") = inr k
    /\ alg_sign algorithm
         (urlsafe_b64encode (compact_json h) ++ "." ++ urlsafe_b64encode p) k
       = inr sig
    /\ out = urlsafe_b64encode (compact_json h) ++ "."
             ++ urlsafe_b64encode p ++ "." ++ urlsafe_b64encode sig.
Proof.
  intros H. apply serialize_compact_inv in H
    as (a & k & algorithm & _ & Ha & _ & Hk & _ & Hr & Hs & _).
  cbn [JWS.CompactData_sign JWS.guess_key JWSModel.imports] in Hs, Hk.
  unfold JWSModel.CompactData_sign, JWSModel.make_signing_input, rbind in Hs.
  cbn [header payload new_CompactData] in Hs.
  destruct (JwkModel.check_alg k (alg_name algorithm)); [discriminate|].
  destruct (JwkModel.check_key_op k "sign"); [discriminate|].
  destruct (alg_sign algorithm _ k) as [e|sig] eqn:Esig; [discriminate|].
  inversion Hs; subst out.
  exists a, algorithm, k, sig. repeat split; try assumption.
  rewrite append_assoc. reflexivity.
Qed.

(** ** Round trip of the compact form *)

Lemma split_three (a b c : bytes) :
  contains_byte "." a = false ->
  contains_byte "." b = false ->
  contains_byte "." c = false ->
  split_on "." ((a ++ JWSModel.dot ++ b) ++ JWSModel.dot ++ c) = [a; b; c].
Proof.
  intros Ha Hb Hc. rewrite append_assoc.
  change (JWSModel.dot ++ b) with (String "." b).
  change (JWSModel.dot ++ c) with (String "." c).
  change (String "." b ++ String "." c) with (String "." (b ++ String "." c)).
  rewrite (split_on_app "." a _ Ha), (split_on_app "." b _ Hb), (split_on_whole "." c Hc).
  reflexivity.
Qed.

(** Extracting a token of three segments that decode. *)
Lemma extract_compact_segments (H P S hj : bytes) (h : Header) (p sig : bytes) :
  contains_byte "." H = false ->
  contains_byte "." P = false ->
  contains_byte "." S = false ->
  urlsafe_b64decode H = Some hj ->
  json_loads_object hj = Some h ->
  urlsafe_b64decode P = Some p ->
  urlsafe_b64decode S = Some sig ->
  JWSModel.extract_compact ((H ++ JWSModel.dot ++ P) ++ JWSModel.dot ++ S)
  = inr {| header := h; payload := p; signature := Some sig;
           signing_input := Some (H ++ JWSModel.dot ++ P) |}.
Proof.
  intros HH HP HS EH Eh EP ES. unfold JWSModel.extract_compact.
  rewrite split_three by assumption. rewrite EH, Eh, EP, ES. reflexivity.
Qed.

(** Extracting a token made of a signing input and an encoded signature. *)
Lemma extract_compact_signed (h : Header) (p sig : bytes) :
  json_loads_object (compact_json h) = Some h ->
  JWSModel.extract_compact
    (JWSModel.make_signing_input h p ++ JWSModel.dot ++ urlsafe_b64encode sig)
  = inr {| header := h; payload := p; signature := Some sig;
           signing_input := Some (JWSModel.make_signing_input h p) |}.
Proof.
  intros Hj. unfold JWSModel.make_signing_input.
  apply extract_compact_segments with (hj := compact_json h);
    try apply urlsafe_b64encode_no_dot; try apply urlsafe_b64decode_encode.
  assumption.
Qed.


Lemma deserialize_compact_run value key allowed obj a k algorithm :
  JWSModel.extract_compact (JWSModel.to_bytes value) = inr obj ->
  dict_get "alg" (header obj) = Some (JStr a) ->
  In a (JWS.default_allowed allowed) ->
  JwkModel.guess_key_with key (header obj) (Some "verify") = inr k ->
  JwkModel.check_use k "sig" = inr tt ->
  dict_get a (JWS.JWS_REGISTRY (I := model)) = Some algorithm ->
  outcome (JWS.deserialize_compact (I := model) value key allowed)
  = match JWSModel.CompactData_verify obj algorithm k with
    | inl e => inl e
    | inr true => inr obj
    | inr false => inl BadSignatureError
    end.
Proof.
  intros He Ha Hin Hk Hu Hr. rewrite deserialize_compact_unfold.
  cbn [JWS.extract_compact JWS.to_bytes JWSModel.imports]. rewrite He.
  rewrite (validate_compact_run (I := model) obj key allowed a k algorithm Ha Hin Hk Hu Hr).
  cbn [JWS.CompactData_verify JWSModel.imports outcome snd].
  destruct (JWSModel.CompactData_verify obj algorithm k) as [e|[|]]; reflexivity.
Qed.

(** The round trip, for one run of the algorithm. *)
Lemma compact_round_trip
    (h : Header) (p : bytes) (key : KeyFlexible)
    (allowed : option (list string)) (a : string) (algorithm : JWSAlgorithm)
    (ks kv : Key) (sig : bytes) :
  JWSModel.check_header h ["alg"] = inr tt ->
  json_loads_object (compact_json h) = Some h ->
  dict_get "alg" h = Some (JStr a) ->
  In a (JWS.default_allowed allowed) ->
  dict_get a (JWS.JWS_REGISTRY (I := model)) = Some algorithm ->
  JwkModel.guess_key_with key h (Some "sign") = inr ks ->
  JwkModel.check_use ks "sig" = inr tt ->
  JwkModel.check_alg ks a = inr tt ->
  JwkModel.check_key_op ks "sign" = inr tt ->
  JwkModel.guess_key_with key h (Some "verify") = inr kv ->
  JwkModel.check_use kv "sig" = inr tt ->
  alg_sign algorithm (JWSModel.make_signing_input h p) ks = inr sig ->
  alg_verify algorithm (JWSModel.make_signing_input h p) sig kv = inr true ->
  outcome (JWS.serialize_compact (I := model) h p key allowed)
  = inr (JWSModel.make_signing_input h p ++ JWSModel.dot ++ urlsafe_b64encode sig)
  /\ outcome (JWS.deserialize_compact (I := model)
                (Raw (JWSModel.make_signing_input h p ++ JWSModel.dot
                      ++ urlsafe_b64encode sig)) key allowed)
     = inr {| header := h; payload := p; signature := Some sig;
              signing_input := Some (JWSModel.make_signing_input h p) |}.
Proof.
  intros Hc Hj Ha Hin Hr Hks Hus Hca Hco Hkv Huv Hsign Hver. split.
  - rewrite (serialize_compact_signing h p key ks allowed a algorithm);
      try assumption.
    cbn [outcome snd]. unfold JWSModel.CompactData_sign, rbind.
    cbn [header payload new_CompactData].
    rewrite (registry_lookup _ _ Hr), Hca, Hco, Hsign. reflexivity.
  - rewrite (deserialize_compact_run
               (Raw (JWSModel.make_signing_input h p ++ JWSModel.dot
                     ++ urlsafe_b64encode sig))
               key allowed _ a kv algorithm
               (extract_compact_signed h p sig Hj)); try assumption.
    unfold JWSModel.CompactData_verify. cbn [signing_input signature].
    rewrite Hver. reflexivity.
Qed.



(** C8, as amended.  With HS256 registered: [serialize_compact] of the
    header with the single member [alg] = "HS256", the payload "i" and the
    key "secret" returns eyJhbGciOiJIUzI1NiJ9.aQ. followed by the
    43-character base64url HMAC-SHA-256 signature, and
    [deserialize_compact] of that value with the same key returns an
    object with the payload "i". *)
Theorem hs256_literal_scenario :
  dict_get "HS256" (JWS.JWS_REGISTRY (I := model)) = Some JWSModel.HS256 ->
  outcome (JWS.serialize_compact (I := model)
             [("alg", JStr "HS256")] "i" (RawKey "secret") None)
  = inr ("eyJhbGciOiJIUzI1NiJ9.aQ." ++ "ykJjBUzgjyTygc7gjHM8emwLYvpqGRNIQvpTMHfZzI4")
  /\ String.length "ykJjBUzgjyTygc7gjHM8emwLYvpqGRNIQvpTMHfZzI4" = 43
  /\ is_b64 "ykJjBUzgjyTygc7gjHM8emwLYvpqGRNIQvpTMHfZzI4" = true
  /\ exists obj,
       outcome (JWS.deserialize_compact (I := model)
                  (Raw ("eyJhbGciOiJIUzI1NiJ9.aQ."
                        ++ "ykJjBUzgjyTygc7gjHM8emwLYvpqGRNIQvpTMHfZzI4"))
                  (RawKey "secret") None)
       = inr obj
       /\ payload obj = "i".
Proof.
  intros Hr.
  destruct (compact_round_trip
              [("alg", JStr "HS256")] "i" (RawKey "secret") None "HS256"
              JWSModel.HS256 (JwkModel.import_oct_key "secret")
              (JwkModel.import_oct_key "secret")
              (hmac_sha256 "secret" "eyJhbGciOiJIUzI1NiJ9.aQ"))
    as [Hs Hd];
    [ reflexivity | reflexivity | reflexivity | cbn; auto | assumption
    | reflexivity | reflexivity | reflexivity | reflexivity | reflexivity
    | reflexivity | vm_compute; reflexivity | vm_compute; reflexivity | ].
  assert (Et : JWSModel.make_signing_input [("alg", JStr "HS256")] "i"
               ++ JWSModel.dot
               ++ urlsafe_b64encode (hmac_sha256 "secret" "eyJhbGciOiJIUzI1NiJ9.aQ")
               = "eyJhbGciOiJIUzI1NiJ9.aQ."
                 ++ "ykJjBUzgjyTygc7gjHM8emwLYvpqGRNIQvpTMHfZzI4")
    by (vm_compute; reflexivity).
  rewrite Et in Hs, Hd.
  repeat split; try reflexivity; try assumption.
  eexists. split; [exact Hd|reflexivity].
Qed.

End OverTheModel.
(** Under HS256 the round trip needs no assumption on the run: for every
    header of strings with distinct names that the header check accepts
    and whose [alg] is "HS256", every payload and every secret. *)
Lemma hs256_round_trip
    (algs : list JWSAlgorithm) (es256k : JWSAlgorithm)
    (h : list (string * string)) (p secret : bytes)
    (allowed : option (list string)) :
  NoDup (map fst h) ->
  JWSModel.check_header (string_header h) ["alg"] = inr tt ->
  dict_get "alg" (string_header h) = Some (JStr "HS256") ->
  In "HS256" (JWS.default_allowed allowed) ->
  dict_get "HS256" (JWS.JWS_REGISTRY (I := JWSModel.imports algs es256k))
  = Some JWSModel.HS256 ->
  exists token obj,
    outcome (JWS.serialize_compact (I := JWSModel.imports algs es256k)
               (string_header h) p (RawKey secret) allowed) = inr token
    /\ outcome (JWS.deserialize_compact (I := JWSModel.imports algs es256k)
                  (Raw token) (RawKey secret) allowed) = inr obj
    /\ header obj = string_header h /\ payload obj = p.
Proof.
  intros Hnd Hc Ha Hin Hr.
  destruct (compact_round_trip algs es256k (string_header h) p (RawKey secret)
              allowed "HS256"
              JWSModel.HS256 (JwkModel.import_oct_key secret)
              (JwkModel.import_oct_key secret)
              (hmac_sha256 secret (JWSModel.make_signing_input (string_header h) p)))
    as [Hs Hd]; try assumption; try reflexivity.
  - apply json_round_trip_string_header; assumption.
  - cbn [alg_verify JWSModel.HS256 kty material JwkModel.import_oct_key].
    rewrite String.eqb_refl. reflexivity.
  - eexists; eexists. split; [exact Hs|]. split; [exact Hd|]. split; reflexivity.
Qed.

Lemma none_is_rejected_witness :
  (~ In "none" (JWS.default_allowed (Some ["HS256"])) ->
     JWS.serialize_compact (I := JWSModel.scenario)
       [("alg", JStr "none")] "i" (RawKey "secret") (Some ["HS256"])
     = ([Call_check_header ["alg"]],
        inl (ValueError (AlgorithmNotAllowed (JStr "none") ["HS256"])))
     /\ JWS.deserialize_compact (I := JWSModel.scenario)
          (Text "eyJhbGciOiJub25lIn0.aQ.") (RawKey "secret") (Some ["HS256"])
        = ([Call_extract_compact],
           inl (ValueError (AlgorithmNotAllowed (JStr "none") ["HS256"]))))
  /\ exists e,
       outcome (JWS.deserialize_compact (I := JWSModel.scenario)
                  (Text "eyJhbGciOiJub25lIn0.aQ.") (RawKey "secret") None) = inl e.
Proof.
  destruct (none_is_rejected
              [JWSModel.none; JWSModel.HS256; JWSModel.unmodelled "RS256";
               JWSModel.unmodelled "ES256"] (JWSModel.unmodelled "ES256K")
              [("alg", JStr "none")] "i" (RawKey "secret") (Some ["HS256"])
              (Text "eyJhbGciOiJub25lIn0.aQ.")
              {| header := [("alg", JStr "none")]; payload := "i";
                 signature := Some EmptyString;
                 signing_input := Some "eyJhbGciOiJub25lIn0.aQ" |}
              eq_refl eq_refl eq_refl eq_refl) as (H1 & _ & _ & _).
  destruct (none_is_rejected
              [JWSModel.none; JWSModel.HS256; JWSModel.unmodelled "RS256";
               JWSModel.unmodelled "ES256"] (JWSModel.unmodelled "ES256K")
              [("alg", JStr "none")] "i" (RawKey "secret") None
              (Text "eyJhbGciOiJub25lIn0.aQ.")
              {| header := [("alg", JStr "none")]; payload := "i";
                 signature := Some EmptyString;
                 signing_input := Some "eyJhbGciOiJub25lIn0.aQ" |}
              eq_refl eq_refl eq_refl eq_refl) as (_ & _ & _ & H4).
  split; [|exact H4].
  intros Hn. destruct (H1 Hn) as [(e & E & He) Hd].
  split; [|exact Hd]. rewrite (He eq_refl) in E. exact E.
Defined.



Lemma serialize_compact_format_witness :
  exists a algorithm k sig,
    dict_get "alg" [("alg", JStr "HS256")] = Some (JStr a)
    /\ dict_get a (JWS.JWS_REGISTRY (I := JWSModel.scenario)) = Some algorithm
    /\ JwkModel.guess_key_with (RawKey "secret") [("alg", JStr "HS256")] (Some "sign")
       = inr k
    /\ alg_sign algorithm
         (urlsafe_b64encode (compact_json [("alg", JStr "HS256")]) ++ "."
          ++ urlsafe_b64encode "i") k
       = inr sig
    /\ "eyJhbGciOiJIUzI1NiJ9.aQ.ykJjBUzgjyTygc7gjHM8emwLYvpqGRNIQvpTMHfZzI4"
       = urlsafe_b64encode (compact_json [("alg", JStr "HS256")]) ++ "."
         ++ urlsafe_b64encode "i" ++ "." ++ urlsafe_b64encode sig.
Proof.
  eapply (serialize_compact_format
            [JWSModel.none; JWSModel.HS256; JWSModel.unmodelled "RS256";
             JWSModel.unmodelled "ES256"] (JWSModel.unmodelled "ES256K")
            [("alg", JStr "HS256")] "i" (RawKey "secret") None).
  vm_compute. reflexivity.
Defined.


Lemma hs256_literal_scenario_witness :
  outcome (JWS.serialize_compact (I := JWSModel.scenario)
             [("alg", JStr "HS256")] "i" (RawKey "secret") None)
  = inr ("eyJhbGciOiJIUzI1NiJ9.aQ." ++ "ykJjBUzgjyTygc7gjHM8emwLYvpqGRNIQvpTMHfZzI4").
Proof.
  refine (proj1 (hs256_literal_scenario
                   [JWSModel.none; JWSModel.HS256; JWSModel.unmodelled "RS256";
                    JWSModel.unmodelled "ES256"] (JWSModel.unmodelled "ES256K")
                   eq_refl)).
Defined.


(** C8 as stated does not hold: the signature segment of the HS256 token
    has 43 characters (32 bytes of HMAC-SHA-256), not 28. *)
Lemma hs256_signature_is_not_28_characters :
  ~ exists sig,
      String.length sig = 28
      /\ outcome (JWS.serialize_compact (I := JWSModel.scenario)
                    [("alg", JStr "HS256")] "i" (RawKey "secret") None)
         = inr ("eyJhbGciOiJIUzI1NiJ9.aQ." ++ sig).
Proof.
  intros (sig & Hlen & H). vm_compute in H.
  inversion H; subst sig. discriminate Hlen.
Qed.

(* ------------------------------------------------------------------ *)
(** ** Statements about jwe.py alone: the keys of the recipients *)

Section JWEFacts.
Context {I : JWE.Imports}.

Lemma bind_call_calls {A : Type} (ev : event) (k : Key) (m : M A) :
  calls (call ev (inr k) ;;; m) = ev :: calls m.
Proof. destruct m as [t r]. reflexivity. Qed.

Lemma bind_call_outcome {A : Type} (ev : event) (k : Key) (m : M A) :
  outcome (call ev (inr k) ;;; m) = outcome m.
Proof. destruct m as [t r]. reflexivity. Qed.


(** Every call the loop of [encrypt_json] records is [guess_key] for a
    recipient of the list that had no key. *)
Lemma encrypt_json_keys_calls (public_key : KeyFlexible) (rs : list Recipient) :
  forall ev, In ev (calls (snd (JWE.encrypt_json_keys public_key rs))) ->
             exists r, In r rs /\ recipient_key r = None /\ ev = guess_for r.
Proof.
  induction rs as [|r rest IH]; cbn [JWE.encrypt_json_keys snd]; intros ev Hev.
  - destruct Hev.
  - destruct (recipient_key r) as [k0|] eqn:Ek.
    + destruct (JWE.encrypt_json_keys public_key rest) as [rest' m]. cbn [snd] in *.
      destruct (IH ev Hev) as (x & Hx & Hn & He).
      exists x. repeat split; [right|..]; assumption.
    + destruct (JWE.guess_key public_key r) as [e|k] eqn:Eg.
      * cbn in Hev. destruct Hev as [<-|[]].
        exists r. repeat split; [left; reflexivity|assumption].
      * destruct (JWE.encrypt_json_keys public_key rest) as [rest' m]. cbn [snd] in *.
        rewrite bind_call_calls in Hev. destruct Hev as [<-|Hev].
        -- exists r. repeat split; [left; reflexivity|assumption].
        -- destruct (IH ev Hev) as (x & Hx & Hn & He).
           exists x. repeat split; [right|..]; assumption.
Qed.





End JWEFacts.







(* ------------------------------------------------------------------ *)
(** ** The JWE compact form over the modelled helpers *)


(** *** The Galois/Counter Mode decrypts what it encrypted *)










(* ------------------------------------------------------------------ *)
(** * Further properties of the facades, whatever the helpers are *)

(** ** The registry of jws.py *)

(** X1.  What [JWS_REGISTRY] holds, whatever [JWS_ALGORITHMS] is: an
    algorithm found under a name has that name; [ES256K] is always found
    under its own name; and an algorithm of [JWS_ALGORITHMS] is found
    under its name when no later one of the list, nor [ES256K], has the
    same name. *)
Theorem registry_contents {I : JWS.Imports} :
  (forall s a, dict_get s JWS.JWS_REGISTRY = Some a -> alg_name a = s)
  /\ dict_get (alg_name JWS.ES256K) JWS.JWS_REGISTRY = Some JWS.ES256K
  /\ forall before a after,
       JWS.JWS_ALGORITHMS = (before ++ a :: after)%list ->
       ~ In (alg_name a) (map alg_name after) ->
       alg_name a <> alg_name JWS.ES256K ->
       dict_get (alg_name a) JWS.JWS_REGISTRY = Some a.
Proof.
  split; [exact registry_lookup|].
  unfold JWS.JWS_REGISTRY. split.
  - rewrite dict_get_set, String.eqb_refl. reflexivity.
  - intros before a after E Hafter Hne. rewrite dict_get_set.
    destruct (String.eqb_spec (alg_name a) (alg_name JWS.ES256K)) as [H|_];
      [contradiction|].
    rewrite E, fold_left_app. cbn [fold_left].
    rewrite fold_register_other by assumption.
    rewrite dict_get_set, String.eqb_refl. reflexivity.
Qed.

(** X1 on the registry of the literal scenarios: HS256 is found. *)
Lemma registry_contents_witness :
  dict_get "HS256" (JWS.JWS_REGISTRY (I := JWSModel.scenario)) = Some JWSModel.HS256.
Proof.
  refine (proj2 (proj2 (registry_contents (I := JWSModel.scenario)))
            [JWSModel.none] JWSModel.HS256
            [JWSModel.unmodelled "RS256"; JWSModel.unmodelled "ES256"]
            eq_refl _ _).
  - cbn. intros [H|[H|[]]]; discriminate.
  - discriminate.
Defined.

(** ** The signing and the verifying path of jws.py *)

(** Walks through a run of a JWS facade function, one case for each place
    where it can stop. *)
Ltac walk_jws :=
  unfold JWS.deserialize_compact, JWS.serialize_compact, JWS.validate_compact,
    JWS.registry_getitem, getitem, bind, call, raise, ret, calls, outcome;
  repeat (cbn [fst snd negb app];
          match goal with
          | |- context [match ?x with _ => _ end] =>
              lazymatch x with
              | context [match _ with _ => _ end] => fail
              | _ => destruct x eqn:?
              end
          end).

Section JWSMore.
Context {I : JWS.Imports}.

(** X2.  On the verifying path nothing checks the header first: a message
    whose header has no [alg] makes [validate_compact] raise the
    [KeyError] of the subscript [header["alg"]] with no helper called, and
    [deserialize_compact] raise it once the token is extracted. *)
Theorem verification_without_alg (value : AnyStr) (obj : CompactData)
    (key : KeyFlexible) (allowed : option (list string)) :
  JWS.extract_compact (JWS.to_bytes value) = inr obj ->
  dict_get "alg" (header obj) = None ->
  JWS.validate_compact obj key allowed = ([], inl (KeyError (JStr "alg")))
  /\ JWS.deserialize_compact value key allowed
     = ([Call_extract_compact], inl (KeyError (JStr "alg"))).
Proof.
  intros He Ha.
  assert (V : JWS.validate_compact obj key allowed = ([], inl (KeyError (JStr "alg")))).
  { unfold JWS.validate_compact, getitem. rewrite Ha. reflexivity. }
  split; [exact V|].
  rewrite deserialize_compact_unfold, He, V. reflexivity.
Qed.

(** X3.  An algorithm that is allowed but not registered: the [KeyError]
    of the subscript [JWS_REGISTRY[alg]] comes after the key was resolved
    and its use checked, and nothing is signed or verified. *)
Theorem unregistered_algorithm (h : Header) (p : bytes) (obj : CompactData)
    (key : KeyFlexible) (allowed : option (list string)) (a : string) :
  dict_get a JWS.JWS_REGISTRY = None ->
  In a (JWS.default_allowed allowed) ->
  (forall k,
     JWS.check_header h ["alg"] = inr tt ->
     dict_get "alg" h = Some (JStr a) ->
     JWS.guess_key key (new_CompactData h p) "sign" = inr k ->
     JWS.check_use k "sig" = inr tt ->
     JWS.serialize_compact h p key allowed
     = (firstn 4 (serialize_compact_calls h p (JStr a) a), inl (KeyError (JStr a))))
  /\ (forall k,
        dict_get "alg" (header obj) = Some (JStr a) ->
        JWS.guess_key key obj "verify" = inr k ->
        JWS.check_use k "sig" = inr tt ->
        JWS.validate_compact obj key allowed
        = (firstn 3 (validate_compact_calls obj (JStr a) a), inl (KeyError (JStr a)))).
Proof.
  intros Hr Hin. apply py_in_In in Hin. split.
  - intros k Hc Ha Hg Hu. unfold JWS.serialize_compact, JWS.registry_getitem, getitem.
    rewrite Hc, Ha. cbn [bind call ret]. rewrite Hin. cbn [negb].
    rewrite Hg. cbn [bind call]. rewrite Hu, Hr. reflexivity.
  - intros k Ha Hg Hu. unfold JWS.validate_compact, JWS.registry_getitem, getitem.
    rewrite Ha. cbn [bind call ret]. rewrite Hin. cbn [negb].
    rewrite Hg. cbn [bind call]. rewrite Hu, Hr. reflexivity.
Qed.

(** X4.  [serialize_compact] returns exactly when every step goes
    through: the header is accepted, its [alg] is a string of the
    allow-list, the key resolves for signing and may be used for
    signatures, the algorithm is registered and signs.  What is returned
    is what [sign] returned, for the message built from the header and the
    payload as given. *)
Theorem serialize_compact_returns_iff (h : Header) (p : bytes) (key : KeyFlexible)
    (allowed : option (list string)) (out : bytes) :
  outcome (JWS.serialize_compact h p key allowed) = inr out
  <-> exists a k algorithm,
        JWS.check_header h ["alg"] = inr tt
        /\ dict_get "alg" h = Some (JStr a)
        /\ In a (JWS.default_allowed allowed)
        /\ JWS.guess_key key (new_CompactData h p) "sign" = inr k
        /\ JWS.check_use k "sig" = inr tt
        /\ dict_get a JWS.JWS_REGISTRY = Some algorithm
        /\ JWS.CompactData_sign (new_CompactData h p) algorithm k = inr out.
Proof.
  split.
  - destruct (JWS.serialize_compact h p key allowed) as [t r] eqn:E.
    cbn [outcome snd]. intros ->.
    apply serialize_compact_inv in E
      as (a & k & algorithm & H1 & H2 & H3 & H4 & H5 & H6 & H7 & _).
    exists a, k, algorithm. repeat split; assumption.
  - intros (a & k & algorithm & H1 & H2 & H3 & H4 & H5 & H6 & H7).
    rewrite (serialize_compact_run h p key allowed a k algorithm H1 H2 H3 H4 H5 H6).
    exact H7.
Qed.

(** X5.  [deserialize_compact] returns exactly when the token extracts
    and every step of the validation goes through, the verification
    answering [True]; it then returns the extracted object itself. *)
Theorem deserialize_compact_returns_iff (value : AnyStr) (key : KeyFlexible)
    (allowed : option (list string)) (obj : CompactData) :
  outcome (JWS.deserialize_compact value key allowed) = inr obj
  <-> JWS.extract_compact (JWS.to_bytes value) = inr obj
      /\ exists a k algorithm,
           dict_get "alg" (header obj) = Some (JStr a)
           /\ In a (JWS.default_allowed allowed)
           /\ JWS.guess_key key obj "verify" = inr k
           /\ JWS.check_use k "sig" = inr tt
           /\ dict_get a JWS.JWS_REGISTRY = Some algorithm
           /\ JWS.CompactData_verify obj algorithm k = inr true.
Proof.
  rewrite deserialize_compact_unfold. split.
  - destruct (JWS.extract_compact (JWS.to_bytes value)) as [e|obj'];
      cbn [outcome snd]; [discriminate|].
    destruct (JWS.validate_compact obj' key allowed) as [t [e|[]]] eqn:E;
      cbn [outcome snd]; [discriminate|].
    intros H; inversion H; subst obj'. split; [reflexivity|].
    apply validate_compact_inv in E
      as (a & k & algorithm & H1 & H2 & H3 & H4 & H5 & H6 & _).
    exists a, k, algorithm. repeat split; assumption.
  - intros [He (a & k & algorithm & H1 & H2 & H3 & H4 & H5 & H6)].
    rewrite He.
    rewrite (validate_compact_run obj key allowed a k algorithm H1 H2 H3 H4 H5), H6.
    reflexivity.
Qed.

(** X6.  [serialize_compact] calls its helpers in one order: the header
    check, the key for signing, the use of the key, the registry, the
    signing; it stops at the first that raises, so the calls of a run are
    the first ones of that list.  A helper after the header check is
    called only for an [alg] of the header that is in the allow-list. *)
Theorem serialize_compact_call_order (h : Header) (p : bytes) (key : KeyFlexible)
    (allowed : option (list string)) :
  exists n alg name,
    calls (JWS.serialize_compact h p key allowed)
    = firstn n (serialize_compact_calls h p alg name)
    /\ (1 < n ->
        dict_get "alg" h = Some alg
        /\ py_in alg (JWS.default_allowed allowed) = true).
Proof.
  unfold serialize_compact_calls.
  walk_jws;
    try (exists 1%nat, JNull, ""; split; [reflexivity|lia]);
    match goal with
    | H : negb (py_in _ _) = false |- _ => apply negb_false_iff in H
    end;
    try (eexists 2%nat, _, ""; split; [reflexivity|intros _; split; first [reflexivity|eassumption]]);
    try (eexists 3%nat, _, ""; split; [reflexivity|intros _; split; first [reflexivity|eassumption]]);
    try (eexists 4%nat, _, ""; split; [reflexivity|intros _; split; first [reflexivity|eassumption]]);
    try (eexists 5%nat, _, _; split; [reflexivity|intros _; split; first [reflexivity|eassumption]]).
Qed.

(** X7.  [deserialize_compact] extracts first, then asks for the key for
    verifying, checks its use, looks the algorithm up and verifies, and
    stops at the first that raises.  A helper after the extraction is
    called only for an [alg] of the extracted header that is in the
    allow-list. *)
Theorem deserialize_compact_call_order (value : AnyStr) (key : KeyFlexible)
    (allowed : option (list string)) :
  calls (JWS.deserialize_compact value key allowed) = [Call_extract_compact]
  \/ exists obj n alg name,
       JWS.extract_compact (JWS.to_bytes value) = inr obj
       /\ calls (JWS.deserialize_compact value key allowed)
          = Call_extract_compact :: firstn n (validate_compact_calls obj alg name)
       /\ 0 < n
       /\ dict_get "alg" (header obj) = Some alg
       /\ py_in alg (JWS.default_allowed allowed) = true.
Proof.
  unfold validate_compact_calls.
  walk_jws;
    try (left; reflexivity);
    match goal with
    | H : negb (py_in _ _) = false |- _ => apply negb_false_iff in H
    end;
    right; eexists;
    try (eexists 1%nat, _, ""; repeat split; first [reflexivity|eassumption|lia]);
    try (eexists 2%nat, _, ""; repeat split; first [reflexivity|eassumption|lia]);
    try (eexists 3%nat, _, ""; repeat split; first [reflexivity|eassumption|lia]);
    try (eexists 4%nat, _, _; repeat split; first [reflexivity|eassumption|lia]).
Qed.

(** X8.  Whenever [serialize_compact] signs, the algorithm that signs is
    the one the header names, its name is in the allow-list, the key is
    the one resolved for signing and accepted for signatures, and the
    result of the function is the result of that signing. *)
Theorem signing_algorithm_is_allowed (h : Header) (p : bytes) (key : KeyFlexible)
    (allowed : option (list string)) (name : string) :
  In (Call_sign name) (calls (JWS.serialize_compact h p key allowed)) ->
  dict_get "alg" h = Some (JStr name)
  /\ In name (JWS.default_allowed allowed)
  /\ exists k algorithm,
       JWS.guess_key key (new_CompactData h p) "sign" = inr k
       /\ JWS.check_use k "sig" = inr tt
       /\ dict_get name JWS.JWS_REGISTRY = Some algorithm
       /\ outcome (JWS.serialize_compact h p key allowed)
          = JWS.CompactData_sign (new_CompactData h p) algorithm k.
Proof.
  walk_jws; cbn [In]; intros H;
    repeat (destruct H as [H|H]; try discriminate H); try contradiction.
  all: injection H as <-.
  all: match goal with
       | H : negb (py_in _ _) = false |- _ => apply negb_false_iff, py_in_In in H
       end.
  all: match goal with
       | H : dict_get _ JWS.JWS_REGISTRY = Some _ |- _ =>
           pose proof (registry_lookup _ _ H) as Hn; rewrite Hn in *
       end.
  all: match goal with
       | u : unit |- _ => destruct u
       end.
  all: repeat match goal with u : unit |- _ => destruct u end.
  all: repeat split; try assumption.
  all: eexists _, _; repeat split; try eassumption; reflexivity.
Qed.

(** X9.  Whenever [validate_compact] reaches the verification, the
    algorithm that verifies is the one the header names, its name is in
    the allow-list, the key is the one resolved for verifying, and the
    answer alone decides: [True] returns, [False] raises
    [BadSignatureError], an exception of the verification passes
    through. *)
Theorem verification_decides (obj : CompactData) (key : KeyFlexible)
    (allowed : option (list string)) (name : string) :
  In (Call_verify name) (calls (JWS.validate_compact obj key allowed)) ->
  dict_get "alg" (header obj) = Some (JStr name)
  /\ In name (JWS.default_allowed allowed)
  /\ exists k algorithm,
       JWS.guess_key key obj "verify" = inr k
       /\ JWS.check_use k "sig" = inr tt
       /\ dict_get name JWS.JWS_REGISTRY = Some algorithm
       /\ outcome (JWS.validate_compact obj key allowed)
          = match JWS.CompactData_verify obj algorithm k with
            | inl e => inl e
            | inr true => inr tt
            | inr false => inl BadSignatureError
            end.
Proof.
  walk_jws; cbn [In]; intros H;
    repeat (destruct H as [H|H]; try discriminate H); try contradiction.
  all: injection H as <-.
  all: match goal with
       | H : negb (py_in _ _) = false |- _ => apply negb_false_iff, py_in_In in H
       end.
  all: match goal with
       | H : dict_get _ JWS.JWS_REGISTRY = Some _ |- _ =>
           pose proof (registry_lookup _ _ H) as Hn; rewrite Hn in *
       end.
  all: repeat match goal with u : unit |- _ => destruct u end.
  all: repeat split; try assumption.
  all: eexists _, _; repeat split; try eassumption.
  all: match goal with
       | H : JWS.CompactData_verify _ _ _ = _ |- _ => rewrite H
       end; try reflexivity.
  all: match goal with
       | H : negb ?b = _ |- _ => destruct b; try discriminate H; reflexivity
       end.
Qed.

(** X10.  The allow-list is a gate and nothing more: two runs on a header
    whose [alg] is in both allow-lists are the same run, for signing and
    for verifying. *)
Theorem allow_list_is_only_a_gate (h : Header) (p : bytes) (obj : CompactData)
    (key : KeyFlexible) (allowed allowed' : option (list string)) (a b : string) :
  dict_get "alg" h = Some (JStr a) ->
  In a (JWS.default_allowed allowed) ->
  In a (JWS.default_allowed allowed') ->
  dict_get "alg" (header obj) = Some (JStr b) ->
  In b (JWS.default_allowed allowed) ->
  In b (JWS.default_allowed allowed') ->
  JWS.serialize_compact h p key allowed = JWS.serialize_compact h p key allowed'
  /\ JWS.validate_compact obj key allowed = JWS.validate_compact obj key allowed'.
Proof.
  intros Ha H1 H2 Hb H3 H4.
  apply py_in_In in H1, H2, H3, H4.
  unfold JWS.serialize_compact, JWS.validate_compact, getitem.
  rewrite Ha, Hb. cbn [bind ret]. rewrite H1, H2, H3, H4. split; reflexivity.
Qed.

(** Picks the case of a disjunction that the hypotheses of a run give. *)
Ltac pick_case :=
  first [ reflexivity | eassumption
        | split; [pick_case|pick_case]
        | left; pick_case | right; pick_case
        | eexists; pick_case ].

Ltac settle_run :=
  repeat match goal with
         | u : unit |- _ => destruct u
         | H : negb (py_in _ _) = true |- _ => apply negb_true_iff in H
         | H : negb (py_in _ _) = false |- _ => apply negb_false_iff in H
         | H : negb ?b = _ |- _ => is_var b; destruct b; cbn [negb] in H
         | H : py_in _ _ = true |- _ => apply py_in_str in H as (? & ? & ?)
         end;
  try discriminate; try congruence.

(** X11.  Every exception of [serialize_compact] is one of seven: that of
    [check_header]; the [KeyError] of a header without [alg]; the
    not-allowed [ValueError]; that of [guess_key]; that of [check_use];
    the [KeyError] of an allowed name that is not registered; that of the
    signing. *)
Theorem serialize_compact_raises (h : Header) (p : bytes) (key : KeyFlexible)
    (allowed : option (list string)) (e : exn) :
  outcome (JWS.serialize_compact h p key allowed) = inl e ->
  JWS.check_header h ["alg"] = inl e
  \/ (dict_get "alg" h = None /\ e = KeyError (JStr "alg"))
  \/ (exists x,
        dict_get "alg" h = Some x
        /\ py_in x (JWS.default_allowed allowed) = false
        /\ e = ValueError (AlgorithmNotAllowed x (JWS.default_allowed allowed)))
  \/ JWS.guess_key key (new_CompactData h p) "sign" = inl e
  \/ (exists k,
        JWS.guess_key key (new_CompactData h p) "sign" = inr k
        /\ JWS.check_use k "sig" = inl e)
  \/ (exists a,
        dict_get "alg" h = Some (JStr a)
        /\ dict_get a JWS.JWS_REGISTRY = None
        /\ e = KeyError (JStr a))
  \/ (exists a k algorithm,
        dict_get "alg" h = Some (JStr a)
        /\ dict_get a JWS.JWS_REGISTRY = Some algorithm
        /\ JWS.guess_key key (new_CompactData h p) "sign" = inr k
        /\ JWS.CompactData_sign (new_CompactData h p) algorithm k = inl e).
Proof.
  walk_jws; intros H; settle_run; try (injection H as <-); pick_case.
Qed.

(** X12.  Every exception of [deserialize_compact] is one of eight: that
    of [extract_compact]; the [KeyError] of a header without [alg]; the
    not-allowed [ValueError]; that of [guess_key]; that of [check_use];
    the [KeyError] of an allowed name that is not registered; that of the
    verification; or [BadSignatureError], its own, when the verification
    answered [False]. *)
Theorem deserialize_compact_raises (value : AnyStr) (key : KeyFlexible)
    (allowed : option (list string)) (e : exn) :
  outcome (JWS.deserialize_compact value key allowed) = inl e ->
  JWS.extract_compact (JWS.to_bytes value) = inl e
  \/ exists obj,
       JWS.extract_compact (JWS.to_bytes value) = inr obj
       /\ ((dict_get "alg" (header obj) = None /\ e = KeyError (JStr "alg"))
           \/ (exists x,
                 dict_get "alg" (header obj) = Some x
                 /\ py_in x (JWS.default_allowed allowed) = false
                 /\ e = ValueError (AlgorithmNotAllowed x (JWS.default_allowed allowed)))
           \/ JWS.guess_key key obj "verify" = inl e
           \/ (exists k,
                 JWS.guess_key key obj "verify" = inr k
                 /\ JWS.check_use k "sig" = inl e)
           \/ (exists a,
                 dict_get "alg" (header obj) = Some (JStr a)
                 /\ dict_get a JWS.JWS_REGISTRY = None
                 /\ e = KeyError (JStr a))
           \/ (exists a k algorithm,
                 dict_get "alg" (header obj) = Some (JStr a)
                 /\ dict_get a JWS.JWS_REGISTRY = Some algorithm
                 /\ JWS.guess_key key obj "verify" = inr k
                 /\ (JWS.CompactData_verify obj algorithm k = inl e
                     \/ (JWS.CompactData_verify obj algorithm k = inr false
                         /\ e = BadSignatureError)))).
Proof.
  walk_jws; intros H; settle_run; try (injection H as <-); pick_case.
Qed.

End JWSMore.

(** X2 on a token whose header has a [kid] and no [alg]. *)
Lemma verification_without_alg_witness :
  JWS.deserialize_compact (I := JWSModel.scenario)
    (Text "eyJraWQiOiIxIn0.aQ.c2ln") (RawKey "secret") None
  = ([Call_extract_compact], inl (KeyError (JStr "alg"))).
Proof.
  refine (proj2 (verification_without_alg (I := JWSModel.scenario)
                   (Text "eyJraWQiOiIxIn0.aQ.c2ln")
                   {| header := [("kid", JStr "1")]; payload := "i";
                      signature := Some "sig";
                      signing_input := Some "eyJraWQiOiIxIn0.aQ" |}
                   (RawKey "secret") None _ _)).
  - vm_compute. reflexivity.
  - reflexivity.
Defined.

(** X3 with HS384 allowed by the caller: the scenario registers no such
    algorithm. *)
Lemma unregistered_algorithm_witness :
  JWS.serialize_compact (I := JWSModel.scenario)
    [("alg", JStr "HS384")] "i" (RawKey "secret") (Some ["HS384"])
  = ([Call_check_header ["alg"];
      Call_guess_key (GuestCompactData (new_CompactData [("alg", JStr "HS384")] "i"))
                     (Some "sign");
      Call_check_use "sig"; Lookup_algorithm (JStr "HS384")],
     inl (KeyError (JStr "HS384")))
  /\ JWS.validate_compact (I := JWSModel.scenario)
       (new_CompactData [("alg", JStr "HS384")] "i") (RawKey "secret") (Some ["HS384"])
     = ([Call_guess_key (GuestCompactData (new_CompactData [("alg", JStr "HS384")] "i"))
                        (Some "verify");
         Call_check_use "sig"; Lookup_algorithm (JStr "HS384")],
        inl (KeyError (JStr "HS384"))).
Proof.
  destruct (unregistered_algorithm (I := JWSModel.scenario)
              [("alg", JStr "HS384")] "i" (new_CompactData [("alg", JStr "HS384")] "i")
              (RawKey "secret") (Some ["HS384"]) "HS384")
    as [S V].
  - reflexivity.
  - left. reflexivity.
  - split.
    + apply (S (JwkModel.import_oct_key "secret")); reflexivity.
    + apply (V (JwkModel.import_oct_key "secret")); reflexivity.
Defined.

(** X8 on the literal scenario: HS256 signs, and it is of the default
    allow-list. *)
Lemma signing_algorithm_is_allowed_witness :
  dict_get "alg" [("alg", JStr "HS256")] = Some (JStr "HS256")
  /\ In "HS256" (JWS.default_allowed None).
Proof.
  destruct (signing_algorithm_is_allowed (I := JWSModel.scenario)
              [("alg", JStr "HS256")] "i" (RawKey "secret") None "HS256")
    as (H1 & H2 & _).
  - vm_compute. do 4 right. left. reflexivity.
  - split; assumption.
Defined.

(** X9 on a message under HS256 whose signature is not the key's: the
    verification answers [False]. *)
Lemma verification_decides_witness :
  exists k algorithm,
    dict_get "HS256" (JWS.JWS_REGISTRY (I := JWSModel.scenario)) = Some algorithm
    /\ outcome (JWS.validate_compact (I := JWSModel.scenario)
                  {| header := [("alg", JStr "HS256")]; payload := "i";
                     signature := Some "sig";
                     signing_input := Some "eyJhbGciOiJIUzI1NiJ9.aQ" |}
                  (RawKey "secret") None)
       = match JWS.CompactData_verify (Imports := JWSModel.scenario)
                 {| header := [("alg", JStr "HS256")]; payload := "i";
                    signature := Some "sig";
                    signing_input := Some "eyJhbGciOiJIUzI1NiJ9.aQ" |}
                 algorithm k with
         | inl e => inl e
         | inr true => inr tt
         | inr false => inl BadSignatureError
         end.
Proof.
  destruct (verification_decides (I := JWSModel.scenario)
              {| header := [("alg", JStr "HS256")]; payload := "i";
                 signature := Some "sig";
                 signing_input := Some "eyJhbGciOiJIUzI1NiJ9.aQ" |}
              (RawKey "secret") None "HS256")
    as (_ & _ & k & algorithm & _ & _ & H3 & H4).
  - vm_compute. do 3 right. left. reflexivity.
  - exists k, algorithm. split; assumption.
Defined.

(** X10 on the literal scenario: the default allow-list and a list of
    HS256 alone give the same runs. *)
Lemma allow_list_is_only_a_gate_witness :
  JWS.serialize_compact (I := JWSModel.scenario)
    [("alg", JStr "HS256")] "i" (RawKey "secret") None
  = JWS.serialize_compact (I := JWSModel.scenario)
      [("alg", JStr "HS256")] "i" (RawKey "secret") (Some ["HS256"])
  /\ JWS.validate_compact (I := JWSModel.scenario)
       (new_CompactData [("alg", JStr "HS256")] "i") (RawKey "secret") None
     = JWS.validate_compact (I := JWSModel.scenario)
         (new_CompactData [("alg", JStr "HS256")] "i") (RawKey "secret") (Some ["HS256"]).
Proof.
  apply (allow_list_is_only_a_gate (I := JWSModel.scenario)
           [("alg", JStr "HS256")] "i" (new_CompactData [("alg", JStr "HS256")] "i")
           (RawKey "secret") None (Some ["HS256"]) "HS256" "HS256");
    first [reflexivity | left; reflexivity].
Defined.

(** X11 with an empty key set: the exception is that of [guess_key]. *)
Lemma serialize_compact_raises_witness :
  JWS.guess_key (Imports := JWSModel.scenario) (KeySet [])
    (new_CompactData [("alg", JStr "HS256")] "i") "sign"
  = inl (ValueError (OtherValueError "no key for this message")).
Proof.
  destruct (serialize_compact_raises (I := JWSModel.scenario)
              [("alg", JStr "HS256")] "i" (KeySet []) None
              (ValueError (OtherValueError "no key for this message")) eq_refl)
    as [H|[[H _]|[(x & H & _ & E)|[H|[(k & H & _)|[(a & _ & _ & E)|(a & k & g & _ & _ & H & _)]]]]]];
    first [exact H | discriminate H | discriminate E].
Defined.

(** X12 on a token under HS256 whose signature is not the key's: the
    exception is [BadSignatureError], and no helper raised. *)
Lemma deserialize_compact_raises_witness :
  exists obj k algorithm,
    JWS.extract_compact (Imports := JWSModel.scenario)
      (JWS.to_bytes (Imports := JWSModel.scenario) (Text "eyJhbGciOiJIUzI1NiJ9.aQ.c2ln"))
    = inr obj
    /\ JWS.CompactData_verify (Imports := JWSModel.scenario) obj algorithm k = inr false.
Proof.
  destruct (deserialize_compact_raises (I := JWSModel.scenario)
              (Text "eyJhbGciOiJIUzI1NiJ9.aQ.c2ln") (RawKey "secret") None
              BadSignatureError)
    as [H|(obj & Ho & [[_ E]|[(x & _ & _ & E)|[H|[(k & Hk & H)|[(a & _ & _ & E)|(a & k & g & Ha & Hr & Hk & [H|[H _]])]]]]])].
  - vm_compute. reflexivity.
  - discriminate H.
  - discriminate E.
  - discriminate E.
  - vm_compute in Ho. injection Ho as <-. discriminate H.
  - vm_compute in Ho. injection Ho as <-. injection Hk as <-. discriminate H.
  - discriminate E.
  - vm_compute in Ho. injection Ho as <-. injection Ha as <-.
    injection Hr as <-. injection Hk as <-. discriminate H.
  - exists obj, k, g. split; assumption.
Defined.

(** ** The compact form of jwe.py *)

Section JWEMore.
Context {I : JWE.Imports}.


(** X14.  [encrypt_compact] raises nothing of its own: an exception is
    that of [guess_key], with nothing encrypted; or that of
    [perform_encrypt], with nothing represented; or that of
    [represent_compact].  The calls are made in that order and stop at the
    one that raises. *)
Theorem encrypt_compact_raises (h : Header) (data : bytes)
    (public_key : KeyFlexible) (registry : option JWERegistry)
    (sender_key : option Key) (e : exn) :
  outcome (JWE.encrypt_compact h data public_key registry sender_key) = inl e ->
  (JWE.guess_key public_key (new_Recipient (new_CompactEncryption h data)) = inl e
   /\ calls (JWE.encrypt_compact h data public_key registry sender_key)
      = firstn 1 (encrypt_compact_calls h data))
  \/ (exists k,
        JWE.guess_key public_key (new_Recipient (new_CompactEncryption h data)) = inr k
        /\ snd (JWE.perform_encrypt (Pipeline := JWE.compact_pipeline) JWE.registered (compact_message h data k)
                  (JWE.or_default registry) sender_key) = inl e
        /\ calls (JWE.encrypt_compact h data public_key registry sender_key)
           = firstn 2 (encrypt_compact_calls h data))
  \/ (exists k obj,
        JWE.guess_key public_key (new_Recipient (new_CompactEncryption h data)) = inr k
        /\ JWE.perform_encrypt (Pipeline := JWE.compact_pipeline) JWE.registered (compact_message h data k)
             (JWE.or_default registry) sender_key = (obj, inr tt)
        /\ JWE.represent_compact obj = inl e
        /\ calls (JWE.encrypt_compact h data public_key registry sender_key)
           = firstn 3 (encrypt_compact_calls h data)).
Proof.
  unfold JWE.encrypt_compact, compact_message, encrypt_compact_calls, JWE.in_place,
    bind, call, outcome, calls.
  destruct (JWE.guess_key public_key _) as [e'|k]; cbn [fst snd].
  - intros H; inversion H; subst. left. split; reflexivity.
  - destruct (JWE.perform_encrypt _ _ _ _) as [obj [e'|[]]] eqn:E; cbn [fst snd].
    + intros H; inversion H; subst. right; left. exists k.
      repeat split; rewrite ?E; reflexivity.
    + intros H. right; right. exists k, obj. repeat split; assumption.
Qed.

(** X15.  [decrypt_compact] returns exactly when the value extracts to a
    message with a recipient, the key resolves for that recipient, and
    [perform_decrypt] goes through on the message whose recipient holds
    that key; it returns what [perform_decrypt] returned. *)
Theorem decrypt_compact_returns_iff (value : AnyStr) (private_key : KeyFlexible)
    (registry : option JWERegistry) (sender_key : option Key)
    (out : CompactEncryption) :
  outcome (JWE.decrypt_compact value private_key registry sender_key) = inr out
  <-> exists obj r k,
        JWE.extract_compact (JWE.to_bytes value) = inr obj
        /\ recipient obj = Some r
        /\ JWE.guess_key private_key r = inr k
        /\ JWE.perform_decrypt (Pipeline := JWE.compact_pipeline) JWE.registered
             (set_recipient obj (set_recipient_key r k))
             (JWE.or_default registry) sender_key = inr out.
Proof.
  unfold JWE.decrypt_compact, bind, call, raise, outcome.
  split.
  - destruct (JWE.extract_compact _) as [e|obj]; cbn [snd]; [discriminate|].
    destruct (recipient obj) as [r|] eqn:Er; cbn [snd];
      [|destruct (JWE.guess_key_None private_key); discriminate].
    destruct (JWE.guess_key private_key r) as [e|k] eqn:Ek; cbn [snd]; [discriminate|].
    intros H. exists obj, r, k. repeat split; first [reflexivity|assumption].
  - intros (obj & r & k & -> & -> & -> & H). cbn [snd]. exact H.
Qed.

(** X16.  On a value that extracts to a message with a recipient,
    [decrypt_compact] calls [extract_compact], [guess_key] for that
    recipient and [perform_decrypt], in that order; an exception of
    [guess_key] passes through with nothing decrypted, and otherwise the
    outcome is that of [perform_decrypt]. *)
Theorem decrypt_compact_run (value : AnyStr) (private_key : KeyFlexible)
    (registry : option JWERegistry) (sender_key : option Key)
    (obj : CompactEncryption) (r : Recipient) :
  JWE.extract_compact (JWE.to_bytes value) = inr obj ->
  recipient obj = Some r ->
  JWE.decrypt_compact value private_key registry sender_key
  = match JWE.guess_key private_key r with
    | inl e => (firstn 2 (decrypt_compact_calls r), inl e)
    | inr k =>
        (decrypt_compact_calls r,
         JWE.perform_decrypt (Pipeline := JWE.compact_pipeline) JWE.registered
           (set_recipient obj (set_recipient_key r k))
           (JWE.or_default registry) sender_key)
    end.
Proof.
  intros He Hr. unfold JWE.decrypt_compact, bind, call.
  rewrite He, Hr. destruct (JWE.guess_key private_key r); reflexivity.
Qed.

(** ** The loops of jwe.py over the recipients *)

(** The loop of [encrypt_json] over two lists in a row: when it completes
    on the first, it goes on with the second; when it stops in the first,
    the second is left as it is. *)
Lemma encrypt_json_keys_app (public_key : KeyFlexible) (a b : list Recipient) :
  JWE.encrypt_json_keys public_key (a ++ b)
  = match outcome (snd (JWE.encrypt_json_keys public_key a)) with
    | inr _ =>
        ((fst (JWE.encrypt_json_keys public_key a)
          ++ fst (JWE.encrypt_json_keys public_key b))%list,
         ((calls (snd (JWE.encrypt_json_keys public_key a))
           ++ calls (snd (JWE.encrypt_json_keys public_key b)))%list,
          outcome (snd (JWE.encrypt_json_keys public_key b))))
    | inl e =>
        ((fst (JWE.encrypt_json_keys public_key a) ++ b)%list,
         snd (JWE.encrypt_json_keys public_key a))
    end.
Proof.
  induction a as [|r a IH]; cbn [app JWE.encrypt_json_keys].
  - cbn. destruct (JWE.encrypt_json_keys public_key b) as [rs [t o]]. reflexivity.
  - destruct (recipient_key r).
    + rewrite IH. destruct (JWE.encrypt_json_keys public_key a) as [rs [t [e|u]]];
        reflexivity.
    + destruct (JWE.guess_key public_key r) as [e|k]; [reflexivity|].
      rewrite IH. destruct (JWE.encrypt_json_keys public_key a) as [rs [t [e|u]]];
        reflexivity.
Qed.

Lemma decrypt_json_keys_app (private_key : KeyFlexible) (a b : list Recipient) :
  JWE.decrypt_json_keys private_key (a ++ b)
  = match outcome (snd (JWE.decrypt_json_keys private_key a)) with
    | inr _ =>
        ((fst (JWE.decrypt_json_keys private_key a)
          ++ fst (JWE.decrypt_json_keys private_key b))%list,
         ((calls (snd (JWE.decrypt_json_keys private_key a))
           ++ calls (snd (JWE.decrypt_json_keys private_key b)))%list,
          outcome (snd (JWE.decrypt_json_keys private_key b))))
    | inl e =>
        ((fst (JWE.decrypt_json_keys private_key a) ++ b)%list,
         snd (JWE.decrypt_json_keys private_key a))
    end.
Proof.
  induction a as [|r a IH]; cbn [app JWE.decrypt_json_keys].
  - cbn. destruct (JWE.decrypt_json_keys private_key b) as [rs [t o]]. reflexivity.
  - destruct (JWE.guess_key private_key r) as [e|k]; [reflexivity|].
    rewrite IH. destruct (JWE.decrypt_json_keys private_key a) as [rs [t [e|u]]];
      reflexivity.
Qed.

(** X17.  Both loops go through the recipients from left to right and
    stop at the first exception: over two lists in a row, a loop that
    completes on the first goes on with the second, the calls and the
    recipients of both in a row; a loop that stops in the first leaves the
    second as it is. *)
Theorem key_loops_compose (key : KeyFlexible) (a b : list Recipient) :
  (forall e,
     outcome (snd (JWE.encrypt_json_keys key a)) = inl e ->
     JWE.encrypt_json_keys key (a ++ b)
     = ((fst (JWE.encrypt_json_keys key a) ++ b)%list,
        snd (JWE.encrypt_json_keys key a)))
  /\ (outcome (snd (JWE.encrypt_json_keys key a)) = inr tt ->
      JWE.encrypt_json_keys key (a ++ b)
      = ((fst (JWE.encrypt_json_keys key a)
          ++ fst (JWE.encrypt_json_keys key b))%list,
         ((calls (snd (JWE.encrypt_json_keys key a))
           ++ calls (snd (JWE.encrypt_json_keys key b)))%list,
          outcome (snd (JWE.encrypt_json_keys key b)))))
  /\ (forall e,
        outcome (snd (JWE.decrypt_json_keys key a)) = inl e ->
        JWE.decrypt_json_keys key (a ++ b)
        = ((fst (JWE.decrypt_json_keys key a) ++ b)%list,
           snd (JWE.decrypt_json_keys key a)))
  /\ (outcome (snd (JWE.decrypt_json_keys key a)) = inr tt ->
      JWE.decrypt_json_keys key (a ++ b)
      = ((fst (JWE.decrypt_json_keys key a)
          ++ fst (JWE.decrypt_json_keys key b))%list,
         ((calls (snd (JWE.decrypt_json_keys key a))
           ++ calls (snd (JWE.decrypt_json_keys key b)))%list,
          outcome (snd (JWE.decrypt_json_keys key b))))).
Proof.
  repeat split; intros; rewrite ?encrypt_json_keys_app, ?decrypt_json_keys_app;
    match goal with H : outcome _ = _ |- _ => rewrite H end; reflexivity.
Qed.

(** After a complete run of the loop of [encrypt_json] every recipient has
    a key. *)
Lemma encrypt_json_keys_all_set (public_key : KeyFlexible) (rs : list Recipient) :
  outcome (snd (JWE.encrypt_json_keys public_key rs)) = inr tt ->
  all_set (fst (JWE.encrypt_json_keys public_key rs)) = true.
Proof.
  induction rs as [|r rs IH]; cbn [JWE.encrypt_json_keys]; [reflexivity|].
  destruct (recipient_key r) as [k0|] eqn:Ek.
  - destruct (JWE.encrypt_json_keys public_key rs) as [rs' m]. cbn [fst snd] in *.
    intros H. unfold all_set. cbn [forallb]. unfold unset at 1. rewrite Ek.
    cbn [negb andb]. apply IH, H.
  - destruct (JWE.guess_key public_key r) as [e|k]; [discriminate|].
    destruct (JWE.encrypt_json_keys public_key rs) as [rs' m]. cbn [fst snd] in *.
    rewrite bind_call_outcome. intros H. unfold all_set. cbn [forallb].
    unfold unset at 1. cbn [recipient_key set_recipient_key negb andb]. apply IH, H.
Qed.

(** On recipients that all have a key, the loop of [encrypt_json] asks
    nothing and changes nothing. *)
Lemma encrypt_json_keys_set (public_key : KeyFlexible) (rs : list Recipient) :
  all_set rs = true ->
  JWE.encrypt_json_keys public_key rs = (rs, ret tt).
Proof.
  unfold all_set. induction rs as [|r rs IH]; cbn [JWE.encrypt_json_keys forallb];
    [reflexivity|].
  unfold unset at 1. destruct (recipient_key r); cbn [negb andb]; [|discriminate].
  intros H. rewrite (IH H). reflexivity.
Qed.

(** X18.  The loop of [encrypt_json] is idempotent: once it has
    completed, every recipient has a key, and a second run, with whatever
    key, calls [guess_key] for none and changes none. *)
Theorem encrypt_json_keys_idempotent (public_key other_key : KeyFlexible)
    (rs : list Recipient) :
  outcome (snd (JWE.encrypt_json_keys public_key rs)) = inr tt ->
  all_set (fst (JWE.encrypt_json_keys public_key rs)) = true
  /\ JWE.encrypt_json_keys other_key (fst (JWE.encrypt_json_keys public_key rs))
     = (fst (JWE.encrypt_json_keys public_key rs), ret tt).
Proof.
  intros H. apply encrypt_json_keys_all_set in H. split; [exact H|].
  apply encrypt_json_keys_set, H.
Qed.

(** X19.  On recipients none of which has a key, the loop of
    [encrypt_json] and the loop of [decrypt_json] are the same loop. *)
Theorem key_loops_agree_on_unset (key : KeyFlexible) (rs : list Recipient) :
  forallb unset rs = true ->
  JWE.encrypt_json_keys key rs = JWE.decrypt_json_keys key rs.
Proof.
  induction rs as [|r rs IH]; cbn [forallb JWE.encrypt_json_keys JWE.decrypt_json_keys];
    [reflexivity|].
  unfold unset at 1. destruct (recipient_key r); cbn [andb]; [discriminate|].
  intros H. rewrite (IH H). reflexivity.
Qed.

(** ** The JSON form of jwe.py *)



(** X22.  What [encrypt_json] calls beside [guess_key]: [perform_encrypt]
    exactly when its loop completed, and [represent_json] exactly when
    moreover [perform_encrypt] went through. *)
Theorem encrypt_json_gating (obj : JSONEncryption) (public_key : KeyFlexible)
    (registry : option JWERegistry) (sender_key : option Key) :
  (In Call_perform_encrypt
      (calls (snd (JWE.encrypt_json obj public_key registry sender_key)))
   <-> outcome (snd (JWE.encrypt_json_keys public_key (recipients obj))) = inr tt)
  /\ (In Call_represent_json
         (calls (snd (JWE.encrypt_json obj public_key registry sender_key)))
      <-> outcome (snd (JWE.encrypt_json_keys public_key (recipients obj))) = inr tt
          /\ snd (JWE.perform_encrypt (Pipeline := JWE.json_pipeline) JWE.registered
                    (set_recipients obj
                       (fst (JWE.encrypt_json_keys public_key (recipients obj))))
                    (JWE.or_default registry) sender_key) = inr tt).
Proof.
  assert (G : forall ev,
             In ev (calls (snd (JWE.encrypt_json_keys public_key (recipients obj)))) ->
             ev <> Call_perform_encrypt /\ ev <> Call_represent_json).
  { intros ev H. apply encrypt_json_keys_calls in H as (r & _ & _ & ->).
    split; discriminate. }
  unfold JWE.encrypt_json.
  destruct (JWE.encrypt_json_keys public_key (recipients obj)) as [rs [t [e|[]]]];
    cbn [outcome calls fst snd] in *.
  - split; (split; [intros H; apply G in H; destruct H; congruence|]).
    + discriminate.
    + intros [H _]; discriminate H.
  - unfold JWE.in_place, bind, call.
    destruct (JWE.perform_encrypt _ _ _ _) as [obj' [e|[]]]; cbn [fst snd].
    + split; split.
      * reflexivity.
      * intros _. apply in_or_app. right. left. reflexivity.
      * intros H. apply in_app_or in H as [H|[H|[]]];
          [apply G in H; destruct H; congruence|discriminate H].
      * intros [_ H]; discriminate H.
    + destruct (JWE.represent_json obj') as [e|out]; split; split; try reflexivity;
        try (intros _; split; reflexivity); intros _; apply in_or_app; right;
        cbn; auto.
Qed.

(** X23.  On a message whose recipients all have a key, [encrypt_json]
    resolves no key: the public key is not used, and the message is
    handed to [perform_encrypt] as the caller gave it. *)
Theorem encrypt_json_with_all_keys_set (obj : JSONEncryption)
    (public_key other_key : KeyFlexible) (registry : option JWERegistry)
    (sender_key : option Key) :
  all_set (recipients obj) = true ->
  JWE.encrypt_json obj public_key registry sender_key
  = JWE.encrypt_json obj other_key registry sender_key
  /\ JWE.encrypt_json obj public_key registry sender_key
     = (fst (JWE.perform_encrypt (Pipeline := JWE.json_pipeline) JWE.registered obj
               (JWE.or_default registry) sender_key),
        obj' <- call Call_perform_encrypt
                  (JWE.in_place
                     (JWE.perform_encrypt (Pipeline := JWE.json_pipeline)
                        JWE.registered obj (JWE.or_default registry) sender_key)) ;;
        call Call_represent_json (JWE.represent_json obj')).
Proof.
  intros H. unfold JWE.encrypt_json.
  rewrite (encrypt_json_keys_set public_key _ H), (encrypt_json_keys_set other_key _ H).
  split; [reflexivity|].
  assert (E : set_recipients obj (recipients obj) = obj) by (destruct obj; reflexivity).
  cbn [outcome snd ret]. rewrite E.
  destruct (JWE.perform_encrypt _ _ _ _) as [o [e|[]]]; reflexivity.
Qed.

(** The loop of [decrypt_json] on recipients for which the key
    resolves. *)
Lemma decrypt_json_keys_resolved (private_key : KeyFlexible)
    (rs : list Recipient) (keys : list Key) :
  Forall2 (fun r k => JWE.guess_key private_key r = inr k) rs keys ->
  JWE.decrypt_json_keys private_key rs
  = (map (fun rk => set_recipient_key (fst rk) (snd rk)) (combine rs keys),
     (map guess_for rs, inr tt)).
Proof.
  induction 1 as [|r k rs keys Hk _ IH]; cbn [JWE.decrypt_json_keys]; [reflexivity|].
  rewrite Hk, IH. reflexivity.
Qed.



(** X25.  [decrypt_json] stops at the first recipient for which the key
    does not resolve: [guess_key] was called for the recipients up to that
    one, in order, its exception passes through, and nothing is
    decrypted. *)
Theorem decrypt_json_stops_at_first_unresolved (data : JSONSerialization)
    (private_key : KeyFlexible) (registry : option JWERegistry)
    (sender_key : option Key) (obj : JSONEncryption)
    (before after : list Recipient) (keys : list Key) (r : Recipient) (e : exn) :
  JWE.extract_json data = inr obj ->
  recipients obj = (before ++ r :: after)%list ->
  Forall2 (fun r k => JWE.guess_key private_key r = inr k) before keys ->
  JWE.guess_key private_key r = inl e ->
  JWE.decrypt_json data private_key registry sender_key
  = (Call_extract_json :: (map guess_for before ++ [guess_for r])%list, inl e).
Proof.
  intros He Hrs Hkeys Hg. unfold JWE.decrypt_json. rewrite He. cbn [bind call].
  rewrite Hrs, decrypt_json_keys_app, (decrypt_json_keys_resolved _ _ _ Hkeys).
  cbn [outcome calls fst snd JWE.decrypt_json_keys]. rewrite Hg. reflexivity.
Qed.

End JWEMore.

(** X14 with an empty key set: [guess_key] finds no key, and it is the
    only call. *)
Lemma encrypt_compact_raises_witness :
  calls (JWE.encrypt_compact (I := JWEModel.standard JWEModel.fixed_random)
           [("alg", JStr "dir"); ("enc", JStr "A128GCM")] "hello" (KeySet []) None None)
  = [guess_for (new_Recipient
                  (new_CompactEncryption [("alg", JStr "dir"); ("enc", JStr "A128GCM")]
                                         "hello"))].
Proof.
  destruct (encrypt_compact_raises (I := JWEModel.standard JWEModel.fixed_random)
              [("alg", JStr "dir"); ("enc", JStr "A128GCM")] "hello" (KeySet []) None None
              (ValueError (OtherValueError "no key for this message")))
    as [[_ H]|[(k & Hk & _)|(k & o & Hk & _)]].
  - reflexivity.
  - exact H.
  - discriminate Hk.
  - discriminate Hk.
Defined.

(** X16 on a token of five segments, with an empty key set. *)
Lemma decrypt_compact_run_witness :
  JWE.decrypt_compact (I := JWEModel.standard JWEModel.fixed_random)
    (Raw "eyJhbGciOiJkaXIiLCJlbmMiOiJBMTI4R0NNIn0..aXY.aGVsbG8.dGFn") (KeySet []) None None
  = ([Call_extract_compact;
      guess_for {| message_headers := [("alg", JStr "dir"); ("enc", JStr "A128GCM")];
                   recipient_header := []; recipient_key := None;
                   encrypted_key := Some EmptyString |}],
     inl (ValueError (OtherValueError "no key for this message"))).
Proof.
  apply (decrypt_compact_run (I := JWEModel.standard JWEModel.fixed_random)
           (Raw "eyJhbGciOiJkaXIiLCJlbmMiOiJBMTI4R0NNIn0..aXY.aGVsbG8.dGFn")
           (KeySet []) None None
           {| protected := [("alg", JStr "dir"); ("enc", JStr "A128GCM")];
              plaintext := None;
              recipient :=
                Some {| message_headers := [("alg", JStr "dir"); ("enc", JStr "A128GCM")];
                        recipient_header := []; recipient_key := None;
                        encrypted_key := Some EmptyString |};
              protected_segment := Some "eyJhbGciOiJkaXIiLCJlbmMiOiJBMTI4R0NNIn0";
              iv := "iv"; ciphertext := "hello"; tag := "tag" |}
           {| message_headers := [("alg", JStr "dir"); ("enc", JStr "A128GCM")];
              recipient_header := []; recipient_key := None;
              encrypted_key := Some EmptyString |}).
  - vm_compute. reflexivity.
  - reflexivity.
Defined.

(** X17 on the two recipients of the example message: the first has a
    key, the loop of [encrypt_json] goes on with the second. *)
Lemma key_loops_compose_witness :
  JWE.encrypt_json_keys (I := example_imports) (RawKey "secret")
    ([example_recipient (Some example_key)] ++ [example_recipient None])
  = ([example_recipient (Some example_key);
      set_recipient_key (example_recipient None) (JwkModel.import_oct_key "secret")],
     ([guess_for (example_recipient None)], inr tt)).
Proof.
  apply (proj1 (proj2 (key_loops_compose (I := example_imports) (RawKey "secret")
                         [example_recipient (Some example_key)]
                         [example_recipient None]))).
  reflexivity.
Defined.

(** X18 on the example message. *)
Lemma encrypt_json_keys_idempotent_witness :
  JWE.encrypt_json_keys (I := example_imports) (KeySet [])
    (fst (JWE.encrypt_json_keys (I := example_imports) (RawKey "secret")
            (recipients example_message)))
  = (fst (JWE.encrypt_json_keys (I := example_imports) (RawKey "secret")
            (recipients example_message)),
     ret tt).
Proof.
  apply (proj2 (encrypt_json_keys_idempotent (I := example_imports)
                  (RawKey "secret") (KeySet []) (recipients example_message) eq_refl)).
Defined.

(** X19 on two recipients without a key. *)
Lemma key_loops_agree_on_unset_witness :
  JWE.encrypt_json_keys (I := example_imports) (RawKey "secret")
    [example_recipient None; example_recipient None]
  = JWE.decrypt_json_keys (I := example_imports) (RawKey "secret")
      [example_recipient None; example_recipient None].
Proof.
  apply (key_loops_agree_on_unset (I := example_imports)). reflexivity.
Defined.


(** X23 on the example message without its second recipient. *)
Lemma encrypt_json_with_all_keys_set_witness :
  JWE.encrypt_json (I := example_imports)
    (set_recipients example_message [example_recipient (Some example_key)])
    (KeySet []) None None
  = JWE.encrypt_json (I := example_imports)
      (set_recipients example_message [example_recipient (Some example_key)])
      (RawKey "secret") None None.
Proof.
  apply (proj1 (encrypt_json_with_all_keys_set (I := example_imports)
                  (set_recipients example_message [example_recipient (Some example_key)])
                  (KeySet []) (RawKey "secret") None None eq_refl)).
Defined.

(** X25 where the data extracts to the example message, with an empty key
    set: no key is found for the first recipient. *)
Lemma decrypt_json_stops_at_first_unresolved_witness :
  JWE.decrypt_json (I := example_imports) (JObj []) (KeySet []) None None
  = ([Call_extract_json; guess_for (example_recipient (Some example_key))],
     inl (ValueError (OtherValueError "no key for this message"))).
Proof.
  apply (decrypt_json_stops_at_first_unresolved (I := example_imports)
           (JObj []) (KeySet []) None None example_message
           [] [example_recipient None] [] (example_recipient (Some example_key))
           (ValueError (OtherValueError "no key for this message")));
    first [reflexivity | constructor].
Defined.
